(** * Grading pipeline of the test-mark backend: model and properties

  The development embeds the TypeScript sources of the backend
  (services/openaiService.ts and routes/submissionRoutes.ts) as Rocq
  functions and proves the properties the specification states about
  them.  JavaScript strings are sequences of UTF-16 code units, the
  database collections are finite maps, and the asynchronous route
  handler is a function from the environment's answers (token check,
  store writes, pipeline outcome) to the trace of effects it performs. *)

From Stdlib Require Import ZArith NArith List String Ascii Bool Lia Sorted.
From stdpp Require Import base option list gmap.

Import ListNotations.
Open Scope N_scope.

Set Warnings "-register-all,-abstract-large-number".

(* ================================================================== *)
(** * JavaScript text                                                  *)
(* ================================================================== *)

(** A JavaScript string: the list of its UTF-16 code units; [length] is
  the [length] property of the source language. *)
Abbreviation jsstring := (list N).

Module Text.

(** Code unit of an 8-bit character of a literal. *)
Definition unit_of_ascii (a : ascii) : N := N_of_ascii a.

(** A string literal of the source, as code units (ASCII text only). *)
Fixpoint lit (s : string) : jsstring :=
  match s with
  | EmptyString => []
  | String a r => unit_of_ascii a :: lit r
  end.

(** A literal in which the apostrophe stands for the double quote, to
    write JSON texts. *)
Definition qlit (s : string) : jsstring :=
  map (fun c => if c =? 39 then 34 else c) (lit s).

#[global] Arguments lit : simpl never.
#[global] Arguments qlit : simpl never.

Definition LF : N := 10.
Definition LBRACE : N := 123.
Definition RBRACE : N := 125.

(** [s.startsWith(p)] *)
Fixpoint startsWith (p s : jsstring) : bool :=
  match p, s with
  | [], _ => true
  | _ :: _, [] => false
  | a :: p', b :: s' => (a =? b) && startsWith p' s'
  end.

(** [s.slice(n)] for a non-negative [n] *)
Definition slice_from (n : nat) (s : jsstring) : jsstring := drop n s.

(** [s.slice(0, n)] for a non-negative [n] *)
Definition slice_to (n : nat) (s : jsstring) : jsstring := take n s.

(** The character class [[\x00-\x09\x0B-\x1F\x7F]] of [sanitizeCode]. *)
Definition in_strip_class (c : N) : bool :=
  (c <=? 9) || ((11 <=? c) && (c <=? 31)) || (c =? 127).

(** The ASCII control characters: U+0000..U+001F and U+007F. *)
Definition is_control (c : N) : bool := (c <=? 31) || (c =? 127).

(** [code.replace(/[\x00-\x09\x0B-\x1F\x7F]/g, '')] *)
Fixpoint sanitizeCode (code : jsstring) : jsstring :=
  match code with
  | [] => []
  | c :: r => if in_strip_class c then sanitizeCode r else c :: sanitizeCode r
  end.

(** The per-file cap of [readRepoFiles], in [length] units. *)
Definition FILE_CAP : nat := 10000.

(** ['\n// ...truncated...'] *)
Definition TRUNCATION_MARKER : jsstring := LF :: lit "// ...truncated...".

(** [if (content.length > 10000)
       content = content.slice(0, 10000) + '\n// ...truncated...'] *)
Definition clip (content : jsstring) : jsstring :=
  if (FILE_CAP <? length content)%nat
  then slice_to FILE_CAP content ++ TRUNCATION_MARKER
  else content.

(** Insertion into a JavaScript [Set]: membership first, insertion
    order kept. *)
Definition set_add (f : jsstring) (seen : list jsstring) : list jsstring :=
  if bool_decide (f ∈ seen) then seen else seen ++ [f].

(** Suffix of [s] that starts at the first occurrence of [c]. *)
Fixpoint from_first (c : N) (s : jsstring) : option jsstring :=
  match s with
  | [] => None
  | x :: r => if x =? c then Some s else from_first c r
  end.

(** Longest prefix of [s] that ends with [c]. *)
Fixpoint upto_last (c : N) (s : jsstring) : option jsstring :=
  match s with
  | [] => None
  | x :: r =>
      match upto_last c r with
      | Some p => Some (x :: p)
      | None => if x =? c then Some [x] else None
      end
  end.

(** [content.match(/\{[\s\S]*\}/)], component 0 of the match: the
    leftmost match starts at the first opening brace that has a closing
    brace after it, and the greedy star runs to the last closing
    brace. *)
Definition match_braces (content : jsstring) : option jsstring :=
  match from_first LBRACE content with
  | Some (b :: r) =>
      match upto_last RBRACE r with
      | Some p => Some (b :: p)
      | None => None
      end
  | _ => None
  end.

End Text.

(* ================================================================== *)
(** * JavaScript values and JSON                                       *)
(* ================================================================== *)

Module Js.
Import Text.

(** A number: an IEEE 754 double other than [NaN], which no JSON text
    denotes.  A finite value is [mant * 2 ^ exp2], written with
    [exp2 <= 0] and with [mant] odd when [exp2 < 0], so that the whole
    number [n] is [mkNum n 0]; the zero with the sign bit set and the two
    infinities are the other values.  No arithmetic is performed on
    numbers by the modelled code; only [typeof] and truthiness are
    observed. *)
Inductive JsNum : Type :=
| mkNum (mant : Z) (exp2 : Z)
| NegZero
| Infinity (negative : bool).

(** The values the adapter handles: what [JSON.parse] can return, and
    [undefined] for a property that is not there. *)
Inductive JsValue : Type :=
| JUndefined
| JNull
| JBool (b : bool)
| JNumber (n : JsNum)
| JString (s : jsstring)
| JArray (items : list JsValue)
| JObject (fields : list (jsstring * JsValue)).

(** The number literal [0] of the source. *)
Definition js_zero : JsValue := JNumber (mkNum 0 0).

(** The object literal [{}]. *)
Definition js_empty_object : JsValue := JObject [].

(** [typeof v === 'number'] *)
Definition is_number (v : JsValue) : bool :=
  match v with JNumber _ => true | _ => false end.

(** [ToBoolean]: the falsy values are [undefined], [null], [false],
    the two zeros and the empty string. *)
Definition truthy (v : JsValue) : bool :=
  match v with
  | JUndefined | JNull => false
  | JBool b => b
  | JNumber (mkNum m _) => negb (m =? 0)%Z
  | JNumber NegZero => false
  | JNumber (Infinity _) => true
  | JString s => match s with [] => false | _ => true end
  | JArray _ | JObject _ => true
  end.

(** [a || b] *)
Definition js_or (a b : JsValue) : JsValue := if truthy a then a else b.

(** Own property of an object built by [JSON.parse]: with a repeated
    key the last member wins. *)
Fixpoint lookup_field (k : jsstring) (fields : list (jsstring * JsValue))
  : option JsValue :=
  match fields with
  | [] => None
  | (k', v) :: r =>
      match lookup_field k r with
      | Some w => Some w
      | None => if bool_decide (k' = k) then Some v else None
      end
  end.

(** A thrown [Error], by its [message]. *)
Definition Thrown := jsstring.

(** [v.k] for a property name that is neither an index nor a built-in
    of strings and arrays ([score], [report], [codeSmellScore],
    [codeQualityScore]): reading from [null] or [undefined] throws a
    [TypeError], a missing property is [undefined]. *)
Definition get_prop (v : JsValue) (k : jsstring) : Thrown + JsValue :=
  match v with
  | JNull =>
      inl (lit "Cannot read properties of null (reading '" ++ k ++ lit "')")
  | JUndefined =>
      inl (lit "Cannot read properties of undefined (reading '" ++ k ++ lit "')")
  | JObject fields => inr (default JUndefined (lookup_field k fields))
  | _ => inr JUndefined
  end.

End Js.

(** ** A reader for JSON texts

  [JSON.parse] is a built-in of the language.  The adapter below is
  stated over an arbitrary decoder; this reader follows the JSON
  grammar (objects, arrays, strings with escapes, numbers, the three
  literals, the four white-space characters), gives a number literal
  the double it denotes, and serves to run the adapter on concrete
  texts. *)
Module Json.
Import Text Js.

Definition is_ws (c : N) : bool :=
  (c =? 32) || (c =? 9) || (c =? 10) || (c =? 13).

Fixpoint skip_ws (s : jsstring) : jsstring :=
  match s with
  | c :: r => if is_ws c then skip_ws r else s
  | [] => []
  end.

Definition is_digit (c : N) : bool := (48 <=? c) && (c <=? 57).

(** Leading digits of [s], and the rest. *)
Fixpoint digits (s : jsstring) : list N * jsstring :=
  match s with
  | c :: r =>
      if is_digit c
      then let '(ds, r') := digits r in (c - 48 :: ds, r')
      else ([], s)
  | [] => ([], [])
  end.

Definition digits_value (ds : list N) : Z :=
  fold_left (fun acc d => (10 * acc + Z.of_N d)%Z) ds 0%Z.

Definition hex_value (c : N) : option N :=
  if is_digit c then Some (c - 48)
  else if (97 <=? c) && (c <=? 102) then Some (c - 87)
  else if (65 <=? c) && (c <=? 70) then Some (c - 55)
  else None.

(** The code unit of a [\uXXXX] escape. *)
Definition hex4 (a b c d : N) : option N :=
  match hex_value a, hex_value b, hex_value c, hex_value d with
  | Some x, Some y, Some z, Some w => Some (((x * 16 + y) * 16 + z) * 16 + w)
  | _, _, _, _ => None
  end.

(** The character of a one-letter escape. *)
Definition simple_escape (e : N) : option N :=
  if e =? 34 then Some 34         (* quote *)
  else if e =? 92 then Some 92    (* backslash *)
  else if e =? 47 then Some 47    (* slash *)
  else if e =? 98 then Some 8     (* b: backspace *)
  else if e =? 102 then Some 12   (* f: form feed *)
  else if e =? 110 then Some 10   (* n: line feed *)
  else if e =? 114 then Some 13   (* r: carriage return *)
  else if e =? 116 then Some 9    (* t: tab *)
  else None.

(** Body of a string after its opening quote: the decoded string and
    the text after the closing quote.  A raw control character is not
    allowed inside a string. *)
Fixpoint string_body (s : jsstring) (acc : jsstring)
  : option (jsstring * jsstring) :=
  match s with
  | [] => None
  | c :: r =>
      if c =? 34 then Some (rev acc, r)
      else if c <? 32 then None
      else if c =? 92 then
        match r with
        | [] => None
        | e :: r1 =>
            if e =? 117 then
              match r1 with
              | a :: b :: c' :: d :: r2 =>
                  match hex4 a b c' d with
                  | Some u => string_body r2 (u :: acc)
                  | None => None
                  end
              | _ => None
              end
            else
              match simple_escape e with
              | Some u => string_body r1 (u :: acc)
              | None => None
              end
        end
      else string_body r (c :: acc)
  end.

(** Integer part of a number: [0] or a non-empty digit run without a
    leading zero. *)
Definition int_part (s : jsstring) : option (list N * jsstring) :=
  match digits s with
  | ([], _) => None
  | (0 :: _ :: _, _) => None
  | (ds, r) => Some (ds, r)
  end.

Definition frac_part (s : jsstring) : option (list N * jsstring) :=
  match s with
  | c :: r =>
      if c =? 46 then
        match digits r with
        | ([], _) => None
        | (ds, r') => Some (ds, r')
        end
      else Some ([], s)
  | [] => Some ([], [])
  end.

Definition exp_digits (neg : bool) (s : jsstring) : option (Z * jsstring) :=
  match digits s with
  | ([], _) => None
  | (ds, r) => Some (if neg then (- digits_value ds)%Z else digits_value ds, r)
  end.

Definition exp_part (s : jsstring) : option (Z * jsstring) :=
  match s with
  | c :: r =>
      if (c =? 101) || (c =? 69) then
        match r with
        | sg :: r' =>
            if sg =? 43 then exp_digits false r'
            else if sg =? 45 then exp_digits true r'
            else exp_digits false r
        | [] => None
        end
      else Some (0%Z, s)
  | [] => Some (0%Z, [])
  end.

(** The integer nearest to [num / den], the even one of two that are
    equally near. *)
Definition nearest (num den : Z) : Z :=
  let d := (num / den)%Z in
  let r := (num mod den)%Z in
  if (2 * r <? den)%Z then d
  else if (den <? 2 * r)%Z then (d + 1)%Z
  else if Z.even d then d else (d + 1)%Z.

(** Halving while the number is even, at most [n] times: what is left,
    and how often it was halved. *)
Fixpoint halve (n : nat) (m : Z) : Z * nat :=
  match n with
  | O => (m, O)
  | S n' =>
      if Z.even m
      then let '(r, k) := halve n' (m / 2)%Z in (r, S k)
      else (m, O)
  end.

(** The double a number literal denotes: the value [m * 10 ^ e10], for
    [m >= 0], rounded to the nearest double, to the even one of two that
    are equally near.  With [k] the binary exponent of the value, the
    doubles around it are the multiples of [2 ^ s] for [s = k - 52], and
    of [2 ^ -1074] below the normal range; a result of [2 ^ 1024] or
    more is an infinity. *)
Definition to_double (neg : bool) (m e10 : Z) : JsNum :=
  let p := if (0 <=? e10)%Z then (m * 10 ^ e10)%Z else m in
  let q := if (0 <=? e10)%Z then 1%Z else (10 ^ (- e10))%Z in
  let k0 := (Z.log2 p - Z.log2 q)%Z in
  let below :=
    if (0 <=? k0)%Z then (p <? q * 2 ^ k0)%Z else (p * 2 ^ (- k0) <? q)%Z in
  let k := if below then (k0 - 1)%Z else k0 in
  let s := Z.max (k - 52) (-1074) in
  let n :=
    if (0 <=? s)%Z then nearest p (q * 2 ^ s) else nearest (p * 2 ^ (- s)) q in
  if (n =? 0)%Z then (if neg then NegZero else mkNum 0 0)
  else if (1024 <=? s + Z.log2 n)%Z then Infinity neg
  else
    let '(r, e) :=
      if (0 <=? s)%Z then ((n * 2 ^ s)%Z, 0%Z)
      else let '(r, h) := halve (Z.to_nat (- s)) n in (r, (s + Z.of_nat h)%Z) in
    mkNum (if neg then (- r)%Z else r) e.

Definition unsigned_number (neg : bool) (s : jsstring)
  : option (JsValue * jsstring) :=
  match int_part s with
  | None => None
  | Some (ip, r1) =>
      match frac_part r1 with
      | None => None
      | Some (fp, r2) =>
          match exp_part r2 with
          | None => None
          | Some (e, r3) =>
              let m := digits_value (ip ++ fp) in
              Some (JNumber (to_double neg m (e - Z.of_nat (length fp))), r3)
          end
      end
  end.

Definition number (s : jsstring) : option (JsValue * jsstring) :=
  match s with
  | c :: r => if c =? 45 then unsigned_number true r else unsigned_number false s
  | [] => None
  end.

Fixpoint value (fuel : nat) (s : jsstring) : option (JsValue * jsstring) :=
  match fuel with
  | O => None
  | S n =>
      match skip_ws s with
      | [] => None
      | c :: r =>
          if c =? LBRACE then
            match skip_ws r with
            | d :: r' =>
                if d =? RBRACE then Some (JObject [], r')
                else members n (d :: r') []
            | [] => None
            end
          else if c =? 91 then
            match skip_ws r with
            | d :: r' =>
                if d =? 93 then Some (JArray [], r')
                else elements n (d :: r') []
            | [] => None
            end
          else if c =? 34 then
            match string_body r [] with
            | Some (str, r') => Some (JString str, r')
            | None => None
            end
          else if startsWith (lit "true") (c :: r)
               then Some (JBool true, drop 4 (c :: r))
          else if startsWith (lit "false") (c :: r)
               then Some (JBool false, drop 5 (c :: r))
          else if startsWith (lit "null") (c :: r)
               then Some (JNull, drop 4 (c :: r))
          else number (c :: r)
      end
  end
with elements (fuel : nat) (s : jsstring) (acc : list JsValue)
  : option (JsValue * jsstring) :=
  match fuel with
  | O => None
  | S n =>
      match value n s with
      | Some (v, r) =>
          match skip_ws r with
          | c :: r' =>
              if c =? 44 then elements n r' (v :: acc)
              else if c =? 93 then Some (JArray (rev (v :: acc)), r')
              else None
          | [] => None
          end
      | None => None
      end
  end
with members (fuel : nat) (s : jsstring) (acc : list (jsstring * JsValue))
  : option (JsValue * jsstring) :=
  match fuel with
  | O => None
  | S n =>
      match skip_ws s with
      | q :: r =>
          if q =? 34 then
            match string_body r [] with
            | Some (k, r1) =>
                match skip_ws r1 with
                | c :: r2 =>
                    if c =? 58 then
                      match value n r2 with
                      | Some (v, r3) =>
                          match skip_ws r3 with
                          | c' :: r4 =>
                              if c' =? 44 then members n r4 ((k, v) :: acc)
                              else if c' =? RBRACE
                                   then Some (JObject (rev ((k, v) :: acc)), r4)
                              else None
                          | [] => None
                          end
                      | None => None
                      end
                    else None
                | [] => None
                end
            | None => None
            end
          else None
      | [] => None
      end
  end.

(** A JSON text: one value, white space around it, nothing else.
    [None] stands for the [SyntaxError] of [JSON.parse]. *)
Definition parse (s : jsstring) : option JsValue :=
  match value (2 * length s + 2) s with
  | Some (v, r) => match skip_ws r with [] => Some v | _ => None end
  | None => None
  end.

End Json.

(* ================================================================== *)
(** * The quality-analysis adapter (services/openaiService.ts)         *)
(* ================================================================== *)

Module Adapter.
Import Text Js.

(** What the adapter takes from its surroundings: the [JSON] built-in,
    the [glob], [fs] and [path] modules, the fixed texts of the two
    prompt templates, and the remote analysis service.  [JSON.stringify]
    and [glob] may throw ([inl], with the error's message).  The service
    answers the [n]-th request made to it (counted from 0) for a given
    prompt, so that a second attempt could be told from the first. *)
Inductive Reply : Type :=
| Rejected (message : jsstring)   (* the request promise rejects *)
| Completed (content : jsstring). (* [response.choices[0].message.content] *)

Record Env : Type := mkEnv {
  JSON_parse : jsstring -> option JsValue;
  JSON_stringify : JsValue -> Thrown + jsstring;
  glob : jsstring -> jsstring -> Thrown + list jsstring;   (* pattern, cwd *)
  readFile : jsstring -> option jsstring;         (* [None]: the read throws *)
  relative : jsstring -> jsstring -> jsstring;    (* [path.relative] *)
  NATIVE_HEAD : jsstring;  (* template for 'c' up to and including [## Code] *)
  NATIVE_TAIL : jsstring;  (* its [## Output Format] section *)
  WEB_HEAD_A : jsstring;   (* web template before the project type *)
  WEB_HEAD_B : jsstring;   (* from there up to and including [## Code] *)
  WEB_TAIL : jsstring;     (* its [## Output Format] section *)
  service : nat -> jsstring -> Reply
}.

Definition DEFAULT_FILE_GLOBS : list jsstring :=
  map lit
    [ "README.md"; "readme.md"; "package.json";
      "index.js"; "index.ts"; "app.js"; "app.ts"; "server.js"; "server.ts";
      "src/**/*.js"; "src/**/*.ts";
      "routes/**/*.js"; "routes/**/*.ts";
      "controllers/**/*.js"; "controllers/**/*.ts";
      "middleware/**/*.js"; "middleware/**/*.ts" ]%string.

(** ** Asynchronous computations of the adapter

    A computation threads the log of the prompts sent to the service
    and ends with a value or a thrown error. *)
Definition Log := list jsstring.
Definition Task (A : Type) : Type := Log -> (Thrown + A) * Log.

Definition ret {A} (a : A) : Task A := fun log => (inr a, log).
Definition throw {A} (e : Thrown) : Task A := fun log => (inl e, log).
Definition bind {A B} (m : Task A) (k : A -> Task B) : Task B :=
  fun log =>
    match m log with
    | (inr a, log') => k a log'
    | (inl e, log') => (inl e, log')
    end.
(** [try { body } catch (error) { handler(error.message) }] *)
Definition try_catch {A} (body : Task A) (handler : Thrown -> Task A) : Task A :=
  fun log =>
    match body log with
    | (inr a, log') => (inr a, log')
    | (inl e, log') => handler e log'
    end.
(** An expression that may throw. *)
Definition eval {A} (r : Thrown + A) : Task A := fun log => (r, log).

Notation "x <- m ;; k" := (bind m (fun x => k))
  (at level 100, m at next level, right associativity).

(** [await openai.chat.completions.create({... content: prompt ...})]
    followed by the read of the reply's content. *)
Definition chat_create (E : Env) (prompt : jsstring) : Task jsstring :=
  fun log =>
    (match service E (length log) prompt with
     | Rejected m => inl m
     | Completed c => inr c
     end, log ++ [prompt]).

(** ** readRepoFiles *)

(** The first loop: the matches of each pattern are added to the [Set];
    a [glob] call that rejects ends the function, for the loop is not
    inside a [try]. *)
Fixpoint add_matches (E : Env) (repoPath : jsstring) (fileGlobs : list jsstring)
    (matchedFiles : list jsstring) : Thrown + list jsstring :=
  match fileGlobs with
  | [] => inr matchedFiles
  | pattern :: rest =>
      match glob E pattern repoPath with
      | inl e => inl e
      | inr matches =>
          add_matches E repoPath rest
            (fold_left (fun seen f => set_add f seen) matches matchedFiles)
      end
  end.

(** The matched files, in the insertion order of the [Set]. *)
Definition matched_files (E : Env) (repoPath : jsstring)
    (fileGlobs : list jsstring) : Thrown + list jsstring :=
  add_matches E repoPath fileGlobs [].

(** What one matched file adds to [fileContents]; nothing when the read
    throws (the empty [catch]). *)
Definition file_entry (E : Env) (repoPath file : jsstring) : jsstring :=
  match readFile E file with
  | Some raw =>
      let content := clip (sanitizeCode raw) in
      lit "// " ++ relative E repoPath file ++ [LF] ++ content ++ [LF; LF]
  | None => []
  end.

(** The read of the file succeeds. *)
Definition readable (E : Env) (file : jsstring) : bool :=
  match readFile E file with Some _ => true | None => false end.

Definition readRepoFiles (E : Env) (repoPath : jsstring)
    (fileGlobs : list jsstring) : Thrown + jsstring :=
  match matched_files E repoPath fileGlobs with
  | inl e => inl e
  | inr matchedFiles =>
      inr (fold_left
             (fun fileContents file => fileContents ++ file_entry E repoPath file)
             matchedFiles [])
  end.

(** ** buildPrompt *)

Definition is_native (projectType : option jsstring) : bool :=
  bool_decide (projectType = Some (lit "c")).

(** [rubric ? JSON.stringify(rubric, null, 2) : 'Default grading criteria'] *)
Definition rubric_text (E : Env) (rubric : JsValue) : Thrown + jsstring :=
  if truthy rubric then JSON_stringify E rubric
  else inr (lit "Default grading criteria").

(** [npmRegistryData ? JSON.stringify(npmRegistryData, null, 2) : '{}'] *)
Definition registry_text (E : Env) (npmRegistryData : JsValue) : Thrown + jsstring :=
  if truthy npmRegistryData then JSON_stringify E npmRegistryData
  else inr (lit "{}").

(** [a] then [k], for expressions that may throw. *)
Definition then_eval {A B} (a : Thrown + A) (k : A -> Thrown + B) : Thrown + B :=
  match a with
  | inl e => inl e
  | inr x => k x
  end.

Definition section (title : string) : jsstring :=
  [LF; LF] ++ lit "## " ++ lit title ++ [LF].

(** The substitutions of a template are evaluated from left to right,
    and the first that throws ends the function. *)
Definition buildPrompt (E : Env) (files : jsstring) (testResult rubric : JsValue)
    (npmRegistryData : JsValue) (projectType : option jsstring)
  : Thrown + jsstring :=
  if is_native projectType then
    then_eval (rubric_text E rubric) (fun rubric_part =>
    inr (NATIVE_HEAD E ++ files
           ++ section "Rubric" ++ rubric_part
           ++ NATIVE_TAIL E))
  else
    then_eval (JSON_stringify E testResult) (fun test_part =>
    then_eval (rubric_text E rubric) (fun rubric_part =>
    then_eval (registry_text E npmRegistryData) (fun registry_part =>
    inr (WEB_HEAD_A E
           ++ (match projectType with
               | Some (c :: t) => c :: t
               | _ => lit "JavaScript/TypeScript/React/Express"
               end)
           ++ WEB_HEAD_B E ++ files
           ++ section "Test Results" ++ test_part
           ++ section "Rubric" ++ rubric_part
           ++ section "NPM Registry Data" ++ registry_part
           ++ WEB_TAIL E)))).

(** ** safeJsonParse *)

Definition safeJsonParse (E : Env) (content : jsstring) : JsValue :=
  match JSON_parse E content with
  | Some v => v
  | None =>
      match match_braces content with
      | Some span =>
          match JSON_parse E span with
          | Some v => v
          | None => js_empty_object
          end
      | None => js_empty_object
      end
  end.

(** ** analyzeCode *)

Record BreakdownEntry : Type := mkEntry {
  category : jsstring;
  score : JsValue;
  maxScore : Z;
  feedback : jsstring
}.

Inductive Analysis : Type :=
| NativeAnalysis (codeSmellScore codeQualityScore : JsValue) (report : JsValue)
                 (breakdown : list BreakdownEntry)
| WebAnalysis (score : JsValue) (report : JsValue).

Definition native_breakdown (codeQualityScore codeSmellScore : JsValue)
  : list BreakdownEntry :=
  [ mkEntry (lit "Code Quality") codeQualityScore 100 (lit "LLM code quality score");
    mkEntry (lit "Code Smell") codeSmellScore 100 (lit "LLM code smell score") ].

(** The value returned from the [catch] block. *)
Definition degraded (projectType : option jsstring) (message : jsstring)
  : Analysis :=
  if is_native projectType then
    NativeAnalysis js_zero js_zero
      (JString (lit "AI analysis failed: " ++ message))
      (native_breakdown js_zero js_zero)
  else
    WebAnalysis js_zero (JString (lit "AI analysis failed: " ++ message)).

Definition NO_ANALYSIS : JsValue := JString (lit "No analysis provided").

(** What the [try] block of [analyzeCode] does with the content of the
    reply, from [safeJsonParse] to the [return]. *)
Definition read_reply (E : Env) (projectType : option jsstring)
    (content : jsstring) : Task Analysis :=
  let analysis := safeJsonParse E content in
  if is_native projectType then
    codeSmellScore <- eval (get_prop analysis (lit "codeSmellScore")) ;;
    codeQualityScore <- eval (get_prop analysis (lit "codeQualityScore")) ;;
    let invalid :=
      negb (is_number codeSmellScore) || negb (is_number codeQualityScore) in
    let codeSmellScore := if invalid then js_zero else codeSmellScore in
    let codeQualityScore := if invalid then js_zero else codeQualityScore in
    report <- eval (get_prop analysis (lit "report")) ;;
    ret (NativeAnalysis codeSmellScore codeQualityScore
           (js_or report NO_ANALYSIS)
           (native_breakdown codeQualityScore codeSmellScore))
  else
    score <- eval (get_prop analysis (lit "score")) ;;
    report <- eval (get_prop analysis (lit "report")) ;;
    ret (WebAnalysis (js_or score js_zero) (js_or report NO_ANALYSIS)).

(** The two statements that precede the [try] block of [analyzeCode]:
    the prompt, or what one of them throws. *)
Definition prompt_of (E : Env) (repoPath : jsstring) (testResult rubric : JsValue)
    (fileGlobs : option (list jsstring)) (npmRegistryData : JsValue)
    (projectType : option jsstring) : Thrown + jsstring :=
  then_eval (readRepoFiles E repoPath (default DEFAULT_FILE_GLOBS fileGlobs))
    (fun files => buildPrompt E files testResult rubric npmRegistryData projectType).

(** The first two statements are outside the [try] block: what they
    throw is thrown by [analyzeCode]. *)
Definition analyzeCode (E : Env) (repoPath : jsstring) (testResult rubric : JsValue)
    (fileGlobs : option (list jsstring)) (npmRegistryData : JsValue)
    (projectType : option jsstring) : Task Analysis :=
  files <- eval (readRepoFiles E repoPath (default DEFAULT_FILE_GLOBS fileGlobs)) ;;
  prompt <- eval (buildPrompt E files testResult rubric npmRegistryData projectType) ;;
  try_catch
    (content <- chat_create E prompt ;;
     read_reply E projectType content)
    (fun message => ret (degraded projectType message)).

(** The scores and the report of a result, for the statements below. *)
Definition scores_of (a : Analysis) : list JsValue :=
  match a with
  | NativeAnalysis smell quality _ _ => [quality; smell]
  | WebAnalysis sc _ => [sc]
  end.

Definition report_of (a : Analysis) : JsValue :=
  match a with
  | NativeAnalysis _ _ r _ => r
  | WebAnalysis _ r => r
  end.

End Adapter.

(* ================================================================== *)
(** * Submissions and users (models, as config/swagger.ts documents them) *)
(* ================================================================== *)

Module Model.
Import Text Js.

Inductive Status : Type :=
| uploading | installing | testing | reviewing | reporting | completed | failed.

Inductive Grade : Type := pending | pass | fail.

#[global] Instance Status_eq_dec : EqDecision Status.
Proof. solve_decision. Defined.

#[global] Instance Grade_eq_dec : EqDecision Grade.
Proof. solve_decision. Defined.

(** The string of a status, as stored and as a query names it. *)
Definition status_name (st : Status) : jsstring :=
  lit match st with
      | uploading => "uploading" | installing => "installing"
      | testing => "testing" | reviewing => "reviewing"
      | reporting => "reporting" | completed => "completed"
      | failed => "failed"
      end.

Record Breakdown : Type := mkBreakdown {
  bd_category : jsstring; bd_score : Z; bd_maxScore : Z; bd_feedback : jsstring }.

Record Scores : Type := mkScores {
  total : Z; testScore : Z; qualityScore : Z; breakdown : list Breakdown }.

Record TestResults : Type := mkTestResults {
  passed : Z; tr_total : Z; details : jsstring; duration : Z }.

Record AiAnalysis : Type := mkAiAnalysis {
  promptTokens : Z; completionTokens : Z; analysisTime : Z; modelUsed : jsstring }.

Record Metadata : Type := mkMetadata {
  md_projectType : option jsstring;
  dependencies : list jsstring;
  testResults : TestResults;
  aiAnalysis : AiAnalysis }.

(** A submission document.  [None] in an optional field is the absent
    property. *)
Record Submission : Type := mkSubmission {
  _id : jsstring;
  githubUrl : jsstring;
  rubric : JsValue;
  projectType : option jsstring;
  userId : jsstring;
  status : Status;
  grade : Grade;
  scores : option Scores;
  report : option jsstring;
  error : option jsstring;
  metadata : Metadata;
  createdAt : N }.

Definition set_status (st : Status) (s : Submission) : Submission :=
  mkSubmission (_id s) (githubUrl s) (rubric s) (projectType s) (userId s)
    st (grade s) (scores s) (report s) (error s) (metadata s) (createdAt s).

Definition set_grade (g : Grade) (s : Submission) : Submission :=
  mkSubmission (_id s) (githubUrl s) (rubric s) (projectType s) (userId s)
    (status s) g (scores s) (report s) (error s) (metadata s) (createdAt s).

Definition set_scores (sc : option Scores) (s : Submission) : Submission :=
  mkSubmission (_id s) (githubUrl s) (rubric s) (projectType s) (userId s)
    (status s) (grade s) sc (report s) (error s) (metadata s) (createdAt s).

Definition set_report (r : option jsstring) (s : Submission) : Submission :=
  mkSubmission (_id s) (githubUrl s) (rubric s) (projectType s) (userId s)
    (status s) (grade s) (scores s) r (error s) (metadata s) (createdAt s).

Definition set_error (e : option jsstring) (s : Submission) : Submission :=
  mkSubmission (_id s) (githubUrl s) (rubric s) (projectType s) (userId s)
    (status s) (grade s) (scores s) (report s) e (metadata s) (createdAt s).

Record User : Type := mkUser { user_id : jsstring; email : jsstring; role : jsstring }.

(** The two collections, and the number of writes attempted so far. *)
Record Db : Type := mkDb {
  submissions : gmap jsstring Submission;
  users : gmap jsstring User;
  writes : nat }.

(** ** The lifecycle the specification documents *)

(** The forward chain. *)
Definition next_status (st : Status) : option Status :=
  match st with
  | uploading => Some installing
  | installing => Some testing
  | testing => Some reviewing
  | reviewing => Some reporting
  | reporting => Some completed
  | completed | failed => None
  end.

Definition terminal (st : Status) : bool :=
  match st with completed | failed => true | _ => false end.

(** A documented edge: one step forward, or from a state that is not
    terminal to [failed]; staying in [failed] is the idempotent
    re-entry. *)
Definition valid_edge (a b : Status) : bool :=
  bool_decide (next_status a = Some b)
  || (bool_decide (b = failed) && (negb (terminal a) || bool_decide (a = failed))).

(** Every two consecutive statuses are joined by a documented edge. *)
Fixpoint lifecycle (trace : list Status) : bool :=
  match trace with
  | a :: (b :: _) as rest => valid_edge a b && lifecycle rest
  | _ => true
  end.

(** The grade invariant: [pending] exactly until [completed]. *)
Definition grade_consistent (s : Submission) : bool :=
  match status s with
  | completed => negb (bool_decide (grade s = pending))
  | _ => bool_decide (grade s = pending)
  end.

End Model.

(* ================================================================== *)
(** * The submission routes (routes/submissionRoutes.ts)               *)
(* ================================================================== *)

Module Routes.
Import Text Js Model.

(** ** Requests, responses, effects *)

(** A value of [req.query], as the query-string parser of the framework
    builds it: a string for [?k=v], an array for a repeated key, an
    object for [?k[op]=v].  The handlers do not check which it is. *)
Inductive QValue : Type :=
| QText (s : jsstring)
| QList (items : list QValue)
| QObject (fields : list (jsstring * QValue)).

(** [req.query]: the four parameters the listing reads; [None] is a
    parameter that is not there. *)
Record Query : Type := mkQuery {
  q_userId : option QValue;
  q_status : option QValue;
  q_limit : option QValue;
  q_skip : option QValue }.

(** [req.body]: the fields the handlers destructure. *)
Record Body : Type := mkBody {
  b_githubUrl : jsstring;
  b_rubric : JsValue;
  b_projectType : option jsstring;
  b_fileGlobs : option (list jsstring);
  b_status : option Status;
  b_grade : option Grade;
  b_error : option jsstring }.

Record Request : Type := mkRequest {
  authorization : option jsstring;   (* [req.headers.authorization] *)
  param_id : jsstring;               (* [req.params.id] *)
  query : Query;
  body : Body }.

Inductive Payload : Type :=
| PError (message : jsstring)              (* [{ error }] *)
| PMessage (message : jsstring)            (* [{ message }] *)
| PSubmissionId (id : jsstring)            (* [{ submissionId }] *)
| PSubmission (s : Submission)
| PSubmissions (l : list (Submission * jsstring)). (* with [userEmail] *)

Inductive Response : Type :=
| Json (code : nat) (p : Payload)          (* [res.status(code).json(p)] *)
| Send (code : nat) (headers : list (jsstring * jsstring)) (text : jsstring)
| NextError (message : jsstring).          (* [next(error)] *)

(** What a handler does that the outside can see, in order. *)
Inductive Event : Type :=
| Responded (r : Response)
| Saved (s : Submission)                       (* a write the store accepted *)
| SaveRefused (s : Submission) (message : jsstring)
| GradeCalled (id : jsstring)                  (* [gradingService.gradeSubmission] *)
| Unhandled (message : jsstring).              (* a rejection nobody handles *)

(** The surroundings of the routes: [jwt.verify] with the configured
    secret ([None]: it throws), the generator of document ids, the clock,
    and the store's answer to the [n]-th write ([None]: accepted,
    [Some m]: the write rejects with message [m]).  The models and the
    database driver are not among the sources, so what they do with
    values the routes hand them unchecked is left open:
    [cast_failure id] is the message of the [CastError] with which a
    query by id rejects when the string cannot be cast to a document id
    ([None]: it can); [operator path v] is the condition the store puts
    on the field [path] for a filter value that is not a string, or
    [None] when it rejects the query; [paging name v] is the count that
    [.skip] or [.limit] use for [Number(v)] when [v] is not a short run
    of digits, or [None] when the query is rejected; [refusal q] is the
    message of the error a rejected query ends with. *)
Record Env : Type := mkEnv {
  jwt_verify : jsstring -> option jsstring;
  new_id : Db -> jsstring;
  now : Db -> N;
  store : nat -> Submission -> option jsstring;
  cast_failure : jsstring -> option jsstring;
  operator : jsstring -> QValue -> option (jsstring -> bool);
  paging : jsstring -> QValue -> option nat;
  refusal : Query -> jsstring }.

(** [Submission.findById(id)]: the document, [null], or a rejection
    with a [CastError].  Documents are stored under the string of their
    id, so a string that names a stored document casts; the cast can
    fail only for a string that names none. *)
Definition findById (E : Env) (db : Db) (id : jsstring)
  : jsstring + option Submission :=
  match submissions db !! id with
  | Some s => inr (Some s)
  | None =>
      match cast_failure E id with
      | Some m => inl m
      | None => inr None
      end
  end.

(** [MarkerUser.findById(id)], likewise. *)
Definition findUserById (E : Env) (db : Db) (id : jsstring)
  : jsstring + option User :=
  match users db !! id with
  | Some u => inr (Some u)
  | None =>
      match cast_failure E id with
      | Some m => inl m
      | None => inr None
      end
  end.

(** [await submission.save()] *)
Definition save (E : Env) (doc : Submission) (db : Db) : option jsstring * Db :=
  match store E (writes db) doc with
  | None =>
      (None, mkDb (<[_id doc := doc]> (submissions db)) (users db) (S (writes db)))
  | Some m => (Some m, mkDb (submissions db) (users db) (S (writes db)))
  end.

(** ** Middleware *)

Record Ctx : Type := mkCtx { req : Request; user : option User }.

Inductive Step : Type := Next (c : Ctx) | End (r : Response).

Definition BEARER : jsstring := lit "Bearer ".

Definition getUserFromToken (E : Env) (db : Db) (c : Ctx) : Step :=
  match authorization (req c) with
  | None => End (Json 401 (PError (lit "No token")))
  | Some auth =>
      if negb (startsWith BEARER auth)
      then End (Json 401 (PError (lit "No token")))
      else
        let token := slice_from 7 auth in
        match jwt_verify E token with
        | None => End (Json 401 (PError (lit "Invalid token")))
        | Some payload_userId =>
            match findUserById E db payload_userId with
            | inl _ => End (Json 401 (PError (lit "Invalid token")))
            | inr None => End (Json 401 (PError (lit "User not found")))
            | inr (Some u) => Next (mkCtx (req c) (Some u))
            end
        end
  end.

Definition requireAdmin (E : Env) (db : Db) (c : Ctx) : Step :=
  match user c with
  | Some u =>
      if bool_decide (role u = lit "admin") then Next c
      else End (Json 403 (PError (lit "Admin access required")))
  | None => End (Json 403 (PError (lit "Admin access required")))
  end.

Definition Middleware := Env -> Db -> Ctx -> Step.

Fixpoint run_chain (chain : list Middleware) (E : Env) (db : Db) (c : Ctx) : Step :=
  match chain with
  | [] => Next c
  | m :: rest =>
      match m E db c with
      | Next c' => run_chain rest E db c'
      | End r => End r
      end
  end.

(** ** The read handlers *)

(** A string of the request that is present and not empty. *)
Definition given (o : option jsstring) : option jsstring :=
  match o with Some (c :: t) => Some (c :: t) | _ => None end.

(** [if (v)] for a query value: of the values the parser builds only
    the empty string is falsy. *)
Definition supplied (o : option QValue) : option QValue :=
  match o with
  | None | Some (QText []) => None
  | Some v => Some v
  end.

(** The condition a filter puts on a string field of a document: none
    when the parameter is not given, equality with a string, and what
    the store makes of any other value. *)
Definition condition (E : Env) (path : jsstring) (o : option QValue)
  : option (jsstring -> bool) :=
  match supplied o with
  | None => Some (fun _ => true)
  | Some (QText s) => Some (fun x => bool_decide (x = s))
  | Some v => operator E path v
  end.

(** The documents a query with these two conditions selects. *)
Definition selects (by_user by_status : jsstring -> bool) (s : Submission) : bool :=
  by_user (userId s) && by_status (status_name (status s)).

(** [Number(s)] for a string of at most nine decimal digits (the empty
    string gives 0). *)
Definition short_decimal (s : jsstring) : option nat :=
  if forallb Json.is_digit s && (length s <=? 9)%nat
  then Some (Z.to_nat (Json.digits_value (map (fun c => c - 48) s)))
  else None.

(** The count [.skip(Number(v))] or [.limit(Number(v))] uses: the
    default when the parameter is not there, the number a short run of
    digits denotes, and for any other value what the store makes of
    it. *)
Definition count (E : Env) (name : jsstring) (dflt : nat) (o : option QValue)
  : option nat :=
  match o with
  | None => Some dflt
  | Some (QText s) =>
      match short_decimal s with
      | Some n => Some n
      | None => paging E name (QText s)
      end
  | Some v => paging E name v
  end.

Fixpoint insert_newest (s : Submission) (l : list Submission) : list Submission :=
  match l with
  | [] => [s]
  | x :: r => if createdAt x <? createdAt s then s :: l else x :: insert_newest s r
  end.

(** [.sort({ createdAt: -1 })] *)
Definition sort_newest (l : list Submission) : list Submission :=
  foldr insert_newest [] l.

(** [.limit(n)]: a limit of 0 is no limit. *)
Definition limit_to (n : nat) (l : list Submission) : list Submission :=
  match n with O => l | _ => take n l end.

(** [Submission.find(query).sort(..).skip(..).limit(..)]: the documents,
    or the message of the error the query rejects with. *)
Definition find_submissions (E : Env) (db : Db) (q : Query)
  : jsstring + list Submission :=
  match condition E (lit "userId") (q_userId q),
        condition E (lit "status") (q_status q),
        count E (lit "skip") 0 (q_skip q),
        count E (lit "limit") 50 (q_limit q) with
  | Some by_user, Some by_status, Some skip, Some limit =>
      inr (limit_to limit
             (drop skip
                (sort_newest
                   (List.filter (selects by_user by_status)
                      (map snd (map_to_list (submissions db)))))))
  | _, _, _, _ => inl (refusal E q)
  end.

(** [userMap[s.userId] || s.userId] *)
Definition userEmail (db : Db) (s : Submission) : jsstring :=
  match users db !! userId s with
  | Some u => match email u with [] => userId s | e => e end
  | None => userId s
  end.

(** The cast of one owner id in [{ _id: { $in: userIds } }]: an id
    that names a user casts. *)
Definition owner_cast_failure (E : Env) (db : Db) (s : Submission)
  : option jsstring :=
  match users db !! userId s with
  | Some _ => None
  | None => cast_failure E (userId s)
  end.

(** The handler of [GET /]: both queries are inside the [try], and what
    they reject with goes to [next]. *)
Definition list_submissions (E : Env) (db : Db) (c : Ctx) : Response :=
  match find_submissions E db (query (req c)) with
  | inl m => NextError m
  | inr found =>
      match head (omap (owner_cast_failure E db) found) with
      | Some m => NextError m
      | None => Json 200 (PSubmissions (map (fun s => (s, userEmail db s)) found))
      end
  end.

Definition get_submission (E : Env) (db : Db) (c : Ctx) : Response :=
  match findById E db (param_id (req c)) with
  | inl m => NextError m
  | inr None => Json 404 (PError (lit "Submission not found"))
  | inr (Some s) => Json 200 (PSubmission s)
  end.

Definition report_headers (s : Submission) : list (jsstring * jsstring) :=
  [ (lit "Content-Type", lit "text/markdown");
    (lit "Content-Disposition",
     lit "attachment; filename=" ++ [34] ++ lit "submission-" ++ _id s
       ++ lit ".md" ++ [34]) ].

Definition get_report (E : Env) (db : Db) (c : Ctx) : Response :=
  match findById E db (param_id (req c)) with
  | inl m => NextError m
  | inr (Some s) =>
      match report s with
      | Some (ch :: t) => Send 200 (report_headers s) (ch :: t)
      | _ => Send 404 [] (lit "Report not found")
      end
  | inr None => Send 404 [] (lit "Report not found")
  end.

(** ** The administrative handlers *)

Definition apply_patch (b : Body) (s : Submission) : Submission :=
  let s1 := match b_status b with Some st => set_status st s | None => s end in
  let s2 := match b_grade b with Some g => set_grade g s1 | None => s1 end in
  match b_error b with
  | Some (ch :: t) => set_error (Some (ch :: t)) s2
  | _ => s2
  end.

(** The handler of [PATCH /:id]: whatever is thrown inside the [try],
    by the query or by the save, is answered 500. *)
Definition patch_submission (E : Env) (db : Db) (c : Ctx) : Response * Db :=
  match findById E db (param_id (req c)) with
  | inl _ => (Json 500 (PError (lit "Failed to update submission")), db)
  | inr None => (Json 404 (PError (lit "Submission not found")), db)
  | inr (Some s) =>
      let s' := apply_patch (body (req c)) s in
      match save E s' db with
      | (None, db') => (Json 200 (PSubmission s'), db')
      | (Some _, db') => (Json 500 (PError (lit "Failed to update submission")), db')
      end
  end.

(** The handler of [DELETE /:id], with [findByIdAndDelete]. *)
Definition delete_submission (E : Env) (db : Db) (c : Ctx) : Response * Db :=
  match findById E db (param_id (req c)) with
  | inl _ => (Json 500 (PError (lit "Failed to delete submission")), db)
  | inr None => (Json 404 (PError (lit "Submission not found")), db)
  | inr (Some _) =>
      (Json 200 (PMessage (lit "Submission deleted")),
       mkDb (delete (param_id (req c)) (submissions db)) (users db) (S (writes db)))
  end.

(** ** The grading task started by the intake handler

    The task owns the in-memory document, which the grading service and
    the two continuations of the route all mutate and save.  A step of
    the task ends with a value or a rejection, a new state, and the
    events it performed. *)

Record TaskState : Type := mkTask {
  doc : Submission;
  db : Db }.

Definition Proc (A : Type) : Type :=
  TaskState -> (jsstring + A) * TaskState * list Event.

Definition done_with {A} (a : A) : Proc A := fun t => (inr a, t, []).

Definition and_then {A B} (m : Proc A) (k : A -> Proc B) : Proc B :=
  fun t =>
    match m t with
    | (inr a, t', ev) =>
        match k a t' with (r, t'', ev') => (r, t'', ev ++ ev') end
    | (inl e, t', ev) => (inl e, t', ev)
    end.

(** [promise.catch(handler)] *)
Definition or_else {A} (m : Proc A) (handler : jsstring -> Proc A) : Proc A :=
  fun t =>
    match m t with
    | (inr a, t', ev) => (inr a, t', ev)
    | (inl e, t', ev) =>
        match handler e t' with (r, t'', ev') => (r, t'', ev ++ ev') end
    end.

(** An assignment to fields of the shared document. *)
Definition assign (f : Submission -> Submission) : Proc unit :=
  fun t => (inr tt, mkTask (f (doc t)) (db t), []).

(** [await submission.save()] inside the task. *)
Definition persist (E : Env) : Proc unit :=
  fun t =>
    match save E (doc t) (db t) with
    | (None, db') => (inr tt, mkTask (doc t) db', [Saved (doc t)])
    | (Some m, db') => (inl m, mkTask (doc t) db', [SaveRefused (doc t) m])
    end.

(** The value [gradeSubmission] resolves with, as the route reads it. *)
Record GradingResult : Type := mkResult {
  r_grade : Grade;
  r_scores : Scores;
  r_report : option jsstring }.

(** [gradingService.gradeSubmission(submission, fileGlobs)], imported by
    the routes: a step of the task that works on the document it is
    given. *)
Definition GradingService : Type :=
  Submission -> option (list jsstring) -> Proc GradingResult.

(** The [.then] continuation of the route. *)
Definition on_fulfilled (E : Env) (result : GradingResult) : Proc unit :=
  and_then (assign (set_status completed)) (fun _ =>
  and_then (assign (set_grade (r_grade result))) (fun _ =>
  and_then (assign (set_scores (Some (r_scores result)))) (fun _ =>
  and_then (assign (set_report (r_report result))) (fun _ =>
  persist E)))).

(** The [.catch] continuation of the route; it also receives what the
    [.then] continuation throws. *)
Definition on_rejected (E : Env) (message : jsstring) : Proc unit :=
  and_then (assign (set_status failed)) (fun _ =>
  and_then (assign (set_error (Some message))) (fun _ =>
  persist E)).

(** [gradeSubmission(..).then(..).catch(..)] *)
Definition grading_task (E : Env) (pipeline : Proc GradingResult) : Proc unit :=
  or_else (and_then pipeline (on_fulfilled E)) (on_rejected E).

(** [new Submission({...})] of the intake handler. *)
Definition new_submission (E : Env) (db0 : Db) (b : Body) (uid : jsstring)
  : Submission :=
  mkSubmission (new_id E db0) (b_githubUrl b) (b_rubric b) (b_projectType b) uid
    uploading pending None None None
    (mkMetadata (b_projectType b) []
       (mkTestResults 0 0 (lit "-") 0)
       (mkAiAnalysis 0 0 0 (lit "mock")))
    (now E db0).

(** The first save of a new document: an id already in the collection is
    a duplicate-key error. *)
Definition save_new (E : Env) (d : Submission) (db0 : Db) : option jsstring * Db :=
  match submissions db0 !! _id d with
  | Some _ =>
      (Some (lit "E11000 duplicate key error"),
       mkDb (submissions db0) (users db0) (S (writes db0)))
  | None => save E d db0
  end.

(** The events of a settled task; a rejection that reaches the end of
    the chain is handled by nobody. *)
Definition settle (out : (jsstring + unit) * TaskState * list Event) : list Event :=
  match out with
  | (inr _, _, ev) => ev
  | (inl m, _, ev) => ev ++ [Unhandled m]
  end.

(** The handler of [POST /grade].  The events up to the response are the
    synchronous part of the handler: the first save is awaited, the
    grading service is called and its promise given the two
    continuations, and the response is sent.  The writes of the grading
    service and the continuations run in later turns of the event loop,
    so their events follow the response. *)
Definition grade_submission (E : Env) (gradeSubmission : GradingService)
    (db0 : Db) (c : Ctx) : list Event * Db :=
  match user c with
  | Some (mkUser (ch :: t) _ _) =>
      let uid := ch :: t in
      let submission := new_submission E db0 (body (req c)) uid in
      match save_new E submission db0 with
      | (Some m, db1) =>
          ([SaveRefused submission m; Responded (NextError m)], db1)
      | (None, db1) =>
          let out :=
            grading_task E (gradeSubmission submission (b_fileGlobs (body (req c))))
              (mkTask submission db1) in
          ([ Saved submission;
             GradeCalled (_id submission);
             Responded (Json 202 (PSubmissionId (_id submission))) ]
             ++ settle out,
           db (snd (fst out)))
      end
  | _ => ([Responded (Json 401 (PError (lit "User not authenticated")))], db0)
  end.

(** ** The router *)

Inductive Route : Type :=
| POST_grade | GET_list | GET_by_id | GET_report | PATCH_by_id | DELETE_by_id.

(** The middleware each route is registered with. *)
Definition guards (r : Route) : list Middleware :=
  match r with
  | POST_grade => [getUserFromToken]
  | GET_list | GET_by_id | GET_report => []
  | PATCH_by_id | DELETE_by_id => [getUserFromToken; requireAdmin]
  end.

Definition respond (out : Response * Db) : list Event * Db :=
  ([Responded (fst out)], snd out).

Definition handler (E : Env) (gradeSubmission : GradingService) (r : Route)
    (db0 : Db) (c : Ctx) : list Event * Db :=
  match r with
  | POST_grade => grade_submission E gradeSubmission db0 c
  | GET_list => respond (list_submissions E db0 c, db0)
  | GET_by_id => respond (get_submission E db0 c, db0)
  | GET_report => respond (get_report E db0 c, db0)
  | PATCH_by_id => respond (patch_submission E db0 c)
  | DELETE_by_id => respond (delete_submission E db0 c)
  end.

(** One request through the router. *)
Definition dispatch (E : Env) (gradeSubmission : GradingService) (r : Route)
    (db0 : Db) (rq : Request) : list Event * Db :=
  match run_chain (guards r) E db0 (mkCtx rq None) with
  | End resp => ([Responded resp], db0)
  | Next c => handler E gradeSubmission r db0 c
  end.

(** ** Reading a trace *)

(** The record the [then] continuation makes of the shared document for
    a result, and the one the [catch] continuation makes of it for an
    error. *)
Definition completed_doc (result : GradingResult) (d : Submission) : Submission :=
  set_report (r_report result)
    (set_scores (Some (r_scores result))
       (set_grade (r_grade result) (set_status completed d))).

Definition failed_doc (message : jsstring) (d : Submission) : Submission :=
  set_error (Some message) (set_status failed d).

(** The collection after the store has taken the write of [d]. *)
Definition after_write (d : Submission) (db0 : Db) : Db :=
  mkDb (<[_id d := d]> (submissions db0)) (users db0) (S (writes db0)).

Definition saved_docs (tr : list Event) : list Submission :=
  omap (fun e => match e with Saved s => Some s | _ => None end) tr.

(** The statuses the store has held for the submission, oldest first. *)
Definition status_history (tr : list Event) : list Status :=
  map status (saved_docs tr).

Definition responses (tr : list Event) : list Response :=
  omap (fun e => match e with Responded r => Some r | _ => None end) tr.

(** A write of a [completed] record was refused by the store. *)
Definition completed_write_refused (tr : list Event) : bool :=
  existsb (fun e => match e with
                    | SaveRefused s _ => bool_decide (status s = completed)
                    | _ => false
                    end) tr.

(** The same request under another [Authorization] header. *)
Definition with_authorization (a : option jsstring) (rq : Request) : Request :=
  mkRequest a (param_id rq) (query rq) (body rq).



End Routes.

(* ================================================================== *)
(** * The grading service                                              *)
(* ================================================================== *)

Module Pipeline.
Import Text Js Model Routes.

(** Modelled from the spec: services/gradingService.ts is not among the
    sources.  What one run of the pipeline meets: the failure of the
    acquisition, installation or test-execution phase, if any, and the
    scores and report the last two phases produce (a failed analysis is
    recovered inside the reviewing phase and is no failure here). *)
Record Run : Type := mkRun {
  acquisition : option jsstring;
  installation : option jsstring;
  test_execution : option jsstring;
  run_scores : Scores;
  run_report : option jsstring }.

(** Modelled from the spec: the pass threshold of the Score Aggregator
    (section 4.5), which is not among the sources. *)
Definition PASS_THRESHOLD : Z := 60.

(** Modelled from the spec: the grade the Score Aggregator assigns,
    [pass] when the total meets the threshold, else [fail]; never
    [pending]. *)
Definition assign_grade (total_score : Z) : Grade :=
  if (PASS_THRESHOLD <=? total_score)%Z then pass else fail.

(** Modelled from the spec: the outcome of one external phase. *)
Definition phase (failure : option jsstring) : Proc unit :=
  fun t => (match failure with Some m => inl m | None => inr tt end, t, []).

(** Modelled from the spec: a transition of the Phase Executor, status
    written to the document and the document saved. *)
Definition advance (E : Env) (st : Status) : Proc unit :=
  and_then (assign (set_status st)) (fun _ => persist E).

(** Modelled from the spec: gradingService.gradeSubmission, the Phase
    Executor of section 4.2.  The submission arrives at [uploading]; the
    executor acquires, then moves through [installing], [testing],
    [reviewing] and [reporting], rejecting at the first failed phase, and
    resolves with the aggregated result.  Writing [completed] or [failed]
    is left to the continuations of the route. *)
Definition gradeSubmission (E : Env) (run : Run) : GradingService :=
  fun _submission _fileGlobs =>
  and_then (phase (acquisition run)) (fun _ =>
  and_then (advance E installing) (fun _ =>
  and_then (phase (installation run)) (fun _ =>
  and_then (advance E testing) (fun _ =>
  and_then (phase (test_execution run)) (fun _ =>
  and_then (advance E reviewing) (fun _ =>
  and_then (advance E reporting) (fun _ =>
  done_with (mkResult (assign_grade (total (run_scores run)))
                      (run_scores run) (run_report run))))))))).

End Pipeline.

(* ================================================================== *)
(** * The admission scheduler                                          *)
(* ================================================================== *)

Module Scheduler.

(** Modelled from the spec: the Admission Scheduler of section 4.1 lives
    in services/gradingService.ts, which is not among the sources.  Jobs
    are named by numbers.  [running] holds the jobs in flight, [waiting]
    the queue with its head first, [started] and [arrived] record the
    order in which jobs were started and accepted. *)
Record Sched : Type := mkSched {
  running : list nat;
  waiting : list nat;
  started : list nat;
  arrived : list nat }.

(** Modelled from the spec: the default concurrency budget (section 4.1;
    the API documentation states the same 10). *)
Definition DEFAULT_LIMIT : nat := 10.

(** Modelled from the spec: the scheduler at start-up. *)
Definition idle : Sched := mkSched [] [] [] [].

(** Modelled from the spec: admission of an accepted request.  With
    fewer than [N] jobs in flight the job starts at once; otherwise it
    joins the end of the queue. *)
Definition submit (N : nat) (j : nat) (s : Sched) : Sched :=
  if (length (running s) <? N)%nat
  then mkSched (running s ++ [j]) (waiting s) (started s ++ [j]) (arrived s ++ [j])
  else mkSched (running s) (waiting s ++ [j]) (started s) (arrived s ++ [j]).

(** Modelled from the spec: removal of one occurrence of a job. *)
Fixpoint remove_job (j : nat) (l : list nat) : list nat :=
  match l with
  | [] => []
  | x :: r => if (x =? j)%nat then r else x :: remove_job j r
  end.

(** Modelled from the spec: a job in flight settles; its slot goes to
    the head of the queue, if any. *)
Definition release (j : nat) (s : Sched) : Sched :=
  if bool_decide (j ∈ running s) then
    match waiting s with
    | [] => mkSched (remove_job j (running s)) [] (started s) (arrived s)
    | h :: q =>
        mkSched (remove_job j (running s) ++ [h]) q (started s ++ [h]) (arrived s)
    end
  else s.

(** Modelled from the spec: the states the scheduler can be in under a
    budget [N], after any interleaving of admissions and settlements. *)
Inductive reachable (N : nat) : Sched -> Prop :=
| reach_idle : reachable N idle
| reach_submit j s : reachable N s -> reachable N (submit N j s)
| reach_release j s : reachable N s -> reachable N (release j s).

(** The three facts that hold together in every state the scheduler can
    reach. *)
Definition sched_inv (N : nat) (s : Sched) : Prop :=
  (length (running s) <= N)%nat
  /\ started s ++ waiting s = arrived s
  /\ (waiting s <> [] -> length (running s) = N).

End Scheduler.

(* ================================================================== *)
(** * Sample surroundings, to run the model on concrete inputs         *)
(* ================================================================== *)

Module Samples.
Import Text Js.

(** A repository with one README whose raw content is [raw], a service
    that answers every request with [reply], and the JSON reader as
    decoder.  The [glob] call rejects a pattern of more than 65536
    characters, as the pattern matcher does. *)
Definition readme_path : jsstring := lit "/repo/README.md".

Definition adapter_env (raw : jsstring) (reply : Adapter.Reply) : Adapter.Env :=
  Adapter.mkEnv
    Json.parse
    (fun _ => inr (lit "{}"))
    (fun pattern _ =>
       if 65536 <? N.of_nat (length pattern) then inl (lit "pattern is too long")
       else if bool_decide (pattern = lit "README.md") then inr [readme_path]
       else inr [])
    (fun f => if bool_decide (f = readme_path) then Some raw else None)
    (fun cwd f => drop (S (length cwd)) f)
    (lit "## Code" ++ [LF]) (lit "## Output Format")
    (lit "You are an expert code reviewer for ") (lit " projects." ++ [LF] ++ lit "## Code" ++ [LF])
    (lit "## Output Format")
    (fun _ _ => reply).

(** A text with a line feed and a tab in it. *)
Definition two_lines : jsstring := [97; 9; 10; 98].

(** A text of 10001 letters. *)
Definition long_text : jsstring := repeat 120 10001.

(** A pattern of 65537 asterisks. *)
Definition long_pattern : jsstring := repeat 42 65537.

(** A reply that wraps a JSON object in prose free of braces. *)
Definition wrapped_reply : jsstring :=
  lit "Here is the review: " ++ qlit "{'score': 85, 'report': 'fine'}" ++ lit " Thanks.".

(** A reply whose prose has a closing brace of its own. *)
Definition brace_reply : jsstring :=
  lit "see " ++ qlit "{'score': 5}" ++ lit " (use } carefully)".

(** A reply whose score is a string. *)
Definition string_score_reply : jsstring := qlit "{'score': 'high', 'report': 'r'}".

(** Two users, two submissions: [graded] is complete and has a report,
    [fresh] has just been taken in.  Both belong to the student.  The
    ids are strings of 24 hexadecimal digits, as document ids are. *)
Definition admin_id : jsstring := lit "64b000000000000000000001".
Definition student_id : jsstring := lit "64b000000000000000000002".
Definition graded_id : jsstring := lit "64c0000000000000000000a1".
Definition fresh_id : jsstring := lit "64c0000000000000000000a2".

(** The id the generator gives the first new document, and an id that
    names no document. *)
Definition first_id : jsstring := lit "64d000000000000000000000".

Definition admin : Model.User :=
  Model.mkUser admin_id (lit "admin@example.com") (lit "admin").

Definition student : Model.User :=
  Model.mkUser student_id (lit "student@example.com") (lit "student").

Definition no_metadata : Model.Metadata :=
  Model.mkMetadata None []
    (Model.mkTestResults 0 0 (lit "-") 0)
    (Model.mkAiAnalysis 0 0 0 (lit "mock")).

Definition graded : Model.Submission :=
  Model.mkSubmission graded_id (lit "https://github.com/a/b") JUndefined
    (Some (lit "express")) student_id Model.completed Model.pass
    (Some (Model.mkScores 90 100 80 [])) (Some (lit "# Report")) None
    no_metadata 5.

Definition fresh : Model.Submission :=
  Model.mkSubmission fresh_id (lit "https://github.com/a/c") JUndefined
    (Some (lit "express")) student_id Model.uploading Model.pending
    None None None no_metadata 7.

Definition sample_db : Model.Db :=
  Model.mkDb (<[graded_id := graded]> (<[fresh_id := fresh]> ∅))
             (<[admin_id := admin]> (<[student_id := student]> ∅))
             0.

(** A string casts to a document id when it is 24 hexadecimal digits. *)
Definition is_object_id (id : jsstring) : bool :=
  (length id =? 24)%nat
  && forallb (fun c => match Json.hex_value c with Some _ => true | None => false end) id.

Definition cast_message (id : jsstring) : jsstring :=
  lit "Cast to ObjectId failed for value " ++ [34] ++ id ++ [34]
    ++ lit " (type string) at path " ++ [34] ++ lit "_id" ++ [34].

(** The one query operator of the samples: [{ $ne: x }] selects the
    values other than [x]. *)
Definition sample_operator (path : jsstring) (v : Routes.QValue)
  : option (jsstring -> bool) :=
  match v with
  | Routes.QObject [(k, Routes.QText x)] =>
      if bool_decide (k = lit "$ne")
      then Some (fun y => negb (bool_decide (y = x)))
      else None
  | _ => None
  end.

(** Tokens [admin-token] and [student-token] verify; the store accepts
    every write; a string that is not 24 hexadecimal digits does not
    cast; a filter other than a string or [$ne] and a count other than a
    short run of digits are refused. *)
Definition routes_env : Routes.Env :=
  Routes.mkEnv
    (fun token =>
       if bool_decide (token = lit "admin-token") then Some admin_id
       else if bool_decide (token = lit "student-token") then Some student_id
       else None)
    (fun d => lit "64d00000000000000000000" ++ [48 + N.of_nat (Model.writes d) mod 10])
    (fun d => 100 + N.of_nat (Model.writes d))
    (fun _ _ => None)
    (fun id => if is_object_id id then None else Some (cast_message id))
    sample_operator
    (fun _ _ => None)
    (fun _ => lit "query refused").

(** The same surroundings with a store that refuses its [k]-th write. *)
Definition refusing_env (k : nat) : Routes.Env :=
  Routes.mkEnv
    (Routes.jwt_verify routes_env) (Routes.new_id routes_env) (Routes.now routes_env)
    (fun n _ => if (n =? k)%nat then Some (lit "write failed") else None)
    (Routes.cast_failure routes_env) (Routes.operator routes_env)
    (Routes.paging routes_env) (Routes.refusal routes_env).

Definition empty_body : Routes.Body :=
  Routes.mkBody (lit "https://github.com/a/d") JUndefined (Some (lit "express"))
    None None None None.

Definition no_query : Routes.Query := Routes.mkQuery None None None None.

(** A request for the document [id], with the given header and body. *)
Definition request (auth : option jsstring) (id : jsstring) (b : Routes.Body)
  : Routes.Request :=
  Routes.mkRequest auth id no_query b.

Definition as_admin : option jsstring := Some (lit "Bearer admin-token").
Definition as_student : option jsstring := Some (lit "Bearer student-token").

(** A body that only sets the status. *)
Definition status_body (st : Model.Status) : Routes.Body :=
  Routes.mkBody [] JUndefined None None (Some st) None None.

(** A run in which every phase succeeds, and one whose installation
    fails. *)
Definition good_run : Pipeline.Run :=
  Pipeline.mkRun None None None (Model.mkScores 90 100 80 []) (Some (lit "# Report")).

Definition bad_install : Pipeline.Run :=
  Pipeline.mkRun None (Some (lit "npm install failed")) None
    (Model.mkScores 0 0 0 []) None.

End Samples.

(* ================================================================== *)
(** * The markdown sanitizer page (its inline script)                  *)
(* ================================================================== *)

Module Markdown.
Import Text.

Definition BACKSLASH : N := 92.

(** [s.replace(/\\x/g, r)] for one character [x] after a backslash and a
    one-character replacement [r]: the matches are taken from left to
    right and do not overlap. *)
Fixpoint replace_escape (x r : N) (s : jsstring) : jsstring :=
  match s with
  | a :: ((b :: t) as rest) =>
      if (a =? BACKSLASH) && (b =? x)
      then r :: replace_escape x r t
      else a :: replace_escape x r rest
  | _ => s
  end.

(** [sanitizeMarkdown]: a backslash followed by [n] becomes a line feed,
    then a backslash followed by a double quote becomes the quote. *)
Definition sanitizeMarkdown (input : jsstring) : jsstring :=
  replace_escape 34 34 (replace_escape 110 LF input).

(** The text has a backslash followed by [x] somewhere. *)
Fixpoint has_escape (x : N) (s : jsstring) : bool :=
  match s with
  | a :: ((b :: _) as rest) => ((a =? BACKSLASH) && (b =? x)) || has_escape x rest
  | _ => false
  end.

End Markdown.

(* ================================================================== *)
(** * The error middleware (middleware/errorHandler.ts)                *)
(* ================================================================== *)

Module Errors.
Import Text.

(** An error value, by what the handler reads of it.  [app] is set for
    an instance of [AppError] and holds its status and its code; [code]
    is the numeric code of a driver error; [detail] is
    [details[0].message] of a Joi error. *)
Record JsError : Type := mkError {
  app : option (nat * option jsstring);
  name : jsstring;
  message : jsstring;
  code : option Z;
  isJoi : bool;
  detail : option jsstring;
  stack : jsstring }.

(** [new AppError(message, status = 500, code?)]; the stack is the one
    captured where the error is made. *)
Definition AppError (msg : jsstring) (status : option nat) (c : option jsstring)
    (st : jsstring) : JsError :=
  mkError (Some (default 500%nat status, c)) (lit "Error") msg None false None st.

(** [new Error(message)] *)
Definition PlainError (msg : jsstring) (st : jsstring) : JsError :=
  mkError None (lit "Error") msg None false None st.

Definition validationError (msg : jsstring) (st : jsstring) : JsError :=
  AppError msg (Some 400%nat) (Some (lit "VALIDATION_ERROR")) st.

Definition authorizationError (msg : option jsstring) (st : jsstring) : JsError :=
  AppError (default (lit "Unauthorized") msg) (Some 401%nat) (Some (lit "UNAUTHORIZED")) st.

Definition forbiddenError (msg : option jsstring) (st : jsstring) : JsError :=
  AppError (default (lit "Forbidden") msg) (Some 403%nat) (Some (lit "FORBIDDEN")) st.

Definition notFoundError (resource : option jsstring) (st : jsstring) : JsError :=
  AppError (default (lit "Resource") resource ++ lit " not found")
    (Some 404%nat) (Some (lit "NOT_FOUND")) st.

Definition conflictError (msg : jsstring) (st : jsstring) : JsError :=
  AppError msg (Some 409%nat) (Some (lit "CONFLICT")) st.

Definition rateLimitError (msg : option jsstring) (st : jsstring) : JsError :=
  AppError (default (lit "Too many requests") msg) (Some 429%nat)
    (Some (lit "RATE_LIMIT_EXCEEDED")) st.

Definition serverError (msg : option jsstring) (st : jsstring) : JsError :=
  AppError (default (lit "Internal server error") msg) (Some 500%nat)
    (Some (lit "INTERNAL_ERROR")) st.

(** [notFound]: the error handed on for a route that does not exist. *)
Definition notFound (originalUrl : jsstring) (st : jsstring) : JsError :=
  AppError (lit "Route " ++ originalUrl ++ lit " not found") (Some 404%nat)
    (Some (lit "ROUTE_NOT_FOUND")) st.

(** The JSON body of an error response. *)
Record ErrorBody : Type := mkErrorBody {
  eb_error : jsstring;
  eb_status : nat;
  eb_timestamp : jsstring;
  eb_stack : option jsstring;
  eb_path : option jsstring;
  eb_method : option jsstring;
  eb_code : option jsstring }.

Definition named (e : JsError) (n : string) : bool :=
  bool_decide (name e = lit n).

(** The chain of tests of [errorHandler]: status, message and code. *)
Definition classify (development : bool) (error : JsError)
  : nat * jsstring * option jsstring :=
  match app error with
  | Some (st, c) => (st, message error, c)
  | None =>
      if named error "ValidationError" then
        (400%nat, lit "Validation Error", Some (lit "VALIDATION_ERROR"))
      else if named error "CastError" then
        (400%nat, lit "Invalid ID format", Some (lit "INVALID_ID"))
      else if named error "MongoServerError" && bool_decide (code error = Some 11000%Z) then
        (409%nat, lit "Duplicate entry", Some (lit "DUPLICATE_ENTRY"))
      else if named error "JsonWebTokenError" then
        (401%nat, lit "Invalid token", Some (lit "INVALID_TOKEN"))
      else if named error "TokenExpiredError" then
        (401%nat, lit "Token expired", Some (lit "TOKEN_EXPIRED"))
      else if named error "ValidationError" && isJoi error then
        (400%nat, default [] (detail error), Some (lit "VALIDATION_ERROR"))
      else if development then
        (500%nat, message error, None)
      else
        (500%nat, lit "Internal Server Error", None)
  end.

(** [errorHandler]: the status and the body of the response.
    [development] is [NODE_ENV === 'development'], [timestamp] the
    clock's reading; a code is put in the body when it is not empty. *)
Definition errorHandler (development : bool) (timestamp : jsstring)
    (error : JsError) (path method : jsstring) : nat * ErrorBody :=
  match classify development error with
  | (status, msg, c) =>
      (status,
       mkErrorBody msg status timestamp
         (if development then Some (stack error) else None)
         (if development then Some path else None)
         (if development then Some method else None)
         (match c with Some (ch :: t) => Some (ch :: t) | _ => None end))
  end.

(** The error with other Joi marks, and with another message and
    stack. *)
Definition with_joi (j : bool) (d : option jsstring) (e : JsError) : JsError :=
  mkError (app e) (name e) (message e) (code e) j d (stack e).

Definition with_text (msg st : jsstring) (e : JsError) : JsError :=
  mkError (app e) (name e) msg (code e) (isJoi e) (detail e) st.

End Errors.

(* ================================================================== *)
(** * The authentication middleware (middleware/authMiddleware.ts)     *)
(* ================================================================== *)

Module AuthMw.
Import Text Model Errors.

(** The decoded token and the user attached to a request. *)
Record JWTPayload : Type := mkPayload {
  p_userId : jsstring; p_email : jsstring; p_role : jsstring }.

Record ReqUser : Type := mkReqUser {
  uid : jsstring; ru_email : jsstring; ru_role : jsstring }.

(** The surroundings: the configured secret, [jwt.verify] (which throws
    an error or returns the payload), and the stack captured by an error
    made in this module. *)
Record Env : Type := mkEnv {
  JWT_SECRET : option jsstring;
  verify : jsstring -> jsstring -> JsError + JWTPayload;
  here : jsstring }.

Definition attach (u : User) : ReqUser := mkReqUser (user_id u) (email u) (role u).

(** The [try] block of [authMiddleware]: the user to attach, or what is
    thrown. *)
Definition authenticate (E : Env) (accounts : gmap jsstring User)
    (authHeader : option jsstring) : JsError + ReqUser :=
  match authHeader with
  | Some auth =>
      if startsWith (lit "Bearer ") auth then
        let token := slice_from 7 auth in
        match JWT_SECRET E with
        | Some (c :: t) =>
            match verify E token (c :: t) with
            | inl e => inl e
            | inr decoded =>
                match accounts !! p_userId decoded with
                | Some u => inr (attach u)
                | None => inl (authorizationError (Some (lit "User not found")) (here E))
                end
            end
        | _ => inl (PlainError (lit "JWT_SECRET not configured") (here E))
        end
      else inl (authorizationError (Some (lit "No token provided")) (here E))
  | None => inl (authorizationError (Some (lit "No token provided")) (here E))
  end.

(** [authMiddleware]: [inr u] is [req.user = u; next()], [inl e] is
    [next(e)]. *)
Definition authMiddleware (E : Env) (accounts : gmap jsstring User)
    (authHeader : option jsstring) : JsError + ReqUser :=
  match authenticate E accounts authHeader with
  | inr u => inr u
  | inl error =>
      if named error "JsonWebTokenError"
      then inl (authorizationError (Some (lit "Invalid token")) (here E))
      else if named error "TokenExpiredError"
      then inl (authorizationError (Some (lit "Token expired")) (here E))
      else inl error
  end.

(** [optionalAuthMiddleware]: always [next()], with the user attached
    when there is one. *)
Definition optionalAuthMiddleware (E : Env) (accounts : gmap jsstring User)
    (authHeader : option jsstring) : option ReqUser :=
  match authHeader with
  | Some auth =>
      if startsWith (lit "Bearer ") auth then
        let token := slice_from 7 auth in
        match JWT_SECRET E with
        | Some (c :: t) =>
            match verify E token (c :: t) with
            | inl _ => None
            | inr decoded =>
                match accounts !! p_userId decoded with
                | Some u => Some (attach u)
                | None => None
                end
            end
        | _ => None
        end
      else None
  | None => None
  end.

(** [requireRole(allowedRoles)]: [None] is [next()], [Some e] is
    [next(e)]. *)
Definition requireRole (E : Env) (allowedRoles : list jsstring)
    (u : option ReqUser) : option JsError :=
  match u with
  | None => Some (authorizationError (Some (lit "Authentication required")) (here E))
  | Some ru =>
      if bool_decide (ru_role ru ∈ allowedRoles) then None
      else Some (authorizationError (Some (lit "Insufficient permissions")) (here E))
  end.

(** The verifier of the routes that corresponds to this one under a
    given secret: the payload's user id, or nothing when it throws. *)
Definition verifier_of (E : Env) (secret : jsstring) (token : jsstring)
  : option jsstring :=
  match verify E token secret with
  | inr decoded => Some (p_userId decoded)
  | inl _ => None
  end.

End AuthMw.

(* ================================================================== *)
(** * The user and sign-in routes (routes/userRoutes.ts, authRoutes.ts) *)
(* ================================================================== *)

Module Accounts.
Import Text Js.

(** An account document; [acc_password] is absent when the query that
    loaded the document did not select it. *)
Record Account : Type := mkAccount {
  acc_id : jsstring;
  acc_email : jsstring;
  acc_password : option jsstring;
  acc_role : jsstring;
  acc_name : option jsstring }.

(** What the routes show of an account: everything but the password. *)
Record View : Type := mkView {
  v_id : jsstring; v_email : jsstring; v_role : jsstring; v_name : option jsstring }.

Definition view (a : Account) : View :=
  mkView (acc_id a) (acc_email a) (acc_role a) (acc_name a).

(** [req.body], the fields these routes read. *)
Record Body : Type := mkBody {
  b_email : option jsstring;
  b_password : option jsstring;
  b_role : option jsstring;
  b_name : option jsstring;
  b_oldPassword : option jsstring;
  b_newPassword : option jsstring }.

Inductive Payload : Type :=
| PError (m : jsstring)
| PMessage (m : jsstring)
| PUser (v : View)
| PUsers (l : list View)
| PSession (token : jsstring) (v : View).

Inductive Reply : Type :=
| Json (status : nat) (p : Payload)
| Forward (m : jsstring).                  (* [next(err)] *)

(** The surroundings: [jwt.verify] and [jwt.sign] with the configured
    secret, [bcrypt.compare], whether a string can be cast to a document
    id, what [MarkerUser.create] makes of the fields it is given, and
    what a save stores (the model with its validation and hooks is not
    among the sources); [None] and [inl] stand for a throw.  The sign-in
    route hands the email and the password of the body on unchecked:
    [email_query v] is what the store makes of an email that is not a
    string, a condition on the stored email or a rejection of the query,
    and [compare_refusal v h] is the message of the error
    [bcrypt.compare] throws for data that is not a string or for a
    missing hash. *)
Record Env : Type := mkEnv {
  jwt_verify : jsstring -> option jsstring;
  sign : Account -> jsstring;
  compare : jsstring -> jsstring -> bool;
  castable : jsstring -> bool;
  create : Body -> gmap jsstring Account -> jsstring + Account;
  stored : Account -> option Account;
  email_query : JsValue -> jsstring + (jsstring -> bool);
  compare_refusal : JsValue -> option jsstring -> jsstring }.

(** A body field that is present and not empty. *)
Definition given (o : option jsstring) : option jsstring :=
  match o with Some (c :: t) => Some (c :: t) | _ => None end.

(** [MarkerUser.findById(id)]: [inl] when the id cannot be cast. *)
Definition findById (E : Env) (db : gmap jsstring Account) (id : jsstring)
  : unit + option Account :=
  if castable E id then inr (db !! id) else inl tt.

(** [MarkerUser.findOne({ email })] *)
Definition findOne (db : gmap jsstring Account) (e : jsstring) : option Account :=
  List.find (fun a => bool_decide (acc_email a = e)) (map snd (map_to_list db)).

(** [await user.save()]: the new collection, or nothing when it throws. *)
Definition save (E : Env) (a : Account) (db : gmap jsstring Account)
  : option (Account * gmap jsstring Account) :=
  match stored E a with
  | Some a' => Some (a', <[acc_id a := a']> db)
  | None => None
  end.

(** ** Guards of the user routes *)

Definition getUserFromToken (E : Env) (db : gmap jsstring Account)
    (auth : option jsstring) : Reply + Account :=
  match auth with
  | None => inl (Json 401 (PError (lit "No token")))
  | Some a =>
      if negb (startsWith (lit "Bearer ") a)
      then inl (Json 401 (PError (lit "No token")))
      else
        match jwt_verify E (slice_from 7 a) with
        | None => inl (Json 401 (PError (lit "Invalid token")))
        | Some uid =>
            match findById E db uid with
            | inl _ => inl (Json 401 (PError (lit "Invalid token")))
            | inr None => inl (Json 401 (PError (lit "User not found")))
            | inr (Some u) => inr u
            end
        end
  end.

Definition requireAdmin (u : Account) : option Reply :=
  if bool_decide (acc_role u = lit "admin") then None
  else Some (Json 403 (PError (lit "Admin access required"))).

(** ** Handlers of the user routes *)

Definition list_users (db : gmap jsstring Account) : Reply :=
  Json 200 (PUsers (map (fun kv => view (snd kv)) (map_to_list db))).

Definition create_user (E : Env) (db : gmap jsstring Account) (b : Body)
  : Reply * gmap jsstring Account :=
  match given (b_email b), given (b_password b), given (b_role b), given (b_name b) with
  | Some e, Some _, Some _, Some _ =>
      match findOne db e with
      | Some _ => (Json 409 (PError (lit "Email already in use")), db)
      | None =>
          match create E b db with
          | inr a => (Json 201 (PUser (view a)), <[acc_id a := a]> db)
          | inl _ => (Json 500 (PError (lit "Failed to create user")), db)
          end
      end
  | _, _, _, _ => (Json 400 (PError (lit "Missing required fields")), db)
  end.

Definition get_user (E : Env) (db : gmap jsstring Account) (id : jsstring) : Reply :=
  match findById E db id with
  | inl _ => Json 500 (PError (lit "Failed to fetch user"))
  | inr None => Json 404 (PError (lit "User not found"))
  | inr (Some u) => Json 200 (PUser (view u))
  end.

Definition set_role (r : jsstring) (a : Account) : Account :=
  mkAccount (acc_id a) (acc_email a) (acc_password a) r (acc_name a).

Definition set_name (n : jsstring) (a : Account) : Account :=
  mkAccount (acc_id a) (acc_email a) (acc_password a) (acc_role a) (Some n).

Definition set_password (pw : jsstring) (a : Account) : Account :=
  mkAccount (acc_id a) (acc_email a) (Some pw) (acc_role a) (acc_name a).

Definition patch_user (E : Env) (db : gmap jsstring Account) (id : jsstring) (b : Body)
  : Reply * gmap jsstring Account :=
  match findById E db id with
  | inl _ => (Json 500 (PError (lit "Failed to update user")), db)
  | inr None => (Json 404 (PError (lit "User not found")), db)
  | inr (Some u) =>
      let u1 := match given (b_role b) with Some r => set_role r u | None => u end in
      let u2 := match given (b_name b) with Some n => set_name n u1 | None => u1 end in
      match save E u2 db with
      | Some (a, db') => (Json 200 (PUser (view a)), db')
      | None => (Json 500 (PError (lit "Failed to update user")), db)
      end
  end.

Definition delete_user (E : Env) (db : gmap jsstring Account) (id : jsstring)
  : Reply * gmap jsstring Account :=
  match findById E db id with
  | inl _ => (Json 500 (PError (lit "Failed to delete user")), db)
  | inr None => (Json 404 (PError (lit "User not found")), db)
  | inr (Some _) => (Json 200 (PMessage (lit "User deleted")), delete id db)
  end.

Definition patch_me (E : Env) (db : gmap jsstring Account) (u : Account) (b : Body)
  : Reply * gmap jsstring Account :=
  let u1 := match given (b_name b) with Some n => set_name n u | None => u end in
  match save E u1 db with
  | Some (a, db') => (Json 200 (PUser (view a)), db')
  | None => (Json 500 (PError (lit "Failed to update profile")), db)
  end.

Definition change_password (E : Env) (db : gmap jsstring Account) (u : Account) (b : Body)
  : Reply * gmap jsstring Account :=
  match given (b_oldPassword b), given (b_newPassword b) with
  | Some old, Some new =>
      match acc_password u with
      | None => (Json 500 (PError (lit "Failed to change password")), db)
      | Some hash =>
          if compare E old hash then
            match save E (set_password new u) db with
            | Some (_, db') => (Json 200 (PMessage (lit "Password changed successfully")), db')
            | None => (Json 500 (PError (lit "Failed to change password")), db)
            end
          else (Json 401 (PError (lit "Old password is incorrect")), db)
      end
  | _, _ => (Json 400 (PError (lit "Old and new password required")), db)
  end.

(** ** The router of the user routes

    A route is a method and a path pattern; the routes are tried in the
    order in which they are registered and the first whose method and
    pattern match the request handles it (no handler of these routes
    passes a request on). *)

Inductive Method : Type := GET | POST | PATCH | DELETE.

#[global] Instance Method_eq_dec : EqDecision Method.
Proof. solve_decision. Defined.

Inductive Seg : Type := Lit (s : string) | Param.

Inductive UserRoute : Type :=
| R_list | R_create | R_get | R_patch | R_delete | R_patch_me | R_change_password.

#[global] Instance UserRoute_eq_dec : EqDecision UserRoute.
Proof. solve_decision. Defined.

(** The registrations of userRoutes.ts, in their order. *)
Definition table : list (Method * list Seg * UserRoute) :=
  [ (GET, [], R_list);
    (POST, [], R_create);
    (GET, [Param], R_get);
    (PATCH, [Param], R_patch);
    (DELETE, [Param], R_delete);
    (PATCH, [Lit "me"], R_patch_me);
    (POST, [Lit "me"; Lit "change-password"], R_change_password) ].

(** Lower case of an ASCII letter: literal segments are compared without
    regard to case. *)
Definition lower (c : N) : N := if (65 <=? c) && (c <=? 90) then c + 32 else c.

(** A pattern against the segments of a path: the captured parameters,
    or no match.  A parameter takes one segment that is not empty. *)
Fixpoint seg_match (pat : list Seg) (path : list jsstring) : option (list jsstring) :=
  match pat, path with
  | [], [] => Some []
  | Lit s :: pat', x :: path' =>
      if bool_decide (map lower x = map lower (lit s))
      then seg_match pat' path' else None
  | Param :: pat', x :: path' =>
      match x with
      | [] => None
      | _ => option_map (cons x) (seg_match pat' path')
      end
  | _, _ => None
  end.

Fixpoint first_route (routes : list (Method * list Seg * UserRoute))
    (m : Method) (path : list jsstring) : option (UserRoute * list jsstring) :=
  match routes with
  | [] => None
  | (m', pat, r) :: rest =>
      if bool_decide (m' = m) then
        match seg_match pat path with
        | Some params => Some (r, params)
        | None => first_route rest m path
        end
      else first_route rest m path
  end.

Definition route_of (m : Method) (path : list jsstring)
  : option (UserRoute * list jsstring) :=
  first_route table m path.

Definition needs_admin (r : UserRoute) : bool :=
  match r with
  | R_list | R_create | R_get | R_patch | R_delete => true
  | R_patch_me | R_change_password => false
  end.

(** One request through the user router.  A request no route matches
    falls to the application's last handler, which answers 404. *)
Definition serve (E : Env) (db : gmap jsstring Account) (m : Method)
    (path : list jsstring) (auth : option jsstring) (b : Body)
  : Reply * gmap jsstring Account :=
  match route_of m path with
  | None => (Json 404 (PError (lit "Route not found")), db)
  | Some (r, params) =>
      match getUserFromToken E db auth with
      | inl reply => (reply, db)
      | inr u =>
          match (if needs_admin r then requireAdmin u else None) with
          | Some reply => (reply, db)
          | None =>
              let id := default [] (head params) in
              match r with
              | R_list => (list_users db, db)
              | R_create => create_user E db b
              | R_get => (get_user E db id, db)
              | R_patch => patch_user E db id b
              | R_delete => delete_user E db id
              | R_patch_me => patch_me E db u b
              | R_change_password => change_password E db u b
              end
          end
      end
  end.

(** ** The sign-in routes *)

Definition signup (E : Env) (db : gmap jsstring Account) (b : Body)
  : Reply * gmap jsstring Account :=
  match given (b_email b), given (b_password b) with
  | Some e, Some _ =>
      match findOne db e with
      | Some _ => (Json 409 (PError (lit "Email already in use")), db)
      | None =>
          match create E b db with
          | inr a => (Json 200 (PSession (sign E a) (view a)), <[acc_id a := a]> db)
          | inl m => (Forward m, db)
          end
      end
  | _, _ => (Json 400 (PError (lit "Email and password required")), db)
  end.

(** [MarkerUser.findOne({ email }).select('+password')] for the [email]
    of the body, whatever JSON value it is ([undefined] when the body has
    none): a string selects the first account with that email; any other
    value goes to the store as it is. *)
Definition findOne_by (E : Env) (db : gmap jsstring Account) (email : JsValue)
  : jsstring + option Account :=
  match email with
  | JString e => inr (findOne db e)
  | v =>
      match email_query E v with
      | inl m => inl m
      | inr cond =>
          inr (List.find (fun a => cond (acc_email a)) (map snd (map_to_list db)))
      end
  end.

(** [POST /login], for the two fields of the body.  What the query or
    the comparison throws goes to [next]. *)
Definition login (E : Env) (db : gmap jsstring Account) (email password : JsValue)
  : Reply :=
  match findOne_by E db email with
  | inl m => Forward m
  | inr None => Json 401 (PError (lit "Invalid credentials"))
  | inr (Some u) =>
      match password, acc_password u with
      | JString pw, Some hash =>
          if compare E pw hash
          then Json 200 (PSession (sign E u) (view u))
          else Json 401 (PError (lit "Invalid credentials"))
      | _, _ => Forward (compare_refusal E password (acc_password u))
      end
  end.

End Accounts.

(* ================================================================== *)
(** * More sample surroundings                                         *)
(* ================================================================== *)

Module MoreSamples.
Import Text.

(** A verifier that knows [admin-token] and [student-token], finds
    [old-token] expired and every other token malformed. *)
Definition sample_verify (token secret : jsstring) : Errors.JsError + AuthMw.JWTPayload :=
  if bool_decide (token = lit "admin-token") then
    inr (AuthMw.mkPayload Samples.admin_id (lit "admin@example.com") (lit "admin"))
  else if bool_decide (token = lit "student-token") then
    inr (AuthMw.mkPayload Samples.student_id (lit "student@example.com") (lit "student"))
  else if bool_decide (token = lit "old-token") then
    inl (Errors.mkError None (lit "TokenExpiredError") (lit "jwt expired") None false None [])
  else
    inl (Errors.mkError None (lit "JsonWebTokenError") (lit "jwt malformed") None false None []).

Definition auth_env : AuthMw.Env :=
  AuthMw.mkEnv (Some (lit "s3cret")) sample_verify (lit "at authMiddleware").

(** A Joi validation error and a driver error with a telling message. *)
Definition joi_error : Errors.JsError :=
  Errors.mkError None (lit "ValidationError") (lit "email is required") None true
    (Some (lit "email is required")) (lit "at validate").

Definition driver_error : Errors.JsError :=
  Errors.mkError None (lit "MongoNetworkError")
    (lit "connect ECONNREFUSED 10.0.0.5:27017") None false None (lit "at connect").

(** Two accounts under 24-character ids, and surroundings in which an
    id can be cast exactly when it has 24 characters, passwords compare
    by equality, every save stores what it is given, and the one query
    operator is [{ $ne: x }]. *)
Definition admin_id : jsstring := Samples.admin_id.
Definition student_id : jsstring := Samples.student_id.

Definition admin_account : Accounts.Account :=
  Accounts.mkAccount admin_id (lit "admin@example.com") (Some (lit "root-pw"))
    (lit "admin") (Some (lit "Ada")).

Definition student_account : Accounts.Account :=
  Accounts.mkAccount student_id (lit "student@example.com") (Some (lit "stud-pw"))
    (lit "student") (Some (lit "Sam")).

Definition accounts_db : gmap jsstring Accounts.Account :=
  <[admin_id := admin_account]> (<[student_id := student_account]> ∅).

Definition accounts_env : Accounts.Env :=
  Accounts.mkEnv
    (fun token =>
       if bool_decide (token = lit "admin-token") then Some admin_id
       else if bool_decide (token = lit "student-token") then Some student_id
       else None)
    (fun a => lit "token-of-" ++ Accounts.acc_id a)
    (fun pw hash => bool_decide (pw = hash))
    (fun id => bool_decide (length id = 24%nat))
    (fun b _ =>
       inr (Accounts.mkAccount (lit "64b000000000000000000003")
              (default [] (Accounts.b_email b)) (Accounts.b_password b)
              (default (lit "student") (Accounts.b_role b)) (Accounts.b_name b)))
    (fun a => Some a)
    (fun v =>
       match v with
       | Js.JObject [(k, Js.JString x)] =>
           if bool_decide (k = lit "$ne")
           then inr (fun y => negb (bool_decide (y = x)))
           else inl (lit "unknown operator")
       | _ => inl (lit "Cast to string failed")
       end)
    (fun _ _ => lit "data and hash arguments required").

(** A body that only sets the name. *)
Definition name_body (n : string) : Accounts.Body :=
  Accounts.mkBody None None None (Some (lit n)) None None.

End MoreSamples.

(* ================================================================== *)
(** * Proof automation for the grading task                            *)
(* ================================================================== *)

(** Unfolds one grading task down to the answers of the store and the
    outcomes of the phases. *)
Ltac unfold_task :=
  unfold Routes.grading_task, Pipeline.gradeSubmission, Pipeline.advance, Pipeline.phase,
    Routes.on_fulfilled, Routes.on_rejected, Routes.or_else, Routes.and_then,
    Routes.persist, Routes.assign, Routes.done_with, Routes.save.

(** Case analysis on every answer and outcome a run depends on. *)
Ltac split_run run :=
  repeat (cbn;
          match goal with
          | |- context [Routes.store ?E0 ?n ?d] => destruct (Routes.store E0 n d) eqn:?
          | |- context [Pipeline.acquisition run] =>
              destruct (Pipeline.acquisition run) eqn:?
          | |- context [Pipeline.installation run] =>
              destruct (Pipeline.installation run) eqn:?
          | |- context [Pipeline.test_execution run] =>
              destruct (Pipeline.test_execution run) eqn:?
          end).

(* ================================================================== *)
(** * Properties of the text functions                                 *)
(* ================================================================== *)

Section TextFacts.
Import Text.

Lemma sanitizeCode_class (code : jsstring) (c : N) :
  c ∈ sanitizeCode code -> in_strip_class c = false.
Proof.
  induction code as [|x r IH]; simpl.
  - intros H. inversion H.
  - destruct (in_strip_class x) eqn:Hx; [exact IH|].
    intros H. apply elem_of_cons in H as [->|H]; [exact Hx | exact (IH H)].
Qed.

Lemma only_line_feed_survives (c : N) :
  in_strip_class c = false -> is_control c = true -> c = LF.
Proof.
  unfold in_strip_class, is_control, LF. intros H1 H2.
  apply orb_false_iff in H1 as [H1 H3].
  apply orb_false_iff in H1 as [H1 H4].
  apply N.leb_gt in H1.
  rewrite H3, orb_false_r in H2. apply N.leb_le in H2.
  apply andb_false_iff in H4 as [H4|H4].
  - apply N.leb_gt in H4. lia.
  - apply N.leb_gt in H4. lia.
Qed.

Lemma marker_length : length TRUNCATION_MARKER = 19%nat.
Proof. reflexivity. Qed.

Lemma marker_class (c : N) : c ∈ TRUNCATION_MARKER -> in_strip_class c = false.
Proof.
  intros H. apply list_elem_of_In in H.
  vm_compute in H.
  repeat (destruct H as [<-|H]; [reflexivity|]). destruct H.
Qed.

Lemma clip_short (s : jsstring) : (length s <= FILE_CAP)%nat -> clip s = s.
Proof.
  intros H. unfold clip.
  destruct (FILE_CAP <? length s)%nat eqn:Hc; [|reflexivity].
  apply Nat.ltb_lt in Hc. lia.
Qed.

Lemma clip_long (s : jsstring) :
  (FILE_CAP < length s)%nat -> clip s = take FILE_CAP s ++ TRUNCATION_MARKER.
Proof.
  intros H. unfold clip, slice_to.
  destruct (FILE_CAP <? length s)%nat eqn:Hc; [reflexivity|].
  apply Nat.ltb_ge in Hc. lia.
Qed.

Lemma clip_length (s : jsstring) :
  (length (clip s) <= FILE_CAP + length TRUNCATION_MARKER)%nat.
Proof.
  destruct (Nat.le_gt_cases (length s) FILE_CAP) as [H|H].
  - rewrite clip_short by exact H. lia.
  - rewrite clip_long by exact H.
    rewrite length_app, length_take. lia.
Qed.

Lemma clip_class (s : jsstring) (c : N) :
  (forall x, x ∈ s -> in_strip_class x = false) ->
  c ∈ clip s -> in_strip_class c = false.
Proof.
  intros Hs. unfold clip, slice_to.
  destruct (FILE_CAP <? length s)%nat; [|apply Hs].
  intros H. apply elem_of_app in H as [H|H].
  - apply Hs. exact (subseteq_take _ _ _ H).
  - apply marker_class, H.
Qed.

Lemma from_first_app (c : N) (pre rest : jsstring) :
  c ∉ pre -> from_first c (pre ++ c :: rest) = Some (c :: rest).
Proof.
  induction pre as [|x pre IH]; simpl; intros H.
  - rewrite N.eqb_refl. reflexivity.
  - apply not_elem_of_cons in H as [Hx H].
    destruct (N.eqb_spec x c) as [->|_]; [contradiction|]. apply IH, H.
Qed.

Lemma from_first_None (c : N) (s : jsstring) :
  from_first c s = None <-> c ∉ s.
Proof.
  induction s as [|x r IH]; simpl.
  - split; [intros _ H; inversion H | reflexivity].
  - destruct (N.eqb_spec x c) as [->|Hx].
    + split; [discriminate|]. intros H. exfalso. apply H. left.
    + rewrite IH, not_elem_of_cons. split; [intros H; split; congruence | tauto].
Qed.

Lemma from_first_Some (c : N) (s r : jsstring) :
  from_first c s = Some r ->
  exists pre rest, s = pre ++ c :: rest /\ r = c :: rest /\ c ∉ pre.
Proof.
  revert r. induction s as [|x t IH]; simpl; intros r H; [discriminate|].
  destruct (N.eqb_spec x c) as [->|Hx].
  - inversion H; subst. exists [], t. repeat split; auto. intros Hin; inversion Hin.
  - destruct (IH _ H) as (pre & rest & -> & -> & Hpre).
    exists (x :: pre), rest. repeat split; auto.
    apply not_elem_of_cons. split; congruence.
Qed.

Lemma upto_last_None (c : N) (s : jsstring) :
  upto_last c s = None <-> c ∉ s.
Proof.
  induction s as [|x r IH]; simpl.
  - split; [intros _ H; inversion H | reflexivity].
  - destruct (upto_last c r) as [p|].
    + split; [discriminate|]. intros H. apply not_elem_of_cons in H as [_ H].
      apply IH in H. discriminate.
    + destruct (N.eqb_spec x c) as [->|Hx].
      * split; [discriminate|]. intros H. exfalso. apply H. left.
      * rewrite not_elem_of_cons. split; [intros _|reflexivity].
        split; [congruence|]. apply IH. reflexivity.
Qed.

Lemma upto_last_app (c : N) (mid post : jsstring) :
  c ∉ post -> upto_last c (mid ++ c :: post) = Some (mid ++ [c]).
Proof.
  intros Hpost. induction mid as [|x mid IH]; simpl.
  - apply upto_last_None in Hpost. rewrite Hpost, N.eqb_refl. reflexivity.
  - rewrite IH. reflexivity.
Qed.

(** The span the pattern matches: from the first opening brace to the
    last closing brace. *)
Lemma match_braces_span (pre mid post : jsstring) :
  LBRACE ∉ pre -> RBRACE ∉ post ->
  match_braces (pre ++ LBRACE :: mid ++ RBRACE :: post)
  = Some (LBRACE :: mid ++ [RBRACE]).
Proof.
  intros Hpre Hpost. unfold match_braces.
  rewrite from_first_app by exact Hpre.
  rewrite upto_last_app by exact Hpost. reflexivity.
Qed.

(** There is no match exactly when no opening brace has a closing brace
    after it. *)
Lemma match_braces_None (content : jsstring) :
  match_braces content = None <->
  ~ exists pre mid post, content = pre ++ LBRACE :: mid ++ RBRACE :: post.
Proof.
  unfold match_braces. split.
  - intros H (pre & mid & post & ->).
    destruct (from_first LBRACE (pre ++ LBRACE :: mid ++ RBRACE :: post)) as [r|] eqn:Hf.
    + apply from_first_Some in Hf as (p1 & rest & Heq & -> & Hp1).
      destruct (upto_last RBRACE rest) as [p|] eqn:Hu; [discriminate|].
      apply upto_last_None in Hu.
      assert (Hin : RBRACE ∈ rest); [|contradiction].
      clear H Hu. revert pre Heq Hp1.
      induction p1 as [|y p1 IH]; intros pre Heq Hp1.
      * destruct pre as [|z pre]; simpl in Heq.
        -- inversion Heq; subst. apply elem_of_app. right. left.
        -- inversion Heq; subst. apply elem_of_app. right. right.
           apply elem_of_app. right. left.
      * destruct pre as [|z pre]; simpl in Heq.
        -- inversion Heq; subst. exfalso. apply Hp1. left.
        -- inversion Heq; subst. apply (IH pre); [assumption|].
           apply not_elem_of_cons in Hp1. tauto.
    + apply from_first_None in Hf. apply Hf.
      apply elem_of_app. right. left.
  - intros H.
    destruct (from_first LBRACE content) as [r|] eqn:Hf; [|reflexivity].
    apply from_first_Some in Hf as (p1 & rest & -> & -> & Hp1).
    destruct (upto_last RBRACE rest) as [p|] eqn:Hu; [|reflexivity].
    exfalso. apply H.
    assert (Hin : RBRACE ∈ rest).
    { destruct (decide (RBRACE ∈ rest)) as [Hi|Hn]; [exact Hi|].
      apply upto_last_None in Hn. congruence. }
    apply list_elem_of_split in Hin as (mid & post & ->).
    exists p1, mid, post. reflexivity.
Qed.

End TextFacts.

(* ================================================================== *)
(** * Properties of the quality-analysis adapter                       *)
(* ================================================================== *)

Section ReaderExamples.
Import Text Js.

Example parse_object :
  Json.parse (qlit "{'score': 85, 'tags': ['a', null, true], 'n': -2.5e3}")
  = Some (JObject [ (lit "score", JNumber (mkNum 85 0));
                    (lit "tags", JArray [JString (lit "a"); JNull; JBool true]);
                    (lit "n", JNumber (mkNum (-2500) 0)) ]).
Proof. vm_compute. reflexivity. Qed.

Example parse_rejects_prose :
  Json.parse (lit "Here is the review") = None
  /\ Json.parse (qlit "{'score': 85} thanks") = None
  /\ Json.parse (qlit "{'score': 085}") = None
  /\ Json.parse (qlit "{'score': 85,}") = None.
Proof. repeat split; vm_compute; reflexivity. Qed.

Example parse_null_then_read :
  Json.parse (lit "null") = Some JNull
  /\ get_prop JNull (lit "score")
     = inl (lit "Cannot read properties of null (reading 'score')").
Proof. split; vm_compute; reflexivity. Qed.

Example repeated_key_last_wins :
  (fun v => get_prop v (lit "a")) <$> Json.parse (qlit "{'a': 1, 'a': 2}")
  = Some (inr (JNumber (mkNum 2 0))).
Proof. vm_compute. reflexivity. Qed.

(** A literal too small for a double denotes zero, and is falsy; one
    too large denotes an infinity. *)
Example parse_rounds_to_double :
  Json.parse (lit "1e-400") = Some js_zero
  /\ truthy js_zero = false
  /\ Json.parse (lit "0.1") = Some (JNumber (mkNum 3602879701896397 (-55)))
  /\ Json.parse (lit "9007199254740993") = Some (JNumber (mkNum 9007199254740992 0))
  /\ Json.parse (lit "-0") = Some (JNumber NegZero)
  /\ Json.parse (lit "1e400") = Some (JNumber (Infinity false)).
Proof. repeat split; vm_compute; reflexivity. Qed.

End ReaderExamples.

Section AdapterFacts.
Import Text Js Adapter.
Variable E : Adapter.Env.

Lemma fold_entries (f : jsstring -> jsstring) (files : list jsstring) (acc : jsstring) :
  fold_left (fun contents file => contents ++ f file) files acc
  = acc ++ concat (map f files).
Proof.
  revert acc. induction files as [|x files IH]; intros acc; simpl.
  - rewrite app_nil_r. reflexivity.
  - rewrite IH, <- app_assoc. reflexivity.
Qed.

(** The prompt's file section is the entries of the matched files, one
    after the other. *)
Lemma readRepoFiles_entries (repoPath : jsstring) (fileGlobs : list jsstring) :
  readRepoFiles E repoPath fileGlobs
  = sum_map id (fun files => concat (map (file_entry E repoPath) files))
      (matched_files E repoPath fileGlobs).
Proof.
  unfold readRepoFiles.
  destruct (matched_files E repoPath fileGlobs) as [e|files]; [reflexivity|].
  cbn. f_equal. apply fold_entries.
Qed.

Lemma safeJsonParse_direct (content : jsstring) (v : JsValue) :
  JSON_parse E content = Some v -> safeJsonParse E content = v.
Proof. unfold safeJsonParse. intros ->. reflexivity. Qed.

Lemma safeJsonParse_fallback (pre mid post : jsstring) :
  LBRACE ∉ pre -> RBRACE ∉ post ->
  JSON_parse E (pre ++ LBRACE :: mid ++ RBRACE :: post) = None ->
  safeJsonParse E (pre ++ LBRACE :: mid ++ RBRACE :: post)
  = default js_empty_object (JSON_parse E (LBRACE :: mid ++ [RBRACE])).
Proof.
  intros Hpre Hpost Hdirect. unfold safeJsonParse.
  rewrite Hdirect, match_braces_span by assumption.
  destruct (JSON_parse E _); reflexivity.
Qed.

Lemma safeJsonParse_empty (content : jsstring) :
  JSON_parse E content = None ->
  (forall span, match_braces content = Some span -> JSON_parse E span = None) ->
  safeJsonParse E content = js_empty_object.
Proof.
  intros Hdirect Hspan. unfold safeJsonParse. rewrite Hdirect.
  destruct (match_braces content) as [span|]; [|reflexivity].
  rewrite (Hspan span eq_refl). reflexivity.
Qed.

End AdapterFacts.

Section AdapterProperties.
Import Text Js Adapter.

(** C9 (amended).  The file section of the prompt, when the matching
    of the patterns does not throw, is made of one entry per matched
    file that can be read: a header line with its path, then its
    content, sanitized and clipped.  The sanitizer removes every
    ASCII control character except the line feed, so the only control
    character left in the content is the line feed; content longer than
    10000 code units is cut to its first 10000 and the 19-unit
    truncation marker is put in place of the rest, so the content of no
    file takes more than 10000 units plus the marker. *)
Theorem file_entry_sanitized_and_capped
    (E : Adapter.Env) (repoPath file raw : jsstring) (fileGlobs : list jsstring) :
  readFile E file = Some raw ->
  readRepoFiles E repoPath fileGlobs
    = sum_map id (fun files => concat (map (file_entry E repoPath) files))
        (matched_files E repoPath fileGlobs)
  /\ file_entry E repoPath file
     = lit "// " ++ relative E repoPath file ++ [LF]
         ++ clip (sanitizeCode raw) ++ [LF; LF]
  /\ (forall c, c ∈ clip (sanitizeCode raw) -> is_control c = true -> c = LF)
  /\ (length (clip (sanitizeCode raw)) <= FILE_CAP + length TRUNCATION_MARKER)%nat
  /\ ((length (sanitizeCode raw) <= FILE_CAP)%nat ->
      clip (sanitizeCode raw) = sanitizeCode raw)
  /\ ((FILE_CAP < length (sanitizeCode raw))%nat ->
      clip (sanitizeCode raw) = take FILE_CAP (sanitizeCode raw) ++ TRUNCATION_MARKER).
Proof.
  intros Hread. split; [apply readRepoFiles_entries|].
  split; [unfold file_entry; rewrite Hread; reflexivity|].
  split.
  { intros c Hc Hctl. apply only_line_feed_survives; [|exact Hctl].
    revert Hc. apply clip_class. intros x. apply sanitizeCode_class. }
  split; [apply clip_length|].
  split; [apply clip_short | apply clip_long].
Qed.

(** A file of 10001 letters: its content in the prompt is the first
    10000 of them and the marker. *)
Lemma file_entry_sanitized_and_capped_witness :
  readFile (Samples.adapter_env Samples.long_text (Rejected [])) Samples.readme_path
    = Some Samples.long_text
  /\ length (clip (sanitizeCode Samples.long_text)) = 10019%nat.
Proof.
  split; [reflexivity|].
  pose proof (file_entry_sanitized_and_capped
                (Samples.adapter_env Samples.long_text (Rejected []))
                (lit "/repo") Samples.readme_path Samples.long_text
                [lit "README.md"] eq_refl) as (_ & _ & _ & _ & _ & Hlong).
  rewrite Hlong; [reflexivity|].
  vm_compute. lia.
Defined.

(** C9, as worded, fails: a line feed is a control character and the
    sanitizer keeps it (the tab next to it is removed). *)
Lemma sanitizeCode_keeps_line_feed :
  sanitizeCode Samples.two_lines = [97; 10; 98]
  /\ is_control 10 = true
  /\ ~ (forall code c, c ∈ sanitizeCode code -> is_control c = false).
Proof.
  split; [reflexivity|]. split; [reflexivity|].
  intros H. specialize (H Samples.two_lines 10).
  assert (Hin : 10 ∈ sanitizeCode Samples.two_lines).
  { apply list_elem_of_In. vm_compute. tauto. }
  specialize (H Hin). discriminate H.
Qed.

(** C7 (amended).  [safeJsonParse] is total.  It returns what direct
    decoding gives when that succeeds.  Otherwise it decodes the span
    from the first opening brace to the last closing brace of the text,
    and returns the empty object when there is no such span or it does
    not decode.  So an object embedded in text that has no opening brace
    before it and no closing brace after it is extracted. *)
Theorem safeJsonParse_stages (E : Adapter.Env) :
  (forall content v, JSON_parse E content = Some v -> safeJsonParse E content = v)
  /\ (forall pre mid post,
        LBRACE ∉ pre -> RBRACE ∉ post ->
        JSON_parse E (pre ++ LBRACE :: mid ++ RBRACE :: post) = None ->
        safeJsonParse E (pre ++ LBRACE :: mid ++ RBRACE :: post)
        = default js_empty_object (JSON_parse E (LBRACE :: mid ++ [RBRACE])))
  /\ (forall content,
        JSON_parse E content = None ->
        (~ exists pre mid post, content = pre ++ LBRACE :: mid ++ RBRACE :: post) ->
        safeJsonParse E content = js_empty_object)
  /\ (forall pre mid post v,
        LBRACE ∉ pre -> RBRACE ∉ post ->
        JSON_parse E (pre ++ LBRACE :: mid ++ RBRACE :: post) = None ->
        JSON_parse E (LBRACE :: mid ++ [RBRACE]) = Some v ->
        safeJsonParse E (pre ++ (LBRACE :: mid ++ [RBRACE]) ++ post) = v).
Proof.
  split; [apply safeJsonParse_direct|].
  split; [apply safeJsonParse_fallback|].
  split.
  - intros content Hdirect Hnone. apply safeJsonParse_empty; [exact Hdirect|].
    apply match_braces_None in Hnone. intros span Hspan. congruence.
  - intros pre mid post v Hpre Hpost Hdirect Hobj.
    replace (pre ++ (LBRACE :: mid ++ [RBRACE]) ++ post)
      with (pre ++ LBRACE :: mid ++ RBRACE :: post)
      by (simpl; rewrite <- app_assoc; reflexivity).
    rewrite safeJsonParse_fallback by assumption.
    rewrite Hobj. reflexivity.
Qed.

(** The object of [Samples.wrapped_reply] is extracted from the prose
    around it. *)
Lemma safeJsonParse_stages_witness :
  safeJsonParse (Samples.adapter_env [] (Rejected [])) Samples.wrapped_reply
  = JObject [ (lit "score", JNumber (mkNum 85 0)); (lit "report", JString (lit "fine")) ].
Proof.
  pose proof (safeJsonParse_stages (Samples.adapter_env [] (Rejected [])))
    as (_ & _ & _ & H).
  apply (H (lit "Here is the review: ")
           (qlit "'score': 85, 'report': 'fine'")
           (lit " Thanks.")).
  - intros Hin. apply list_elem_of_In in Hin. vm_compute in Hin. intuition discriminate.
  - intros Hin. apply list_elem_of_In in Hin. vm_compute in Hin. intuition discriminate.
  - vm_compute. reflexivity.
  - vm_compute. reflexivity.
Defined.

(** C7, as worded, fails: the object of [Samples.brace_reply] decodes on
    its own, but the prose after it has a closing brace, the matched span
    runs to that brace, and the empty object is returned. *)
Lemma safeJsonParse_misses_embedded_object :
  Json.parse (qlit "{'score': 5}") = Some (JObject [(lit "score", JNumber (mkNum 5 0))])
  /\ match_braces Samples.brace_reply = Some (qlit "{'score': 5}" ++ lit " (use }")
  /\ safeJsonParse (Samples.adapter_env [] (Rejected [])) Samples.brace_reply
     = js_empty_object
  /\ ~ (forall (E : Adapter.Env) pre obj post v,
          JSON_parse E obj = Some v -> safeJsonParse E (pre ++ obj ++ post) = v).
Proof.
  split; [vm_compute; reflexivity|].
  split; [vm_compute; reflexivity|].
  split; [vm_compute; reflexivity|].
  intros H.
  specialize (H (Samples.adapter_env [] (Rejected []))
                (lit "see ") (qlit "{'score': 5}") (lit " (use } carefully)")
                (JObject [(lit "score", JNumber (mkNum 5 0))])).
  assert (Hobj : JSON_parse (Samples.adapter_env [] (Rejected [])) (qlit "{'score': 5}")
                 = Some (JObject [(lit "score", JNumber (mkNum 5 0))]))
    by (vm_compute; reflexivity).
  specialize (H Hobj). vm_compute in H. discriminate H.
Qed.

(** One call, from a log: what the statements before the [try] throw is
    thrown; otherwise the request is sent and the [try] block runs. *)
Lemma analyzeCode_run (E : Adapter.Env) (repoPath : jsstring)
    (testResult rubric : JsValue) (fileGlobs : option (list jsstring))
    (npm : JsValue) (projectType : option jsstring) (log : Log) :
  analyzeCode E repoPath testResult rubric fileGlobs npm projectType log
  = match prompt_of E repoPath testResult rubric fileGlobs npm projectType with
    | inl e => (inl e, log)
    | inr prompt =>
        try_catch (bind (chat_create E prompt) (read_reply E projectType))
          (fun message => ret (degraded projectType message)) log
    end.
Proof.
  unfold analyzeCode, prompt_of, then_eval, bind, eval.
  destruct (readRepoFiles E repoPath _) as [e|files]; [reflexivity|].
  destruct (buildPrompt E files testResult rubric npm projectType); reflexivity.
Qed.

(** The [try] block never throws, and sends one request. *)
Lemma try_block_returns (E : Adapter.Env) (projectType : option jsstring)
    (prompt : jsstring) (log : Log) :
  let out :=
    try_catch (bind (chat_create E prompt) (read_reply E projectType))
      (fun message => ret (degraded projectType message)) log in
  snd out = log ++ [prompt] /\ exists a, fst out = inr a.
Proof.
  cbv zeta. unfold try_catch, bind, chat_create, read_reply, eval, ret.
  destruct (service E (length log) prompt) as [m|content]; cbn.
  - split; [reflexivity | eauto].
  - destruct (is_native projectType); cbn.
    + destruct (get_prop (safeJsonParse E content) (lit "codeSmellScore")); cbn;
        [split; [reflexivity | eauto]|].
      destruct (get_prop (safeJsonParse E content) (lit "codeQualityScore")); cbn;
        [split; [reflexivity | eauto]|].
      destruct (get_prop (safeJsonParse E content) (lit "report")); cbn;
        split; solve [reflexivity | eauto].
    + destruct (get_prop (safeJsonParse E content) (lit "score")); cbn;
        [split; [reflexivity | eauto]|].
      destruct (get_prop (safeJsonParse E content) (lit "report")); cbn;
        split; solve [reflexivity | eauto].
Qed.

(** C4 (amended).  The matching of the file patterns and the building
    of the prompt come before the [try] block: an error thrown there is
    thrown by [analyzeCode], and no request is sent.  Once the prompt is
    built, one invocation sends exactly one request to the analysis
    service, whatever the reply, and does not throw.  When the request
    is rejected the result is the degraded one: every score zero and the
    report the note [AI analysis failed:] followed by the error's
    message.  When the reply cannot be decoded, every score is zero and
    the report is the note [No analysis provided]. *)
Theorem analyzeCode_degrades_without_retry (E : Adapter.Env) (repoPath : jsstring)
    (testResult rubric : JsValue) (fileGlobs : option (list jsstring))
    (npm : JsValue) (projectType : option jsstring) (log : Log) :
  let out := analyzeCode E repoPath testResult rubric fileGlobs npm projectType log in
  (forall e,
     prompt_of E repoPath testResult rubric fileGlobs npm projectType = inl e ->
     out = (inl e, log))
  /\ (forall prompt,
        prompt_of E repoPath testResult rubric fileGlobs npm projectType = inr prompt ->
        snd out = log ++ [prompt]
        /\ (exists a, fst out = inr a)
        /\ (forall message,
              service E (length log) prompt = Rejected message ->
              exists a, fst out = inr a
                /\ Forall (eq js_zero) (scores_of a)
                /\ report_of a = JString (lit "AI analysis failed: " ++ message))
        /\ (forall content,
              service E (length log) prompt = Completed content ->
              JSON_parse E content = None ->
              (forall span, match_braces content = Some span -> JSON_parse E span = None) ->
              exists a, fst out = inr a
                /\ Forall (eq js_zero) (scores_of a)
                /\ report_of a = NO_ANALYSIS)).
Proof.
  cbv zeta. rewrite analyzeCode_run. split.
  - intros e ->. reflexivity.
  - intros prompt ->.
    destruct (try_block_returns E projectType prompt log) as [Hlog Hret].
    split; [exact Hlog|]. split; [exact Hret|]. split.
    + intros message Hsvc.
      unfold try_catch, bind, chat_create, ret.
      rewrite Hsvc. cbn. unfold degraded.
      destruct (is_native projectType); eexists; (split; [reflexivity|]); cbn;
        split; auto.
    + intros content Hsvc Hdirect Hspan.
      unfold try_catch, bind, chat_create, read_reply, eval, ret.
      rewrite Hsvc. cbn.
      rewrite (safeJsonParse_empty E content Hdirect Hspan).
      destruct (is_native projectType); cbn; eexists; (split; [reflexivity|]); cbn;
        split; auto.
Qed.

(** A service that rejects with [timeout]: one request, the degraded
    result. *)
Lemma analyzeCode_degrades_without_retry_witness :
  exists prompt a,
    analyzeCode (Samples.adapter_env Samples.two_lines (Rejected (lit "timeout")))
      (lit "/repo") JNull JUndefined None JUndefined (Some (lit "express")) []
    = (inr a, [prompt])
    /\ Forall (eq js_zero) (scores_of a)
    /\ report_of a = JString (lit "AI analysis failed: " ++ lit "timeout").
Proof.
  pose (E := Samples.adapter_env Samples.two_lines (Rejected (lit "timeout"))).
  destruct (prompt_of E (lit "/repo") JNull JUndefined None JUndefined
              (Some (lit "express"))) as [e|prompt] eqn:Hp;
    [vm_compute in Hp; discriminate Hp|].
  pose proof (analyzeCode_degrades_without_retry E
                (lit "/repo") JNull JUndefined None JUndefined (Some (lit "express")) [])
    as H.
  cbv zeta in H. destruct H as [_ H].
  destruct (H prompt Hp) as (Hlog & _ & Hrej & _).
  destruct (Hrej (lit "timeout") eq_refl) as (a & Ha & Hz & Hr).
  exists prompt, a. split; [|split; assumption].
  fold E.
  destruct (analyzeCode E _ _ _ _ _ _ _) as [r l]. cbn in Hlog, Ha. subst. reflexivity.
Defined.

(** C4, as worded, fails: a file pattern that the matcher refuses makes
    the [glob] call reject before the [try] block is entered, so the
    adapter throws instead of returning a degraded result, and the
    analysis service is not invoked at all. *)
Lemma analyzeCode_throws_before_try :
  analyzeCode (Samples.adapter_env Samples.two_lines (Completed (qlit "{'score': 85}")))
    (lit "/repo") JNull JUndefined (Some [Samples.long_pattern]) JUndefined
    (Some (lit "express")) []
  = (inl (lit "pattern is too long"), [])
  /\ ~ (forall (E : Adapter.Env) repoPath testResult rubric fileGlobs npm projectType log,
          exists a,
            fst (analyzeCode E repoPath testResult rubric fileGlobs npm projectType log)
            = inr a)
  /\ ~ (forall (E : Adapter.Env) repoPath testResult rubric fileGlobs npm projectType log,
          length (snd (analyzeCode E repoPath testResult rubric fileGlobs npm
                         projectType log))
          = S (length log)).
Proof.
  assert (Hrun :
    analyzeCode (Samples.adapter_env Samples.two_lines (Completed (qlit "{'score': 85}")))
      (lit "/repo") JNull JUndefined (Some [Samples.long_pattern]) JUndefined
      (Some (lit "express")) []
    = (inl (lit "pattern is too long"), [])) by (vm_compute; reflexivity).
  split; [exact Hrun|]. split.
  - intros H.
    destruct (H (Samples.adapter_env Samples.two_lines (Completed (qlit "{'score': 85}")))
                (lit "/repo") JNull JUndefined (Some [Samples.long_pattern]) JUndefined
                (Some (lit "express")) []) as [a Ha].
    rewrite Hrun in Ha. discriminate Ha.
  - intros H.
    specialize (H (Samples.adapter_env Samples.two_lines (Completed (qlit "{'score': 85}")))
                  (lit "/repo") JNull JUndefined (Some [Samples.long_pattern]) JUndefined
                  (Some (lit "express")) []).
    rewrite Hrun in H. discriminate H.
Qed.

(** C8: the code at the failing input.  For a project that is not
    native, a reply whose [score] is the string [high] comes back with
    that string as its score: no numeric check is made on this path. *)
Theorem web_score_is_not_validated :
  fst (analyzeCode (Samples.adapter_env [] (Completed Samples.string_score_reply))
         (lit "/repo") JNull JUndefined None JUndefined (Some (lit "express")) [])
  = inr (WebAnalysis (JString (lit "high")) (JString (lit "r")))
  /\ is_number (JString (lit "high")) = false.
Proof. split; vm_compute; reflexivity. Qed.

(** On the native path both scores of the result are numbers, whatever
    the service replies. *)
Lemma native_scores_validated (E : Adapter.Env) (repoPath : jsstring)
    (testResult rubric : JsValue) (fileGlobs : option (list jsstring))
    (npm : JsValue) (log : Log) (a : Analysis) :
  fst (analyzeCode E repoPath testResult rubric fileGlobs npm (Some (lit "c")) log)
    = inr a ->
  Forall (fun v => is_number v = true) (scores_of a).
Proof.
  rewrite analyzeCode_run.
  destruct (prompt_of E repoPath testResult rubric fileGlobs npm (Some (lit "c")))
    as [e|prompt]; [discriminate|].
  unfold try_catch, bind, chat_create, read_reply, eval, ret.
  destruct (service E (length log) _) as [m|content]; cbn.
  - intros [= <-]. repeat constructor.
  - destruct (get_prop (safeJsonParse E content) (lit "codeSmellScore")) as [e|smell];
      cbn; [intros [= <-]; repeat constructor|].
    destruct (get_prop (safeJsonParse E content) (lit "codeQualityScore")) as [e|quality];
      cbn; [intros [= <-]; repeat constructor|].
    destruct (get_prop (safeJsonParse E content) (lit "report")) as [e|rep];
      cbn; [intros [= <-]; repeat constructor|].
    intros [= <-]. cbn.
    destruct (is_number smell) eqn:Hs, (is_number quality) eqn:Hq; cbn;
      repeat constructor; assumption.
Qed.

(** On the other path a missing or falsy [score] becomes zero, and any
    other value is returned as it is. *)
Lemma web_score_defaulting (E : Adapter.Env) (repoPath : jsstring)
    (testResult rubric : JsValue) (fileGlobs : option (list jsstring))
    (npm : JsValue) (projectType : option jsstring) (log : Log)
    (prompt content : jsstring) (sc rep : JsValue) :
  is_native projectType = false ->
  prompt_of E repoPath testResult rubric fileGlobs npm projectType = inr prompt ->
  service E (length log) prompt = Completed content ->
  get_prop (safeJsonParse E content) (lit "score") = inr sc ->
  get_prop (safeJsonParse E content) (lit "report") = inr rep ->
  fst (analyzeCode E repoPath testResult rubric fileGlobs npm projectType log)
  = inr (WebAnalysis (if truthy sc then sc else js_zero) (js_or rep NO_ANALYSIS)).
Proof.
  intros Hweb Hp Hsvc Hsc Hrep.
  rewrite analyzeCode_run, Hp.
  unfold try_catch, bind, chat_create, read_reply, eval, ret.
  rewrite Hsvc, Hweb. cbn. rewrite Hsc. cbn. rewrite Hrep. reflexivity.
Qed.

End AdapterProperties.

(* ================================================================== *)
(** * Properties of the routes                                         *)
(* ================================================================== *)

Section RouteFacts.
Import Text Js Model Routes.
Variable E : Routes.Env.

Lemma startsWith_app (p s : jsstring) : startsWith p (p ++ s) = true.
Proof.
  induction p as [|a p IH]; simpl; [reflexivity|].
  rewrite N.eqb_refl. exact IH.
Qed.

Lemma bearer_token (token : jsstring) : slice_from 7 (BEARER ++ token) = token.
Proof. reflexivity. Qed.

(** A verified token of an existing user passes the first guard, which
    attaches the user to the request. *)
Lemma findById_stored (db0 : Db) (id : jsstring) (s : Submission) :
  submissions db0 !! id = Some s -> findById E db0 id = inr (Some s).
Proof. unfold findById. intros ->. reflexivity. Qed.


Lemma findUserById_stored (db0 : Db) (id : jsstring) (u : User) :
  users db0 !! id = Some u -> findUserById E db0 id = inr (Some u).
Proof. unfold findUserById. intros ->. reflexivity. Qed.

Lemma getUserFromToken_accepts (db0 : Db) (rq : Request) (o : option User)
    (token uid : jsstring) (u : User) :
  authorization rq = Some (BEARER ++ token) ->
  jwt_verify E token = Some uid ->
  users db0 !! uid = Some u ->
  getUserFromToken E db0 (mkCtx rq o) = Next (mkCtx rq (Some u)).
Proof.
  intros Hauth Hjwt Huser. unfold getUserFromToken. cbn [req].
  rewrite Hauth, startsWith_app, bearer_token, Hjwt,
    (findUserById_stored db0 uid u Huser).
  reflexivity.
Qed.


(** What the grading task does once the service has settled: one write
    of the completed record, or of the failed one; and when the store
    refuses the completed record, a write of the failed one after it. *)
Lemma grading_task_runs (P : Proc GradingResult) (t0 t1 : TaskState)
    (out : jsstring + GradingResult) (ev : list Event) :
  P t0 = (out, t1, ev) ->
  grading_task E P t0
  = match out with
    | inr result =>
        let done := completed_doc result (doc t1) in
        match store E (writes (db t1)) done with
        | None =>
            (inr tt, mkTask done (after_write done (db t1)), ev ++ [Saved done])
        | Some m' =>
            let bad := failed_doc m' done in
            let db2 :=
              mkDb (submissions (db t1)) (users (db t1)) (S (writes (db t1))) in
            match store E (S (writes (db t1))) bad with
            | None =>
                (inr tt, mkTask bad (after_write bad db2),
                 ev ++ [SaveRefused done m'; Saved bad])
            | Some m'' =>
                (inl m'',
                 mkTask bad (mkDb (submissions db2) (users db2) (S (writes db2))),
                 ev ++ [SaveRefused done m'; SaveRefused bad m''])
            end
        end
    | inl m =>
        let bad := failed_doc m (doc t1) in
        match store E (writes (db t1)) bad with
        | None => (inr tt, mkTask bad (after_write bad (db t1)), ev ++ [Saved bad])
        | Some m' =>
            (inl m',
             mkTask bad (mkDb (submissions (db t1)) (users (db t1)) (S (writes (db t1)))),
             ev ++ [SaveRefused bad m'])
        end
    end.
Proof.
  intros HP.
  unfold grading_task, or_else, and_then. rewrite HP.
  destruct out as [m|result].
  - unfold on_rejected, and_then, assign, persist, save. cbn [doc db fst snd].
    fold (failed_doc m (doc t1)).
    destruct (store E (writes (db t1)) (failed_doc m (doc t1))); cbn;
      rewrite ?app_nil_r; reflexivity.
  - unfold on_fulfilled, on_rejected, and_then, assign, persist, save.
    cbn [doc db fst snd]. fold (completed_doc result (doc t1)).
    destruct (store E (writes (db t1)) (completed_doc result (doc t1))) as [m'|];
      cbn; [|rewrite ?app_nil_r; reflexivity].
    fold (failed_doc m' (completed_doc result (doc t1))).
    destruct (store E (S (writes (db t1))) (failed_doc m' (completed_doc result (doc t1))));
      cbn; rewrite <- ?app_assoc; reflexivity.
Qed.

(** The intake handler behind its guard, for an accepted request. *)
Lemma dispatch_grade_accepted (G : GradingService) (db0 db1 : Db) (rq : Request)
    (token uid : jsstring) (u : User) :
  authorization rq = Some (BEARER ++ token) ->
  jwt_verify E token = Some uid ->
  users db0 !! uid = Some u ->
  user_id u <> [] ->
  save_new E (new_submission E db0 (body rq) (user_id u)) db0 = (None, db1) ->
  dispatch E G POST_grade db0 rq
  = (let s0 := new_submission E db0 (body rq) (user_id u) in
     let out := grading_task E (G s0 (b_fileGlobs (body rq))) (mkTask s0 db1) in
     ([ Saved s0; GradeCalled (_id s0);
        Responded (Json 202 (PSubmissionId (_id s0))) ] ++ settle out,
      db (snd (fst out)))).
Proof.
  intros Hauth Hjwt Huser Hid Hsave. unfold dispatch. simpl.
  rewrite (getUserFromToken_accepts db0 rq None token uid u Hauth Hjwt Huser).
  unfold handler, grade_submission. simpl.
  destruct u as [[|ch t] em ro]; simpl in *; [congruence|].
  rewrite Hsave. reflexivity.
Qed.

End RouteFacts.

Section RouteProperties.
Import Text Js Model Routes.

(** C5.  For a request the guard accepts and whose new document the
    store takes, the handler saves a submission at [uploading] with
    grade [pending] under an id that was free, calls the grading
    service, and answers 202 with that id.  These three steps are the
    same whatever the grading service does.  Everything the service does
    comes after the response, and after it one of the two continuations
    runs: it answers nothing to the caller and attempts a write of the
    shared document, [completed] with the result when the service
    resolved and [failed] with the message when it rejected; the
    collection the request leaves behind is the one that write leaves. *)
Theorem intake_acknowledges_before_grading
    (E : Routes.Env) (G : GradingService) (db0 db1 : Db) (rq : Request)
    (token uid : jsstring) (u : User)
    (out : jsstring + GradingResult) (t1 : TaskState) (ev : list Event) :
  authorization rq = Some (BEARER ++ token) ->
  jwt_verify E token = Some uid ->
  users db0 !! uid = Some u ->
  user_id u <> [] ->
  save_new E (new_submission E db0 (body rq) (user_id u)) db0 = (None, db1) ->
  let s0 := new_submission E db0 (body rq) (user_id u) in
  G s0 (b_fileGlobs (body rq)) (mkTask s0 db1) = (out, t1, ev) ->
  status s0 = uploading
  /\ grade s0 = pending
  /\ userId s0 = user_id u
  /\ submissions db0 !! _id s0 = None
  /\ db1 = after_write s0 db0
  /\ exists tail,
       fst (dispatch E G POST_grade db0 rq)
       = [ Saved s0; GradeCalled (_id s0);
           Responded (Json 202 (PSubmissionId (_id s0))) ] ++ ev ++ tail
       /\ responses tail = []
       /\ (exists d, head tail = Some (Saved d)
                     \/ exists m, head tail = Some (SaveRefused d m))
       /\ users (snd (dispatch E G POST_grade db0 rq)) = users (db t1)
       /\ (writes (db t1) < writes (snd (dispatch E G POST_grade db0 rq)))%nat
       /\ (forall result,
             out = inr result ->
             store E (writes (db t1)) (completed_doc result (doc t1)) = None ->
             tail = [Saved (completed_doc result (doc t1))]
             /\ snd (dispatch E G POST_grade db0 rq)
                = after_write (completed_doc result (doc t1)) (db t1))
       /\ (forall m,
             out = inl m ->
             store E (writes (db t1)) (failed_doc m (doc t1)) = None ->
             tail = [Saved (failed_doc m (doc t1))]
             /\ snd (dispatch E G POST_grade db0 rq)
                = after_write (failed_doc m (doc t1)) (db t1)).
Proof.
  intros Hauth Hjwt Huser Hid Hsave s0 HG.
  split; [reflexivity|]. split; [reflexivity|]. split; [reflexivity|].
  assert (Hfree : submissions db0 !! _id s0 = None /\ db1 = after_write s0 db0).
  { revert Hsave. unfold save_new, save. fold s0.
    destruct (submissions db0 !! _id s0) eqn:Hl; [discriminate|].
    destruct (store E (writes db0) s0); [discriminate|].
    intros [= <-]. split; reflexivity. }
  destruct Hfree as [Hfree Hnew].
  split; [exact Hfree|]. split; [exact Hnew|].
  rewrite (dispatch_grade_accepted E G db0 db1 rq token uid u Hauth Hjwt Huser Hid Hsave).
  cbv zeta. fold s0.
  rewrite (grading_task_runs E _ _ t1 out ev HG). cbn [fst snd].
  destruct out as [m|result]; cbv zeta.
  - destruct (store E (writes (db t1)) (failed_doc m (doc t1))) as [m'|] eqn:Hst;
      cbn [fst snd settle db].
    + exists [SaveRefused (failed_doc m (doc t1)) m'; Unhandled m'].
      split; [rewrite <- app_assoc; reflexivity|].
      split; [reflexivity|]. split; [eexists; right; eexists; reflexivity|].
      split; [reflexivity|]. split; [cbn; lia|].
      split; [intros result [=] | intros m0 [= <-] Hst'; congruence].
    + exists [Saved (failed_doc m (doc t1))].
      split; [reflexivity|].
      split; [reflexivity|]. split; [eexists; left; reflexivity|].
      split; [reflexivity|]. split; [cbn; lia|].
      split; [intros result [=] | intros m0 [= <-] _; split; reflexivity].
  - destruct (store E (writes (db t1)) (completed_doc result (doc t1))) as [m'|] eqn:Hst;
      cbn [fst snd settle db].
    + destruct (store E (S (writes (db t1)))
                  (failed_doc m' (completed_doc result (doc t1)))) as [m''|] eqn:Hst';
        cbn [fst snd settle db].
      * exists [ SaveRefused (completed_doc result (doc t1)) m';
                 SaveRefused (failed_doc m' (completed_doc result (doc t1))) m'';
                 Unhandled m'' ].
        split; [rewrite <- app_assoc; reflexivity|].
        split; [reflexivity|]. split; [eexists; right; eexists; reflexivity|].
        split; [reflexivity|]. split; [cbn; lia|].
        split; [intros r0 [= <-] Hst''; congruence | intros m0 [=]].
      * exists [ SaveRefused (completed_doc result (doc t1)) m';
                 Saved (failed_doc m' (completed_doc result (doc t1))) ].
        split; [reflexivity|].
        split; [reflexivity|]. split; [eexists; right; eexists; reflexivity|].
        split; [reflexivity|]. split; [cbn; lia|].
        split; [intros r0 [= <-] Hst''; congruence | intros m0 [=]].
    + exists [Saved (completed_doc result (doc t1))].
      split; [reflexivity|].
      split; [reflexivity|]. split; [eexists; left; reflexivity|].
      split; [reflexivity|]. split; [cbn; lia|].
      split; [intros r0 [= <-] _; split; reflexivity | intros m0 [=]].
Qed.

(** The student of the samples submits a repository: the answer is 202
    with the new id, after the first save and before the writes of the
    grading service, and the passing run ends with the write of the
    completed record. *)
Lemma intake_acknowledges_before_grading_witness :
  let G := Pipeline.gradeSubmission Samples.routes_env Samples.good_run in
  let rq := Samples.request Samples.as_student [] Samples.empty_body in
  take 3 (fst (dispatch Samples.routes_env G POST_grade Samples.sample_db rq))
  = [ Saved (new_submission Samples.routes_env Samples.sample_db Samples.empty_body
               Samples.student_id);
      GradeCalled Samples.first_id;
      Responded (Json 202 (PSubmissionId Samples.first_id)) ]
  /\ (fun s => (status s, grade s)) <$>
       (submissions (snd (dispatch Samples.routes_env G POST_grade Samples.sample_db rq))
          !! Samples.first_id)
     = Some (completed, pass).
Proof.
  intros G rq.
  pose (s0 := new_submission Samples.routes_env Samples.sample_db
                Samples.empty_body Samples.student_id).
  pose (db1 := snd (save_new Samples.routes_env s0 Samples.sample_db)).
  pose (run := G s0 None (mkTask s0 db1)).
  pose proof (intake_acknowledges_before_grading Samples.routes_env G
                Samples.sample_db db1 rq
                (lit "student-token") Samples.student_id Samples.student
                (fst (fst run)) (snd (fst run)) (snd run)
                eq_refl eq_refl eq_refl) as H.
  cbv zeta in H.
  destruct H as (_ & _ & _ & _ & _ & tail & Htrace & _ & _ & _ & _ & Hok & _);
    [discriminate | reflexivity | reflexivity |].
  split.
  - rewrite Htrace. reflexivity.
  - destruct (Hok (mkResult pass (mkScores 90 100 80 []) (Some (lit "# Report")))
                eq_refl eq_refl) as [_ ->].
    vm_compute. reflexivity.
Defined.

(** C6.  When the grading service rejects with message [m], the caller
    has already been answered 202 and receives nothing else from the
    route: the [catch] continuation sets the status of the shared
    document to [failed] and its error to [m] and saves it; if the store
    takes the write, that is the stored record. *)
Theorem pipeline_failure_written_back
    (E : Routes.Env) (G : GradingService) (db0 db1 : Db) (rq : Request)
    (token uid : jsstring) (u : User)
    (m : jsstring) (t1 : TaskState) (ev : list Event) :
  authorization rq = Some (BEARER ++ token) ->
  jwt_verify E token = Some uid ->
  users db0 !! uid = Some u ->
  user_id u <> [] ->
  save_new E (new_submission E db0 (body rq) (user_id u)) db0 = (None, db1) ->
  let s0 := new_submission E db0 (body rq) (user_id u) in
  G s0 (b_fileGlobs (body rq)) (mkTask s0 db1) = (inl m, t1, ev) ->
  let written := set_error (Some m) (set_status failed (doc t1)) in
  status written = failed
  /\ error written = Some m
  /\ exists tail,
       fst (dispatch E G POST_grade db0 rq)
       = [ Saved s0; GradeCalled (_id s0);
           Responded (Json 202 (PSubmissionId (_id s0))) ] ++ ev ++ tail
       /\ (store E (writes (db t1)) written = None ->
           tail = [Saved written]
           /\ submissions (snd (dispatch E G POST_grade db0 rq)) !! _id written
              = Some written)
       /\ (forall m', store E (writes (db t1)) written = Some m' ->
           tail = [SaveRefused written m'; Unhandled m']).
Proof.
  intros Hauth Hjwt Huser Hid Hsave s0 Hrej written.
  split; [reflexivity|]. split; [reflexivity|].
  rewrite (dispatch_grade_accepted E G db0 db1 rq token uid u Hauth Hjwt Huser Hid Hsave).
  cbv zeta. fold s0.
  unfold grading_task, or_else, and_then. rewrite Hrej.
  unfold on_rejected, and_then, assign, persist, save. simpl.
  fold written.
  destruct (store E (writes (db t1)) written) as [m'|] eqn:Hstore; simpl.
  - exists [SaveRefused written m'; Unhandled m']. split.
    + rewrite <- app_assoc. reflexivity.
    + split; [discriminate|]. intros m'' [= <-]. reflexivity.
  - exists [Saved written]. split; [reflexivity|].
    split; [|discriminate]. intros _. split; [reflexivity|].
    apply lookup_insert_eq.
Qed.

(** The installation of the sample run fails: the stored record ends
    [failed] with the installer's message. *)
Lemma pipeline_failure_written_back_witness :
  (fun s => (status s, error s)) <$>
    (submissions (snd (dispatch Samples.routes_env
                         (Pipeline.gradeSubmission Samples.routes_env Samples.bad_install)
                         POST_grade Samples.sample_db
                         (Samples.request Samples.as_student [] Samples.empty_body)))
       !! Samples.first_id)
  = Some (failed, Some (lit "npm install failed")).
Proof.
  pose (s0 := new_submission Samples.routes_env Samples.sample_db
                Samples.empty_body Samples.student_id).
  pose (db1 := snd (save_new Samples.routes_env s0 Samples.sample_db)).
  pose (out := Pipeline.gradeSubmission Samples.routes_env Samples.bad_install
                 s0 None (mkTask s0 db1)).
  pose proof (pipeline_failure_written_back Samples.routes_env
                (Pipeline.gradeSubmission Samples.routes_env Samples.bad_install)
                Samples.sample_db db1
                (Samples.request Samples.as_student [] Samples.empty_body)
                (lit "student-token") Samples.student_id Samples.student
                (lit "npm install failed") (snd (fst out)) (snd out)
                eq_refl eq_refl eq_refl) as H.
  cbv zeta in H.
  destruct H as (_ & _ & tail & _ & Hok & _);
    [discriminate | reflexivity | reflexivity |].
  destruct (Hok eq_refl) as [_ Hdb].
  change Samples.first_id with
    (_id (set_error (Some (lit "npm install failed"))
            (set_status failed (doc (snd (fst out)))))).
  rewrite Hdb. reflexivity.
Defined.

(** ** The lifecycle and the grade of a record *)

(** The statuses a grading task stores, after [uploading], follow the
    documented edges, whatever phase fails and whatever write the store
    refuses. *)
Lemma pipeline_task_lifecycle (E : Routes.Env) (run : Pipeline.Run)
    (s : Submission) (fg : option (list jsstring)) (t0 : TaskState) :
  lifecycle (uploading ::
             status_history
               (settle (grading_task E (Pipeline.gradeSubmission E run s fg) t0)))
  = true.
Proof.
  destruct t0 as [d0 db0]. unfold_task. split_run run; reflexivity.
Qed.

Lemma assign_grade_decided (x : Z) :
  bool_decide (Pipeline.assign_grade x = pending) = false.
Proof.
  unfold Pipeline.assign_grade. destruct (Pipeline.PASS_THRESHOLD <=? x)%Z; reflexivity.
Qed.

(** Every record a grading task stores has a grade that agrees with its
    status, unless the store refused the write of the completed
    record. *)
Lemma pipeline_task_grades (E : Routes.Env) (run : Pipeline.Run)
    (s : Submission) (fg : option (list jsstring)) (t0 : TaskState) :
  grade (doc t0) = pending ->
  completed_write_refused
    (settle (grading_task E (Pipeline.gradeSubmission E run s fg) t0)) = false ->
  forallb grade_consistent
    (saved_docs (settle (grading_task E (Pipeline.gradeSubmission E run s fg) t0)))
  = true.
Proof.
  destruct t0 as [d0 db0]. cbn [doc]. intros Hg. unfold_task.
  split_run run; unfold grade_consistent; cbn;
    rewrite ?Hg, ?assign_grade_decided; cbn;
    solve [reflexivity | intros; discriminate].
Qed.

(** What the update handler does behind its guards, for an administrator
    and a write the store takes. *)
Lemma dispatch_patch_accepted (E : Routes.Env) (G : GradingService) (db0 : Db)
    (rq : Request) (token uid : jsstring) (u : User) (s : Submission) :
  authorization rq = Some (BEARER ++ token) ->
  jwt_verify E token = Some uid ->
  users db0 !! uid = Some u ->
  role u = lit "admin" ->
  submissions db0 !! param_id rq = Some s ->
  _id s = param_id rq ->
  store E (writes db0) (apply_patch (body rq) s) = None ->
  dispatch E G PATCH_by_id db0 rq
  = ([Responded (Json 200 (PSubmission (apply_patch (body rq) s)))],
     mkDb (<[param_id rq := apply_patch (body rq) s]> (submissions db0))
          (users db0) (S (writes db0))).
Proof.
  intros Hauth Hjwt Huser Hrole Hs Hid Hstore. unfold dispatch.
  cbn [guards run_chain].
  rewrite (getUserFromToken_accepts E db0 rq None token uid u Hauth Hjwt Huser).
  unfold requireAdmin. cbn [user]. rewrite Hrole.
  rewrite bool_decide_eq_true_2 by reflexivity.
  unfold handler, patch_submission, save. cbn [req].
  rewrite (findById_stored E db0 _ s Hs), Hstore. unfold respond. cbn [fst snd].
  assert (Hid' : _id (apply_patch (body rq) s) = param_id rq).
  { rewrite <- Hid. unfold apply_patch.
    destruct (b_status (body rq)), (b_grade (body rq)), (b_error (body rq)) as [[|]|];
      reflexivity. }
  rewrite Hid'. reflexivity.
Qed.

Lemma apply_patch_fields (b : Body) (s : Submission) :
  status (apply_patch b s) = default (status s) (b_status b)
  /\ grade (apply_patch b s) = default (grade s) (b_grade b).
Proof.
  unfold apply_patch.
  destruct (b_status b), (b_grade b), (b_error b) as [[|]|]; split; reflexivity.
Qed.

(** C2 (amended).  The statuses stored for a submission by the intake
    handler, the grading service and the two continuations of the route
    follow the documented edges only: they start at [uploading], move one
    step forward at a time, and may leave any state that is not terminal
    for [failed].  The update handler is not bound by the chain: for an
    administrator it stores whatever status the request carries, whatever
    the current one, and leaves the status alone when the request carries
    none. *)
Theorem lifecycle_of_intake_and_patch :
  (forall (E : Routes.Env) (run : Pipeline.Run) (db0 : Db) (rq : Request),
      lifecycle
        (status_history
           (fst (dispatch E (Pipeline.gradeSubmission E run) POST_grade db0 rq)))
      = true
      /\ forall st rest,
           status_history
             (fst (dispatch E (Pipeline.gradeSubmission E run) POST_grade db0 rq))
           = st :: rest -> st = uploading)
  /\ (forall (b : Body) (s : Submission),
        status (apply_patch b s) = default (status s) (b_status b))
  /\ (forall (E : Routes.Env) (G : GradingService) (db0 : Db) (rq : Request)
             (token uid : jsstring) (u : User) (s : Submission),
        authorization rq = Some (BEARER ++ token) ->
        jwt_verify E token = Some uid ->
        users db0 !! uid = Some u ->
        role u = lit "admin" ->
        submissions db0 !! param_id rq = Some s ->
        _id s = param_id rq ->
        store E (writes db0) (apply_patch (body rq) s) = None ->
        submissions (snd (dispatch E G PATCH_by_id db0 rq)) !! param_id rq
        = Some (apply_patch (body rq) s)).
Proof.
  split; [|split].
  - intros E run db0 rq. unfold dispatch. cbn [guards run_chain].
    destruct (getUserFromToken E db0 (mkCtx rq None)) as [c|r];
      [|split; [reflexivity | intros st rest [=]]].
    unfold handler, grade_submission.
    destruct (user c) as [[[|ch t] em ro]|];
      try (split; [reflexivity | intros st rest [=]]).
    destruct (save_new E _ db0) as [[m|] db1];
      [split; [reflexivity | intros st rest [=]]|].
    cbn [fst]. split.
    + apply (pipeline_task_lifecycle E run).
    + intros st rest [= <- _]. reflexivity.
  - intros b s. apply apply_patch_fields.
  - intros E G db0 rq token uid u s Hauth Hjwt Huser Hrole Hs Hid Hstore.
    rewrite (dispatch_patch_accepted E G db0 rq token uid u s) by assumption.
    apply lookup_insert_eq.
Qed.

(** The administrator of the samples sets the completed submission back
    to [uploading], and the store holds it so. *)
Lemma lifecycle_of_intake_and_patch_witness :
  submissions
    (snd (dispatch Samples.routes_env
            (Pipeline.gradeSubmission Samples.routes_env Samples.good_run)
            PATCH_by_id Samples.sample_db
            (Samples.request Samples.as_admin Samples.graded_id (Samples.status_body uploading))))
    !! Samples.graded_id
  = Some (set_status uploading Samples.graded).
Proof.
  destruct lifecycle_of_intake_and_patch as (_ & _ & H).
  apply (H Samples.routes_env _ Samples.sample_db
           (Samples.request Samples.as_admin Samples.graded_id (Samples.status_body uploading))
           (lit "admin-token") Samples.admin_id Samples.admin Samples.graded);
    reflexivity.
Defined.

(** C2, as worded, fails for the update handler: the completed record of
    the samples goes back to [uploading], which no documented edge
    allows. *)
Lemma patch_leaves_completed :
  status <$> (submissions Samples.sample_db !! Samples.graded_id) = Some completed
  /\ status <$>
       (submissions
          (snd (dispatch Samples.routes_env
                  (Pipeline.gradeSubmission Samples.routes_env Samples.good_run)
                  PATCH_by_id Samples.sample_db
                  (Samples.request Samples.as_admin Samples.graded_id
                     (Samples.status_body uploading))))
          !! Samples.graded_id)
     = Some uploading
  /\ valid_edge completed uploading = false
  /\ ~ (forall (E : Routes.Env) (G : GradingService) (db0 : Db) (rq : Request)
               (s s' : Submission),
          submissions db0 !! param_id rq = Some s ->
          submissions (snd (dispatch E G PATCH_by_id db0 rq)) !! param_id rq = Some s' ->
          status s' = status s \/ valid_edge (status s) (status s') = true).
Proof.
  split; [vm_compute; reflexivity|].
  split; [vm_compute; reflexivity|].
  split; [reflexivity|].
  intros H.
  specialize (H Samples.routes_env
                (Pipeline.gradeSubmission Samples.routes_env Samples.good_run)
                Samples.sample_db
                (Samples.request Samples.as_admin Samples.graded_id (Samples.status_body uploading))
                Samples.graded (set_status uploading Samples.graded)).
  destruct H as [H|H]; [vm_compute; reflexivity | vm_compute; reflexivity | |];
    discriminate H.
Qed.

(** C3 (amended).  Every record stored by the intake handler, the
    grading service and the two continuations of the route has grade
    [pending] while its status is not [completed] and grade [pass] or
    [fail] once it is, provided the store did not refuse the write of the
    completed record.  The update handler does not keep this: it stores
    the status and the grade the request carries, each on its own, and
    leaves alone the one the request does not carry. *)
Theorem grade_follows_status_except_patch :
  (forall (E : Routes.Env) (run : Pipeline.Run) (db0 : Db) (rq : Request),
      completed_write_refused
        (fst (dispatch E (Pipeline.gradeSubmission E run) POST_grade db0 rq)) = false ->
      forallb grade_consistent
        (saved_docs
           (fst (dispatch E (Pipeline.gradeSubmission E run) POST_grade db0 rq)))
      = true)
  /\ (forall (b : Body) (s : Submission),
        status (apply_patch b s) = default (status s) (b_status b)
        /\ grade (apply_patch b s) = default (grade s) (b_grade b))
  /\ (forall (E : Routes.Env) (G : GradingService) (db0 : Db) (rq : Request)
             (token uid : jsstring) (u : User) (s : Submission),
        authorization rq = Some (BEARER ++ token) ->
        jwt_verify E token = Some uid ->
        users db0 !! uid = Some u ->
        role u = lit "admin" ->
        submissions db0 !! param_id rq = Some s ->
        _id s = param_id rq ->
        store E (writes db0) (apply_patch (body rq) s) = None ->
        submissions (snd (dispatch E G PATCH_by_id db0 rq)) !! param_id rq
        = Some (apply_patch (body rq) s)).
Proof.
  split; [|split].
  - intros E run db0 rq. unfold dispatch. cbn [guards run_chain].
    destruct (getUserFromToken E db0 (mkCtx rq None)) as [c|r]; [|reflexivity].
    unfold handler, grade_submission.
    destruct (user c) as [[[|ch t] em ro]|]; try reflexivity.
    destruct (save_new E _ db0) as [[m|] db1]; [reflexivity|].
    cbn [fst]. intros Href.
    apply (pipeline_task_grades E run); [reflexivity | exact Href].
  - intros b s. apply apply_patch_fields.
  - intros E G db0 rq token uid u s Hauth Hjwt Huser Hrole Hs Hid Hstore.
    rewrite (dispatch_patch_accepted E G db0 rq token uid u s) by assumption.
    apply lookup_insert_eq.
Qed.

(** The sample run that passes every phase: every stored record has a
    grade that agrees with its status. *)
Lemma grade_follows_status_except_patch_witness :
  forallb grade_consistent
    (saved_docs
       (fst (dispatch Samples.routes_env
               (Pipeline.gradeSubmission Samples.routes_env Samples.good_run)
               POST_grade Samples.sample_db
               (Samples.request Samples.as_student [] Samples.empty_body))))
  = true.
Proof.
  destruct grade_follows_status_except_patch as (H & _ & _).
  apply (H Samples.routes_env Samples.good_run). reflexivity.
Defined.

(** C3, as worded, fails for the update handler: setting only the status
    of the fresh submission of the samples to [completed] stores a
    completed record whose grade is still [pending]. *)
Lemma patch_completes_without_grade :
  grade_consistent Samples.fresh = true
  /\ (fun s => (status s, grade s)) <$>
       (submissions
          (snd (dispatch Samples.routes_env
                  (Pipeline.gradeSubmission Samples.routes_env Samples.good_run)
                  PATCH_by_id Samples.sample_db
                  (Samples.request Samples.as_admin Samples.fresh_id
                     (Samples.status_body completed))))
          !! Samples.fresh_id)
     = Some (completed, pending)
  /\ ~ (forall (E : Routes.Env) (G : GradingService) (db0 : Db) (rq : Request)
               (s s' : Submission),
          submissions db0 !! param_id rq = Some s ->
          grade_consistent s = true ->
          submissions (snd (dispatch E G PATCH_by_id db0 rq)) !! param_id rq = Some s' ->
          grade_consistent s' = true).
Proof.
  split; [reflexivity|].
  split; [vm_compute; reflexivity|].
  intros H.
  specialize (H Samples.routes_env
                (Pipeline.gradeSubmission Samples.routes_env Samples.good_run)
                Samples.sample_db
                (Samples.request Samples.as_admin Samples.fresh_id (Samples.status_body completed))
                Samples.fresh (set_status completed Samples.fresh)).
  assert (Hbad : grade_consistent (set_status completed Samples.fresh) = true).
  { apply H; vm_compute; reflexivity. }
  discriminate Hbad.
Qed.

(** Left out of the statement above: when the store refuses the write
    of the completed record (the sixth write of the run), the [catch]
    continuation stores the record as [failed] with the grade the
    [then] continuation had already assigned. *)
Lemma refused_completion_keeps_grade :
  (fun s => (status s, grade s, error s)) <$>
    (submissions
       (snd (dispatch (Samples.refusing_env 5)
               (Pipeline.gradeSubmission (Samples.refusing_env 5) Samples.good_run)
               POST_grade Samples.sample_db
               (Samples.request Samples.as_student [] Samples.empty_body)))
       !! Samples.first_id)
  = Some (failed, pass, Some (lit "write failed")).
Proof. vm_compute. reflexivity. Qed.

(** ** Who may call which route *)

(** The listing, for a query the store answers: the conditions and the
    counts it was made with. *)
Lemma find_submissions_made (E : Routes.Env) (db0 : Db) (q : Query)
    (found : list Submission) :
  find_submissions E db0 q = inr found ->
  exists by_user by_status skip limit,
    condition E (lit "userId") (q_userId q) = Some by_user
    /\ condition E (lit "status") (q_status q) = Some by_status
    /\ count E (lit "skip") 0 (q_skip q) = Some skip
    /\ count E (lit "limit") 50 (q_limit q) = Some limit
    /\ found
       = limit_to limit
           (drop skip
              (sort_newest
                 (List.filter (selects by_user by_status)
                    (map snd (map_to_list (submissions db0)))))).
Proof.
  unfold find_submissions.
  destruct (condition E (lit "userId") (q_userId q)) as [by_user|]; [|discriminate].
  destruct (condition E (lit "status") (q_status q)) as [by_status|]; [|discriminate].
  destruct (count E (lit "skip") 0 (q_skip q)) as [skip|]; [|discriminate].
  destruct (count E (lit "limit") 50 (q_limit q)) as [limit|]; [|discriminate].
  intros [= <-]. exists by_user, by_status, skip, limit. repeat split.
Qed.

Lemma insert_newest_perm (s : Submission) (l : list Submission) :
  insert_newest s l ≡ₚ s :: l.
Proof.
  induction l as [|x r IH]; simpl; [reflexivity|].
  destruct (createdAt x <? createdAt s); [reflexivity|].
  rewrite IH. apply Permutation_swap.
Qed.

Lemma sort_newest_perm (l : list Submission) : sort_newest l ≡ₚ l.
Proof.
  induction l as [|x r IH]; simpl; [reflexivity|].
  rewrite insert_newest_perm, IH. reflexivity.
Qed.

Lemma stored_docs (db0 : Db) (s : Submission) :
  s ∈ map snd (map_to_list (submissions db0))
  <-> exists id, submissions db0 !! id = Some s.
Proof.
  rewrite list_elem_of_fmap. split.
  - intros ([id s'] & -> & Hin). exists id. apply elem_of_map_to_list in Hin. exact Hin.
  - intros [id Hid]. exists (id, s). split; [reflexivity|].
    apply elem_of_map_to_list. exact Hid.
Qed.





End RouteProperties.

(* ================================================================== *)
(** * Properties of the admission scheduler                            *)
(* ================================================================== *)

Section SchedulerFacts.
Import Scheduler.

Lemma remove_job_length (j : nat) (l : list nat) :
  j ∈ l -> S (length (remove_job j l)) = length l.
Proof.
  induction l as [|x r IH]; intros Hin; [inversion Hin|].
  simpl. destruct (Nat.eqb_spec x j) as [->|Hx]; [reflexivity|].
  apply elem_of_cons in Hin as [->|Hin]; [congruence|].
  simpl. rewrite (IH Hin). reflexivity.
Qed.

Lemma sched_inv_idle (N : nat) : sched_inv N idle.
Proof. repeat split; simpl; [lia | congruence]. Qed.

Lemma sched_inv_submit (N j : nat) (s : Sched) :
  sched_inv N s -> sched_inv N (submit N j s).
Proof.
  intros (Hle & Hfifo & Hfull). unfold submit.
  destruct (length (running s) <? N)%nat eqn:Hlt.
  - apply Nat.ltb_lt in Hlt.
    assert (Hw : waiting s = []).
    { destruct (waiting s) as [|h q] eqn:Hq; [reflexivity|].
      assert (length (running s) = N) by (apply Hfull; congruence). lia. }
    repeat split; simpl.
    + rewrite length_app. simpl. lia.
    + rewrite Hw in *. rewrite app_nil_r in *. congruence.
    + rewrite Hw. congruence.
  - apply Nat.ltb_ge in Hlt. repeat split; simpl.
    + exact Hle.
    + rewrite app_assoc, Hfifo. reflexivity.
    + intros _. lia.
Qed.

Lemma sched_inv_release (N j : nat) (s : Sched) :
  sched_inv N s -> sched_inv N (release j s).
Proof.
  intros (Hle & Hfifo & Hfull). unfold release.
  destruct (bool_decide (j ∈ running s)) eqn:Hj; [|repeat split; assumption].
  apply bool_decide_eq_true in Hj.
  pose proof (remove_job_length j (running s) Hj) as Hlen.
  destruct (waiting s) as [|h q] eqn:Hq.
  - repeat split; simpl; [lia | exact Hfifo | congruence].
  - assert (Hn : length (running s) = N) by (apply Hfull; congruence).
    repeat split; simpl.
    + rewrite length_app. simpl. lia.
    + rewrite <- app_assoc. exact Hfifo.
    + intros _. rewrite length_app. simpl. lia.
Qed.

Lemma reachable_inv (N : nat) (s : Sched) : reachable N s -> sched_inv N s.
Proof.
  induction 1 as [|j s _ IH|j s _ IH].
  - apply sched_inv_idle.
  - apply sched_inv_submit, IH.
  - apply sched_inv_release, IH.
Qed.

(** C1.  In every state the scheduler can reach under a budget [N], at
    most [N] jobs are in flight; the jobs started so far followed by the
    jobs still waiting are the accepted jobs in arrival order, so jobs
    start in arrival order and none is dropped; and a job waits only
    while all [N] slots are taken.  An accepted job starts at once when
    fewer than [N] are in flight and joins the end of the queue
    otherwise; when a job in flight settles, the head of the queue takes
    its slot. *)
Theorem admission_bounded_and_fifo (N : nat) (s : Sched) :
  reachable N s ->
  (length (running s) <= N)%nat
  /\ started s ++ waiting s = arrived s
  /\ (waiting s <> [] -> length (running s) = N)
  /\ (forall j, (length (running s) < N)%nat ->
        running (submit N j s) = running s ++ [j]
        /\ waiting (submit N j s) = waiting s)
  /\ (forall j, length (running s) = N ->
        running (submit N j s) = running s
        /\ waiting (submit N j s) = waiting s ++ [j])
  /\ (forall j h q, j ∈ running s -> waiting s = h :: q ->
        running (release j s) = remove_job j (running s) ++ [h]
        /\ waiting (release j s) = q
        /\ started (release j s) = started s ++ [h]).
Proof.
  intros Hreach. destruct (reachable_inv N s Hreach) as (Hle & Hfifo & Hfull).
  split; [exact Hle|]. split; [exact Hfifo|]. split; [exact Hfull|].
  split; [|split].
  - intros j Hlt. unfold submit.
    apply Nat.ltb_lt in Hlt. rewrite Hlt. split; reflexivity.
  - intros j Heq. unfold submit.
    assert (Hge : (length (running s) <? N)%nat = false) by (apply Nat.ltb_ge; lia).
    rewrite Hge. split; reflexivity.
  - intros j h q Hj Hq. unfold release.
    rewrite bool_decide_eq_true_2 by exact Hj. rewrite Hq. repeat split.
Qed.

(** Under the default budget of 10, the eleventh job waits and the other
    ten run; when job 3 settles, job 11 starts. *)
Lemma admission_bounded_and_fifo_witness :
  let full := foldl (fun s j => submit DEFAULT_LIMIT j s) idle (seq 1 11) in
  reachable DEFAULT_LIMIT full
  /\ running full = seq 1 10
  /\ waiting full = [11%nat]
  /\ running (release 3 full) = [1; 2; 4; 5; 6; 7; 8; 9; 10; 11]%nat.
Proof.
  intros full.
  assert (Hreach : reachable DEFAULT_LIMIT full).
  { unfold full. simpl. repeat apply reach_submit. apply reach_idle. }
  split; [exact Hreach|].
  split; [reflexivity|]. split; [reflexivity|].
  pose proof (admission_bounded_and_fifo DEFAULT_LIMIT full Hreach)
    as (_ & _ & _ & _ & _ & Hrel).
  destruct (Hrel 3%nat 11%nat []) as (-> & _ & _); [|reflexivity|reflexivity].
  apply list_elem_of_In. simpl. tauto.
Defined.

End SchedulerFacts.

(* ================================================================== *)
(** * Further properties of the adapter                                *)
(* ================================================================== *)

Section AdapterFurther.
Import Text Js Adapter.

Lemma sanitizeCode_app (a b : jsstring) :
  sanitizeCode (a ++ b) = sanitizeCode a ++ sanitizeCode b.
Proof.
  induction a as [|x a IH]; simpl; [reflexivity|].
  destruct (in_strip_class x); rewrite IH; reflexivity.
Qed.

Lemma sanitizeCode_clean (code : jsstring) :
  (forall c, c ∈ code -> in_strip_class c = false) -> sanitizeCode code = code.
Proof.
  induction code as [|x r IH]; intros H; simpl; [reflexivity|].
  rewrite (H x) by left. rewrite IH; [reflexivity|].
  intros c Hc. apply H. right. exact Hc.
Qed.

Lemma sanitizeCode_length (code : jsstring) :
  (length (sanitizeCode code) <= length code)%nat.
Proof.
  induction code as [|x r IH]; simpl; [lia|].
  destruct (in_strip_class x); simpl; lia.
Qed.

(** X1.  Sanitizing is idempotent, never lengthens a text, works piece
    by piece on a concatenation, and leaves a text as it is exactly when
    the text has no character of the stripped class. *)
Theorem sanitizeCode_idempotent (code more : jsstring) :
  sanitizeCode (sanitizeCode code) = sanitizeCode code
  /\ (length (sanitizeCode code) <= length code)%nat
  /\ sanitizeCode (code ++ more) = sanitizeCode code ++ sanitizeCode more
  /\ (sanitizeCode code = code <-> forall c, c ∈ code -> in_strip_class c = false).
Proof.
  split; [apply sanitizeCode_clean, sanitizeCode_class|].
  split; [apply sanitizeCode_length|].
  split; [apply sanitizeCode_app|].
  split; [|apply sanitizeCode_clean].
  intros Heq c Hc. rewrite <- Heq in Hc. exact (sanitizeCode_class code c Hc).
Qed.

Lemma clip_idempotent (s : jsstring) : clip (clip s) = clip s.
Proof.
  destruct (Nat.le_gt_cases (length s) FILE_CAP) as [H|H].
  - rewrite (clip_short s H). apply clip_short, H.
  - rewrite (clip_long s H).
    assert (Hlen : length (take FILE_CAP s) = FILE_CAP)
      by (apply length_take_le; lia).
    rewrite clip_long by (rewrite length_app, Hlen, marker_length; lia).
    rewrite take_app_length' by (symmetry; exact Hlen). reflexivity.
Qed.

(** X2.  Preparing a file's content (sanitize, then clip) a second time
    changes nothing: the truncation marker survives the sanitizer and a
    clipped text is clipped to itself. *)
Theorem file_preparation_idempotent (raw : jsstring) :
  clip (sanitizeCode (clip (sanitizeCode raw))) = clip (sanitizeCode raw).
Proof.
  rewrite (sanitizeCode_clean (clip (sanitizeCode raw))).
  - apply clip_idempotent.
  - intros c. apply clip_class. intros x. apply sanitizeCode_class.
Qed.

Lemma set_add_spec (f : jsstring) (seen : list jsstring) :
  NoDup seen ->
  NoDup (set_add f seen) /\ forall x, x ∈ set_add f seen <-> x ∈ seen \/ x = f.
Proof.
  intros Hnd. unfold set_add. destruct (bool_decide (f ∈ seen)) eqn:Hin.
  - apply bool_decide_eq_true in Hin. split; [exact Hnd|].
    intros x. split; [auto|]. intros [H| ->]; assumption.
  - apply bool_decide_eq_false in Hin. split.
    + apply NoDup_app. split; [exact Hnd|]. split; [|apply NoDup_singleton].
      intros x Hx Hf. apply list_elem_of_singleton in Hf. subst x. contradiction.
    + intros x. rewrite elem_of_app, list_elem_of_singleton. reflexivity.
Qed.

Lemma add_all_spec (fs : list jsstring) (seen : list jsstring) :
  NoDup seen ->
  NoDup (fold_left (fun acc f => set_add f acc) fs seen)
  /\ forall x, x ∈ fold_left (fun acc f => set_add f acc) fs seen
               <-> x ∈ seen \/ x ∈ fs.
Proof.
  revert seen. induction fs as [|f fs IH]; intros seen Hnd; simpl.
  - split; [exact Hnd|]. intros x. split; [auto|].
    intros [H|H]; [exact H | inversion H].
  - destruct (set_add_spec f seen Hnd) as [Hnd' Hmem].
    destruct (IH _ Hnd') as [Hnd'' Hmem'']. split; [exact Hnd''|].
    intros x. rewrite Hmem'', Hmem, elem_of_cons. tauto.
Qed.

Lemma add_matches_spec (E : Adapter.Env) (repoPath : jsstring)
    (fileGlobs : list jsstring) (seen : list jsstring) :
  NoDup seen ->
  (forall pattern, pattern ∈ fileGlobs -> exists ms, glob E pattern repoPath = inr ms) ->
  exists out,
    add_matches E repoPath fileGlobs seen = inr out
    /\ NoDup out
    /\ forall x, x ∈ out <->
         x ∈ seen
         \/ exists pattern ms,
              pattern ∈ fileGlobs /\ glob E pattern repoPath = inr ms /\ x ∈ ms.
Proof.
  revert seen. induction fileGlobs as [|g gs IH]; intros seen Hnd Hall; simpl.
  - exists seen. split; [reflexivity|]. split; [exact Hnd|].
    intros x. split; [auto|].
    intros [H|(g & ms & Hg & _)]; [exact H | inversion Hg].
  - destruct (Hall g) as [ms Hms]; [left|]. rewrite Hms.
    destruct (add_all_spec ms seen Hnd) as [Hnd' Hmem].
    destruct (IH _ Hnd') as (out & Hout & Hnd'' & Hmem'').
    { intros pattern Hp. apply Hall. right. exact Hp. }
    exists out. split; [exact Hout|]. split; [exact Hnd''|].
    intros x. rewrite Hmem'', Hmem. split.
    + intros [[H|H]|(g' & ms' & Hg' & Hgl & Hx)]; [left; exact H | right | right].
      * exists g, ms. split; [left | split; assumption].
      * exists g', ms'. split; [right; exact Hg' | split; assumption].
    + intros [H|(g' & ms' & Hg' & Hgl & Hx)]; [left; left; exact H|].
      apply elem_of_cons in Hg' as [->|Hg'].
      * left. right. rewrite Hms in Hgl. injection Hgl as <-. exact Hx.
      * right. exists g', ms'. split; [exact Hg' | split; assumption].
Qed.

Lemma add_matches_rejects (E : Adapter.Env) (repoPath : jsstring)
    (pre : list jsstring) (pattern : jsstring) (post seen : list jsstring)
    (e : Thrown) :
  (forall p, p ∈ pre -> exists ms, glob E p repoPath = inr ms) ->
  glob E pattern repoPath = inl e ->
  add_matches E repoPath (pre ++ pattern :: post) seen = inl e.
Proof.
  revert seen. induction pre as [|g gs IH]; intros seen Hall Hrej; simpl.
  - rewrite Hrej. reflexivity.
  - destruct (Hall g) as [ms Hms]; [left|]. rewrite Hms.
    apply IH; [|exact Hrej]. intros p' Hp'. apply Hall. right. exact Hp'.
Qed.

Lemma file_entry_empty (E : Adapter.Env) (repoPath file : jsstring) :
  file_entry E repoPath file = [] <-> readFile E file = None.
Proof.
  unfold file_entry. destruct (readFile E file) as [raw|].
  - split; discriminate.
  - split; reflexivity.
Qed.

Lemma entries_of_readable (E : Adapter.Env) (repoPath : jsstring)
    (files : list jsstring) :
  concat (map (file_entry E repoPath) files)
  = concat (map (file_entry E repoPath) (List.filter (readable E) files)).
Proof.
  induction files as [|f files IH]; [reflexivity|].
  simpl. unfold readable at 1.
  destruct (readFile E f) as [raw|] eqn:Hf.
  - simpl. rewrite IH. reflexivity.
  - rewrite (proj2 (file_entry_empty E repoPath f) Hf). exact IH.
Qed.

(** X3.  When every [glob] call resolves, the file section of the prompt
    is made of one entry for each file that some pattern matches and
    that can be read, each such file once however many patterns match
    it; a matched file whose read throws adds nothing.  When a [glob]
    call rejects, [readRepoFiles] rejects with its error and there is no
    file section at all. *)
Theorem prompt_files_matched_and_readable (E : Adapter.Env) (repoPath : jsstring)
    (fileGlobs : list jsstring) :
  ((forall pattern, pattern ∈ fileGlobs ->
      exists ms, glob E pattern repoPath = inr ms) ->
   exists files,
     matched_files E repoPath fileGlobs = inr files
     /\ NoDup files
     /\ (forall f, f ∈ files <->
           exists pattern ms,
             pattern ∈ fileGlobs /\ glob E pattern repoPath = inr ms /\ f ∈ ms)
     /\ readRepoFiles E repoPath fileGlobs
        = inr (concat (map (file_entry E repoPath) (List.filter (readable E) files)))
     /\ (forall f, file_entry E repoPath f = [] <-> readable E f = false))
  /\ (forall pre pattern post e,
        fileGlobs = pre ++ pattern :: post ->
        (forall p, p ∈ pre -> exists ms, glob E p repoPath = inr ms) ->
        glob E pattern repoPath = inl e ->
        readRepoFiles E repoPath fileGlobs = inl e).
Proof.
  split.
  - intros Hall.
    destruct (add_matches_spec E repoPath fileGlobs [] (NoDup_nil_2) Hall)
      as (files & Hfiles & Hnd & Hmem).
    exists files. split; [exact Hfiles|]. split; [exact Hnd|]. split; [|split].
    + intros f. rewrite Hmem. split; [intros [H|H]; [inversion H | exact H] | auto].
    + rewrite readRepoFiles_entries. unfold matched_files. rewrite Hfiles. cbn.
      f_equal. apply entries_of_readable.
    + intros f. rewrite file_entry_empty. unfold readable.
      destruct (readFile E f); split; congruence.
  - intros pre pattern post e -> Hpre Hrej.
    unfold readRepoFiles, matched_files.
    rewrite (add_matches_rejects E repoPath pre pattern post [] e Hpre Hrej).
    reflexivity.
Qed.

(** The README of the samples is matched by two patterns and enters the
    prompt once. *)
Lemma prompt_files_matched_and_readable_witness :
  readRepoFiles (Samples.adapter_env Samples.two_lines (Rejected []))
    (lit "/repo") [lit "README.md"; lit "readme.md"; lit "README.md"]
  = inr (lit "// README.md" ++ [LF; 97; LF; 98; LF; LF]).
Proof.
  pose (E := Samples.adapter_env Samples.two_lines (Rejected [])).
  destruct (prompt_files_matched_and_readable E (lit "/repo")
              [lit "README.md"; lit "readme.md"; lit "README.md"]) as [H _].
  destruct H as (files & Hfiles & _ & _ & Hread & _).
  - intros pattern Hp.
    repeat (apply elem_of_cons in Hp as [->|Hp]; [eexists; reflexivity|]).
    inversion Hp.
  - fold E. rewrite Hread.
    vm_compute in Hfiles. injection Hfiles as <-. vm_compute. reflexivity.
Defined.

Lemma upto_last_Some (c : N) (s p : jsstring) :
  upto_last c s = Some p ->
  exists mid post, s = mid ++ c :: post /\ p = mid ++ [c] /\ c ∉ post.
Proof.
  revert p. induction s as [|x r IH]; simpl; intros p H; [discriminate|].
  destruct (upto_last c r) as [q|] eqn:Hr.
  - inversion H; subst. destruct (IH q eq_refl) as (mid & post & -> & -> & Hpost).
    exists (x :: mid), post. repeat split; auto.
  - destruct (N.eqb_spec x c) as [->|Hx]; [|discriminate].
    inversion H; subst. exists [], r. repeat split.
    apply upto_last_None. exact Hr.
Qed.

(** X4.  Whatever the pattern of the fallback matches is a piece of the
    text that starts with an opening brace and ends with a closing brace,
    with no opening brace before it and no closing brace after it. *)
Theorem match_braces_shape (content span : jsstring) :
  match_braces content = Some span ->
  exists pre mid post,
    content = pre ++ span ++ post
    /\ span = LBRACE :: mid ++ [RBRACE]
    /\ (LBRACE ∉ pre) /\ (RBRACE ∉ post).
Proof.
  unfold match_braces. intros H.
  destruct (from_first LBRACE content) as [[|b r]|] eqn:Hf; try discriminate.
  destruct (upto_last RBRACE r) as [p|] eqn:Hu; [|discriminate].
  inversion H; subst.
  apply from_first_Some in Hf as (pre & rest & -> & Heq & Hpre).
  inversion Heq; subst.
  apply upto_last_Some in Hu as (mid & post & -> & -> & Hpost).
  exists pre, mid, post. repeat split; try assumption.
  simpl. rewrite <- app_assoc. reflexivity.
Qed.

Lemma match_braces_shape_witness :
  exists pre mid post,
    Samples.brace_reply = pre ++ (qlit "{'score': 5}" ++ lit " (use }") ++ post
    /\ qlit "{'score': 5}" ++ lit " (use }" = LBRACE :: mid ++ [RBRACE]
    /\ (LBRACE ∉ pre) /\ (RBRACE ∉ post).
Proof.
  apply (match_braces_shape Samples.brace_reply). vm_compute. reflexivity.
Defined.

(** X5.  For a native project the two scores stand or fall together:
    when the reply's object has numbers in both fields they are returned
    as they are, and when either field is missing or not a number both
    scores come back as zero, the valid one included. *)
Theorem native_scores_all_or_nothing (E : Adapter.Env) (repoPath : jsstring)
    (testResult rubric : JsValue) (fileGlobs : option (list jsstring))
    (npm : JsValue) (log : Log) (prompt content : jsstring)
    (fields : list (jsstring * JsValue)) :
  prompt_of E repoPath testResult rubric fileGlobs npm (Some (lit "c")) = inr prompt ->
  service E (length log) prompt = Completed content ->
  safeJsonParse E content = JObject fields ->
  let smell := default JUndefined (lookup_field (lit "codeSmellScore") fields) in
  let quality := default JUndefined (lookup_field (lit "codeQualityScore") fields) in
  exists a,
    fst (analyzeCode E repoPath testResult rubric fileGlobs npm (Some (lit "c")) log)
      = inr a
    /\ scores_of a
       = if is_number smell && is_number quality
         then [quality; smell] else [js_zero; js_zero].
Proof.
  intros Hp Hsvc Hobj smell quality.
  rewrite analyzeCode_run, Hp.
  unfold try_catch, bind, chat_create, read_reply. rewrite Hsvc. cbn [fst snd].
  rewrite Hobj. unfold eval, ret. cbn. fold smell quality.
  eexists. split; [reflexivity|]. cbn.
  destruct (is_number smell), (is_number quality); reflexivity.
Qed.

Lemma native_scores_all_or_nothing_witness :
  exists a,
    fst (analyzeCode
           (Samples.adapter_env [] (Completed (qlit "{'codeSmellScore': 70, 'report': 'r'}")))
           (lit "/repo") JNull JUndefined None JUndefined (Some (lit "c")) [])
      = inr a
    /\ scores_of a = [js_zero; js_zero].
Proof.
  pose (E := Samples.adapter_env []
               (Completed (qlit "{'codeSmellScore': 70, 'report': 'r'}"))).
  destruct (prompt_of E (lit "/repo") JNull JUndefined None JUndefined (Some (lit "c")))
    as [e|prompt] eqn:Hp; [vm_compute in Hp; discriminate Hp|].
  apply (native_scores_all_or_nothing E
           (lit "/repo") JNull JUndefined None JUndefined [] prompt
           (qlit "{'codeSmellScore': 70, 'report': 'r'}")
           [ (lit "codeSmellScore", JNumber (mkNum 70 0));
             (lit "report", JString (lit "r")) ]).
  - exact Hp.
  - reflexivity.
  - vm_compute. reflexivity.
Defined.

(** X6.  For a project that is not native the score is read from the
    field [score] alone: a reply whose object has no such field gets the
    score zero, whatever its [codeQualityScore] (the field the prompt
    asks for) holds. *)
Theorem web_score_needs_score_field (E : Adapter.Env) (repoPath : jsstring)
    (testResult rubric : JsValue) (fileGlobs : option (list jsstring))
    (npm : JsValue) (projectType : option jsstring) (log : Log)
    (prompt content : jsstring) (fields : list (jsstring * JsValue)) :
  is_native projectType = false ->
  prompt_of E repoPath testResult rubric fileGlobs npm projectType = inr prompt ->
  service E (length log) prompt = Completed content ->
  safeJsonParse E content = JObject fields ->
  lookup_field (lit "score") fields = None ->
  fst (analyzeCode E repoPath testResult rubric fileGlobs npm projectType log)
  = inr (WebAnalysis js_zero
           (js_or (default JUndefined (lookup_field (lit "report") fields)) NO_ANALYSIS)).
Proof.
  intros Hweb Hp Hsvc Hobj Hscore.
  rewrite analyzeCode_run, Hp.
  unfold try_catch, bind, chat_create, read_reply. rewrite Hsvc. cbn [fst snd].
  rewrite Hobj, Hweb. unfold eval, ret. cbn.
  rewrite Hscore. reflexivity.
Qed.

Lemma web_score_needs_score_field_witness :
  fst (analyzeCode
         (Samples.adapter_env []
            (Completed (qlit "{'codeQualityScore': 85, 'testScore': 90, 'report': 'r'}")))
         (lit "/repo") JNull JUndefined None JUndefined (Some (lit "express")) [])
  = inr (WebAnalysis js_zero (JString (lit "r"))).
Proof.
  pose (E := Samples.adapter_env []
               (Completed (qlit "{'codeQualityScore': 85, 'testScore': 90, 'report': 'r'}"))).
  destruct (prompt_of E (lit "/repo") JNull JUndefined None JUndefined
              (Some (lit "express"))) as [e|prompt] eqn:Hp;
    [vm_compute in Hp; discriminate Hp|].
  fold E.
  rewrite (web_score_needs_score_field E
             (lit "/repo") JNull JUndefined None JUndefined (Some (lit "express")) []
             prompt
             (qlit "{'codeQualityScore': 85, 'testScore': 90, 'report': 'r'}")
             [ (lit "codeQualityScore", JNumber (mkNum 85 0));
               (lit "testScore", JNumber (mkNum 90 0));
               (lit "report", JString (lit "r")) ]).
  - vm_compute. reflexivity.
  - reflexivity.
  - exact Hp.
  - reflexivity.
  - vm_compute. reflexivity.
  - vm_compute. reflexivity.
Defined.

(** X7.  A reply that decodes to [null] does not make the adapter throw:
    reading the first field raises a [TypeError] inside the [try], and
    the result is the degraded one, every score zero and a report that
    starts with [AI analysis failed:]. *)
Theorem null_reply_degrades (E : Adapter.Env) (repoPath : jsstring)
    (testResult rubric : JsValue) (fileGlobs : option (list jsstring))
    (npm : JsValue) (projectType : option jsstring) (log : Log)
    (prompt content : jsstring) :
  prompt_of E repoPath testResult rubric fileGlobs npm projectType = inr prompt ->
  service E (length log) prompt = Completed content ->
  safeJsonParse E content = JNull ->
  exists a message,
    fst (analyzeCode E repoPath testResult rubric fileGlobs npm projectType log) = inr a
    /\ Forall (eq js_zero) (scores_of a)
    /\ report_of a = JString (lit "AI analysis failed: " ++ message).
Proof.
  intros Hp Hsvc Hnull.
  rewrite analyzeCode_run, Hp.
  unfold try_catch, bind, chat_create, read_reply. rewrite Hsvc. cbn [fst snd].
  rewrite Hnull. unfold eval, ret, degraded.
  destruct (is_native projectType); cbn;
    eexists; eexists; (split; [reflexivity|]); cbn; split; auto.
Qed.

Lemma null_reply_degrades_witness :
  exists a message,
    fst (analyzeCode (Samples.adapter_env [] (Completed (lit "null")))
           (lit "/repo") JNull JUndefined None JUndefined (Some (lit "express")) [])
      = inr a
    /\ Forall (eq js_zero) (scores_of a)
    /\ report_of a = JString (lit "AI analysis failed: " ++ message).
Proof.
  pose (E := Samples.adapter_env [] (Completed (lit "null"))).
  destruct (prompt_of E (lit "/repo") JNull JUndefined None JUndefined
              (Some (lit "express"))) as [e|prompt] eqn:Hp;
    [vm_compute in Hp; discriminate Hp|].
  apply (null_reply_degrades E
           (lit "/repo") JNull JUndefined None JUndefined (Some (lit "express")) []
           prompt (lit "null")).
  - exact Hp.
  - reflexivity.
  - vm_compute. reflexivity.
Defined.

End AdapterFurther.

(* ================================================================== *)
(** * Further properties of the submission routes                      *)
(* ================================================================== *)

Section RouteFurther.
Import Text Js Model Routes.

(** The two guards of the administrative routes, for a verified token. *)
Lemma admin_guards (E : Routes.Env) (db0 : Db) (rq : Request)
    (token uid : jsstring) (u : User) :
  authorization rq = Some (BEARER ++ token) ->
  jwt_verify E token = Some uid ->
  users db0 !! uid = Some u ->
  run_chain [getUserFromToken; requireAdmin] E db0 (mkCtx rq None)
  = if bool_decide (role u = lit "admin")
    then Next (mkCtx rq (Some u))
    else End (Json 403 (PError (lit "Admin access required"))).
Proof.
  intros Hauth Hjwt Huser. cbn [run_chain].
  rewrite (getUserFromToken_accepts E db0 rq None token uid u Hauth Hjwt Huser).
  unfold requireAdmin. cbn [user].
  destruct (bool_decide (role u = lit "admin")); reflexivity.
Qed.

(** X8.  A caller with a valid token whose role is not [admin] cannot
    update or delete a submission: both routes answer 403 and the store
    stays as it was. *)
Theorem non_admin_is_forbidden (E : Routes.Env) (G : GradingService) (db0 : Db)
    (rq : Request) (token uid : jsstring) (u : User) (r : Route) :
  r ∈ [PATCH_by_id; DELETE_by_id] ->
  authorization rq = Some (BEARER ++ token) ->
  jwt_verify E token = Some uid ->
  users db0 !! uid = Some u ->
  role u <> lit "admin" ->
  dispatch E G r db0 rq
  = ([Responded (Json 403 (PError (lit "Admin access required")))], db0).
Proof.
  intros Hr Hauth Hjwt Huser Hrole. unfold dispatch.
  repeat (apply elem_of_cons in Hr as [->|Hr];
          [cbn [guards];
           rewrite (admin_guards E db0 rq token uid u Hauth Hjwt Huser);
           rewrite bool_decide_eq_false_2 by exact Hrole; reflexivity|]).
  inversion Hr.
Qed.

Lemma non_admin_is_forbidden_witness :
  dispatch Samples.routes_env
    (Pipeline.gradeSubmission Samples.routes_env Samples.good_run)
    DELETE_by_id Samples.sample_db
    (Samples.request Samples.as_student Samples.graded_id Samples.empty_body)
  = ([Responded (Json 403 (PError (lit "Admin access required")))], Samples.sample_db).
Proof.
  apply (non_admin_is_forbidden Samples.routes_env _ Samples.sample_db
           (Samples.request Samples.as_student Samples.graded_id Samples.empty_body)
           (lit "student-token") Samples.student_id Samples.student DELETE_by_id).
  - apply elem_of_cons. right. left.
  - reflexivity.
  - reflexivity.
  - reflexivity.
  - discriminate.
Defined.

(** X9.  After an administrator deletes a submission the route answers
    that it is deleted, fetching it answers 404 under any header (the
    cast error of the query would be passed on instead if the id were a
    string that does not cast, which the id of a stored document is
    not), every other submission is still there unchanged, and the users
    are untouched. *)
Theorem delete_then_not_found (E : Routes.Env) (G : GradingService) (db0 : Db)
    (rq : Request) (token uid : jsstring) (u : User) (s : Submission) :
  authorization rq = Some (BEARER ++ token) ->
  jwt_verify E token = Some uid ->
  users db0 !! uid = Some u ->
  role u = lit "admin" ->
  submissions db0 !! param_id rq = Some s ->
  fst (dispatch E G DELETE_by_id db0 rq)
    = [Responded (Json 200 (PMessage (lit "Submission deleted")))]
  /\ (forall a,
        fst (dispatch E G GET_by_id (snd (dispatch E G DELETE_by_id db0 rq))
               (with_authorization a rq))
        = [Responded
             match cast_failure E (param_id rq) with
             | None => Json 404 (PError (lit "Submission not found"))
             | Some m => NextError m
             end])
  /\ (forall id, id <> param_id rq ->
        submissions (snd (dispatch E G DELETE_by_id db0 rq)) !! id
        = submissions db0 !! id)
  /\ users (snd (dispatch E G DELETE_by_id db0 rq)) = users db0.
Proof.
  intros Hauth Hjwt Huser Hrole Hs.
  assert (Hd : dispatch E G DELETE_by_id db0 rq
               = ([Responded (Json 200 (PMessage (lit "Submission deleted")))],
                  mkDb (delete (param_id rq) (submissions db0)) (users db0)
                       (S (writes db0)))).
  { unfold dispatch. cbn [guards].
    rewrite (admin_guards E db0 rq token uid u Hauth Hjwt Huser).
    rewrite bool_decide_eq_true_2 by exact Hrole.
    unfold handler, delete_submission. cbn [req].
    rewrite (findById_stored E db0 _ s Hs). reflexivity. }
  rewrite Hd. cbn [fst snd]. split; [reflexivity|]. split; [|split].
  - intros a. unfold dispatch, handler, get_submission, respond, findById.
    cbn [guards run_chain req with_authorization param_id submissions fst snd].
    rewrite lookup_delete_eq.
    destruct (cast_failure E (param_id rq)); reflexivity.
  - intros id Hid. cbn [submissions]. apply lookup_delete_ne. congruence.
  - reflexivity.
Qed.

Lemma delete_then_not_found_witness :
  fst (dispatch Samples.routes_env
         (Pipeline.gradeSubmission Samples.routes_env Samples.good_run) GET_by_id
         (snd (dispatch Samples.routes_env
                 (Pipeline.gradeSubmission Samples.routes_env Samples.good_run)
                 DELETE_by_id Samples.sample_db
                 (Samples.request Samples.as_admin Samples.graded_id Samples.empty_body)))
         (with_authorization None
            (Samples.request Samples.as_admin Samples.graded_id Samples.empty_body)))
  = [Responded (Json 404 (PError (lit "Submission not found")))].
Proof.
  pose proof (delete_then_not_found Samples.routes_env
                (Pipeline.gradeSubmission Samples.routes_env Samples.good_run)
                Samples.sample_db
                (Samples.request Samples.as_admin Samples.graded_id Samples.empty_body)
                (lit "admin-token") Samples.admin_id Samples.admin Samples.graded
                eq_refl eq_refl eq_refl eq_refl eq_refl)
    as (_ & H & _ & _).
  apply H.
Defined.



(** X11.  An update touches the status, the grade and the error of a
    record and nothing else; applying the same update twice is the same
    as applying it once; and no update removes an error that is set,
    since an absent or empty error in the request is ignored. *)
Theorem patch_touches_three_fields (b : Body) (s : Submission) :
  (_id (apply_patch b s) = _id s
   /\ githubUrl (apply_patch b s) = githubUrl s
   /\ rubric (apply_patch b s) = rubric s
   /\ projectType (apply_patch b s) = projectType s
   /\ userId (apply_patch b s) = userId s
   /\ scores (apply_patch b s) = scores s
   /\ report (apply_patch b s) = report s
   /\ metadata (apply_patch b s) = metadata s
   /\ createdAt (apply_patch b s) = createdAt s)
  /\ apply_patch b (apply_patch b s) = apply_patch b s
  /\ (is_Some (error s) -> is_Some (error (apply_patch b s)))
  /\ (b_status b = None -> b_grade b = None -> given (b_error b) = None ->
      apply_patch b s = s).
Proof.
  unfold apply_patch, given.
  destruct s, (b_status b), (b_grade b), (b_error b) as [[|]|]; cbn;
    repeat split; auto; try discriminate; eauto.
Qed.

(** X12.  What an accepted update answers is what fetching the record
    answers afterwards, under any header. *)
Theorem patch_then_get (E : Routes.Env) (G : GradingService) (db0 : Db)
    (rq : Request) (token uid : jsstring) (u : User) (s : Submission) :
  authorization rq = Some (BEARER ++ token) ->
  jwt_verify E token = Some uid ->
  users db0 !! uid = Some u ->
  role u = lit "admin" ->
  submissions db0 !! param_id rq = Some s ->
  _id s = param_id rq ->
  store E (writes db0) (apply_patch (body rq) s) = None ->
  forall a,
    fst (dispatch E G GET_by_id (snd (dispatch E G PATCH_by_id db0 rq))
           (with_authorization a rq))
    = fst (dispatch E G PATCH_by_id db0 rq).
Proof.
  intros Hauth Hjwt Huser Hrole Hs Hid Hstore a.
  rewrite (dispatch_patch_accepted E G db0 rq token uid u s) by assumption.
  cbn [fst snd]. unfold dispatch, handler, get_submission, respond, findById.
  cbn [guards run_chain req with_authorization param_id submissions fst snd].
  rewrite lookup_insert_eq. reflexivity.
Qed.

Lemma patch_then_get_witness :
  fst (dispatch Samples.routes_env
         (Pipeline.gradeSubmission Samples.routes_env Samples.good_run) GET_by_id
         (snd (dispatch Samples.routes_env
                 (Pipeline.gradeSubmission Samples.routes_env Samples.good_run)
                 PATCH_by_id Samples.sample_db
                 (Samples.request Samples.as_admin Samples.fresh_id (Samples.status_body failed))))
         (with_authorization None
            (Samples.request Samples.as_admin Samples.fresh_id (Samples.status_body failed))))
  = [Responded (Json 200 (PSubmission (set_status failed Samples.fresh)))].
Proof.
  rewrite (patch_then_get Samples.routes_env
             (Pipeline.gradeSubmission Samples.routes_env Samples.good_run)
             Samples.sample_db
             (Samples.request Samples.as_admin Samples.fresh_id (Samples.status_body failed))
             (lit "admin-token") Samples.admin_id Samples.admin Samples.fresh);
    reflexivity.
Defined.

(** ** The listing *)

Lemma insert_newest_sorted (s : Submission) (l : list Submission) :
  StronglySorted (fun a b => createdAt b <= createdAt a) l ->
  StronglySorted (fun a b => createdAt b <= createdAt a) (insert_newest s l).
Proof.
  induction 1 as [|x r Hr IH Hx]; simpl.
  - repeat constructor.
  - destruct (N.ltb_spec (createdAt x) (createdAt s)) as [Hlt|Hge].
    + constructor; [constructor; assumption|].
      constructor; [lia|].
      eapply Forall_impl; [exact Hx|]. simpl. intros y Hy. lia.
    + constructor; [exact IH|].
      rewrite (insert_newest_perm s r). constructor; [exact Hge | exact Hx].
Qed.

Lemma sort_newest_sorted (l : list Submission) :
  StronglySorted (fun a b => createdAt b <= createdAt a) (sort_newest l).
Proof.
  induction l as [|x r IH]; simpl; [constructor|].
  apply insert_newest_sorted, IH.
Qed.

Lemma sorted_take {A} (R : A -> A -> Prop) (n : nat) (l : list A) :
  StronglySorted R l -> StronglySorted R (take n l).
Proof.
  intros H. revert n. induction H as [|x r Hr IH Hx]; intros [|n]; simpl;
    try constructor.
  - apply IH.
  - apply Forall_take, Hx.
Qed.

Lemma sorted_drop {A} (R : A -> A -> Prop) (n : nat) (l : list A) :
  StronglySorted R l -> StronglySorted R (drop n l).
Proof.
  intros H. revert n. induction H as [|x r Hr IH Hx]; intros [|n]; simpl.
  - constructor.
  - constructor.
  - constructor; assumption.
  - apply IH.
Qed.

Lemma limit_to_subseteq (n : nat) (l : list Submission) : limit_to n l ⊆ l.
Proof. destruct n; simpl; [reflexivity | apply (subseteq_take (S n))]. Qed.

(** The condition of a filter given as a string that is not empty. *)
Lemma condition_text (E : Routes.Env) (path : jsstring) (c : N) (t : jsstring) :
  condition E path (Some (QText (c :: t)))
  = Some (fun x => bool_decide (x = c :: t)).
Proof. reflexivity. Qed.

(** Every row of a listing satisfies the two conditions of its query. *)
Lemma listing_rows (E : Routes.Env) (db0 : Db) (q : Query) (found : list Submission) :
  find_submissions E db0 q = inr found ->
  exists by_user by_status,
    condition E (lit "userId") (q_userId q) = Some by_user
    /\ condition E (lit "status") (q_status q) = Some by_status
    /\ forall s, s ∈ found ->
         by_user (userId s) = true /\ by_status (status_name (status s)) = true.
Proof.
  intros Hfound.
  destruct (find_submissions_made E db0 q found Hfound)
    as (by_user & by_status & skip & limit & Hu & Hst & _ & _ & ->).
  exists by_user, by_status. split; [exact Hu|]. split; [exact Hst|].
  intros s Hs.
  apply limit_to_subseteq in Hs. apply subseteq_drop in Hs.
  rewrite sort_newest_perm in Hs.
  apply list_elem_of_In, filter_In in Hs as [_ Hsel].
  unfold selects in Hsel. apply andb_true_iff in Hsel. exact Hsel.
Qed.

(** X13.  Every submission in a listing is held by the store and
    satisfies the conditions of the query, the owner filter and the
    status filter both, which for a filter given as a string is equality
    with that string; and unless the limit is 0 the listing has at most
    as many entries as the limit, which is 50 when the query gives none
    and the number written when it is a short run of digits. *)
Theorem listing_filtered_and_bounded (E : Routes.Env) (db0 : Db) (q : Query)
    (found : list Submission) :
  find_submissions E db0 q = inr found ->
  exists by_user by_status limit,
    condition E (lit "userId") (q_userId q) = Some by_user
    /\ condition E (lit "status") (q_status q) = Some by_status
    /\ count E (lit "limit") 50 (q_limit q) = Some limit
    /\ (forall s, s ∈ found ->
          by_user (userId s) = true
          /\ by_status (status_name (status s)) = true
          /\ exists id, submissions db0 !! id = Some s)
    /\ (forall c t s, q_userId q = Some (QText (c :: t)) -> s ∈ found ->
          userId s = c :: t)
    /\ (forall c t s, q_status q = Some (QText (c :: t)) -> s ∈ found ->
          status_name (status s) = c :: t)
    /\ (limit <> 0%nat -> (length found <= limit)%nat)
    /\ (q_limit q = None -> limit = 50%nat)
    /\ (forall digits n, q_limit q = Some (QText digits) ->
          short_decimal digits = Some n -> limit = n).
Proof.
  intros Hfound.
  destruct (find_submissions_made E db0 q found Hfound)
    as (by_user & by_status & skip & limit & Hu & Hst & _ & Hl & ->).
  exists by_user, by_status, limit.
  split; [exact Hu|]. split; [exact Hst|]. split; [exact Hl|].
  assert (Hin : forall s,
            s ∈ limit_to limit
                  (drop skip
                     (sort_newest
                        (List.filter (selects by_user by_status)
                           (map snd (map_to_list (submissions db0)))))) ->
            by_user (userId s) = true
            /\ by_status (status_name (status s)) = true
            /\ exists id, submissions db0 !! id = Some s).
  { intros s Hs.
    apply limit_to_subseteq in Hs. apply subseteq_drop in Hs.
    rewrite sort_newest_perm in Hs.
    apply list_elem_of_In, filter_In in Hs as [Hdoc Hsel].
    unfold selects in Hsel. apply andb_true_iff in Hsel as [H1 H2].
    split; [exact H1|]. split; [exact H2|].
    apply stored_docs, list_elem_of_In. exact Hdoc. }
  split; [exact Hin|]. split; [|split; [|split; [|split]]].
  - intros c t s Hq Hs. rewrite Hq, condition_text in Hu. injection Hu as <-.
    destruct (Hin s Hs) as (H1 & _ & _). apply bool_decide_eq_true in H1. exact H1.
  - intros c t s Hq Hs. rewrite Hq, condition_text in Hst. injection Hst as <-.
    destruct (Hin s Hs) as (_ & H2 & _). apply bool_decide_eq_true in H2. exact H2.
  - intros Hlim. destruct limit as [|n]; [congruence|].
    simpl. rewrite length_take. lia.
  - intros Hq. rewrite Hq in Hl. injection Hl as <-. reflexivity.
  - intros digits n Hq Hn. rewrite Hq in Hl. cbn [count] in Hl. rewrite Hn in Hl.
    injection Hl as <-. reflexivity.
Qed.

(** The submissions of the student, one at most: the newest. *)
Lemma listing_filtered_and_bounded_witness :
  find_submissions Samples.routes_env Samples.sample_db
    (mkQuery (Some (QText Samples.student_id)) None (Some (QText (lit "1"))) None)
  = inr [Samples.fresh]
  /\ (length [Samples.fresh] <= 1)%nat.
Proof.
  assert (Hrun :
    find_submissions Samples.routes_env Samples.sample_db
      (mkQuery (Some (QText Samples.student_id)) None (Some (QText (lit "1"))) None)
    = inr [Samples.fresh]) by (vm_compute; reflexivity).
  split; [exact Hrun|].
  destruct (listing_filtered_and_bounded Samples.routes_env Samples.sample_db
              (mkQuery (Some (QText Samples.student_id)) None
                 (Some (QText (lit "1"))) None)
              [Samples.fresh] Hrun)
    as (by_user & by_status & limit & _ & _ & _ & _ & _ & _ & Hlen & _ & Hdigits).
  rewrite (Hdigits (lit "1") 1%nat eq_refl eq_refl) in Hlen.
  apply Hlen. discriminate.
Defined.

(** X14.  A listing is ordered newest first: no entry is older than an
    entry that comes after it, whatever the filters, the skip and the
    limit. *)
Theorem listing_newest_first (E : Routes.Env) (db0 : Db) (q : Query)
    (found : list Submission) :
  find_submissions E db0 q = inr found ->
  StronglySorted (fun a b => createdAt b <= createdAt a) found.
Proof.
  intros Hfound.
  destruct (find_submissions_made E db0 q found Hfound)
    as (by_user & by_status & skip & limit & _ & _ & _ & _ & ->).
  unfold limit_to. destruct limit.
  - apply sorted_drop, sort_newest_sorted.
  - apply sorted_take, sorted_drop, sort_newest_sorted.
Qed.

(** The listing of the samples without parameters: the fresh submission
    before the graded one. *)
Lemma listing_newest_first_witness :
  find_submissions Samples.routes_env Samples.sample_db Samples.no_query
  = inr [Samples.fresh; Samples.graded]
  /\ StronglySorted (fun a b => createdAt b <= createdAt a)
       [Samples.fresh; Samples.graded].
Proof.
  assert (Hrun :
    find_submissions Samples.routes_env Samples.sample_db Samples.no_query
    = inr [Samples.fresh; Samples.graded]) by (vm_compute; reflexivity).
  split; [exact Hrun|].
  exact (listing_newest_first Samples.routes_env Samples.sample_db Samples.no_query
           [Samples.fresh; Samples.graded] Hrun).
Defined.

(** X15.  A status filter given as a string that names none of the seven
    statuses gives an empty listing: it is compared with the stored
    status as a string and matches nothing.  The route does not check
    that the filter is a string: a value of another shape is handed to
    the store as it is, and the listing is then what the store's reading
    of that value selects. *)
Theorem unknown_status_lists_nothing (E : Routes.Env) (db0 : Db) (q : Query) :
  (forall c t found,
     q_status q = Some (QText (c :: t)) ->
     (forall st, status_name st <> c :: t) ->
     find_submissions E db0 q = inr found ->
     found = [])
  /\ (forall v found by_status s,
        q_status q = Some v ->
        (forall text, v <> QText text) ->
        find_submissions E db0 q = inr found ->
        operator E (lit "status") v = Some by_status ->
        s ∈ found -> by_status (status_name (status s)) = true).
Proof.
  split.
  - intros c t found Hq Hname Hfound.
    destruct (find_submissions_made E db0 q found Hfound)
      as (by_user & by_status & skip & limit & _ & Hst & _ & _ & ->).
    rewrite Hq, condition_text in Hst. injection Hst as <-.
    assert (Hnone : List.filter
                      (selects by_user (fun x => bool_decide (x = c :: t)))
                      (map snd (map_to_list (submissions db0))) = []).
    { clear Hfound.
      induction (map snd (map_to_list (submissions db0))) as [|x r IH]; [reflexivity|].
      simpl. rewrite IH.
      assert (Hx : selects by_user (fun x => bool_decide (x = c :: t)) x = false).
      { unfold selects.
        rewrite (bool_decide_eq_false_2 _ (Hname (status x))).
        apply andb_false_r. }
      rewrite Hx. reflexivity. }
    rewrite Hnone. simpl. rewrite drop_nil.
    destruct limit; reflexivity.
  - intros v found by_status s Hq Hshape Hfound Hop Hs.
    destruct (listing_rows E db0 q found Hfound)
      as (by_user & by_status' & Hu & Hst & Hin).
    assert (Hsame : by_status' = by_status).
    { rewrite Hq in Hst. unfold condition, supplied in Hst.
      destruct v as [[|c t]|items|fields];
        try (exfalso; eapply Hshape; reflexivity); congruence. }
    subst by_status'. exact (proj2 (Hin s Hs)).
Qed.

(** The misspelt status [complete] lists nothing, while the operator
    object [{ $ne: complete }] lists both submissions of the samples. *)
Lemma unknown_status_lists_nothing_witness :
  find_submissions Samples.routes_env Samples.sample_db
    (mkQuery None (Some (QText (lit "complete"))) None None) = inr []
  /\ find_submissions Samples.routes_env Samples.sample_db
       (mkQuery None (Some (QObject [(lit "$ne", QText (lit "complete"))])) None None)
     = inr [Samples.fresh; Samples.graded].
Proof.
  split; [|vm_compute; reflexivity].
  destruct (unknown_status_lists_nothing Samples.routes_env Samples.sample_db
              (mkQuery None (Some (QText (lit "complete"))) None None)) as [H _].
  destruct (find_submissions Samples.routes_env Samples.sample_db
              (mkQuery None (Some (QText (lit "complete"))) None None))
    as [m|found] eqn:Hrun; [vm_compute in Hrun; discriminate Hrun|].
  rewrite (H 99 (lit "omplete") found eq_refl); [reflexivity | | reflexivity].
  intros []; discriminate.
Defined.

(** ** The grading task *)

(** X16.  When the grading service resolves with a result and the store
    takes the write, the stored record is [completed] with the grade,
    the scores and the report of the result, nothing else is answered to
    the caller, and the report can then be downloaded under the
    record's id. *)
Theorem pipeline_success_written_back
    (E : Routes.Env) (G : GradingService) (db0 db1 : Db) (rq : Request)
    (token uid : jsstring) (u : User)
    (result : GradingResult) (t1 : TaskState) (ev : list Event) :
  authorization rq = Some (BEARER ++ token) ->
  jwt_verify E token = Some uid ->
  users db0 !! uid = Some u ->
  user_id u <> [] ->
  save_new E (new_submission E db0 (body rq) (user_id u)) db0 = (None, db1) ->
  let s0 := new_submission E db0 (body rq) (user_id u) in
  G s0 (b_fileGlobs (body rq)) (mkTask s0 db1) = (inr result, t1, ev) ->
  let written :=
    set_report (r_report result)
      (set_scores (Some (r_scores result))
         (set_grade (r_grade result) (set_status completed (doc t1)))) in
  store E (writes (db t1)) written = None ->
  fst (dispatch E G POST_grade db0 rq)
    = [ Saved s0; GradeCalled (_id s0);
        Responded (Json 202 (PSubmissionId (_id s0))) ] ++ ev ++ [Saved written]
  /\ submissions (snd (dispatch E G POST_grade db0 rq)) !! _id written = Some written
  /\ status written = completed
  /\ grade written = r_grade result
  /\ scores written = Some (r_scores result)
  /\ report written = r_report result
  /\ (forall rq' ch t,
        param_id rq' = _id written ->
        r_report result = Some (ch :: t) ->
        fst (dispatch E G GET_report (snd (dispatch E G POST_grade db0 rq)) rq')
        = [Responded (Send 200 (report_headers written) (ch :: t))]).
Proof.
  intros Hauth Hjwt Huser Hid Hsave s0 Hres written Hstore.
  rewrite (dispatch_grade_accepted E G db0 db1 rq token uid u Hauth Hjwt Huser Hid Hsave).
  cbv zeta. fold s0.
  unfold grading_task, or_else, and_then. rewrite Hres.
  unfold on_fulfilled, and_then, assign, persist, save. cbn [doc db fst snd].
  fold written. rewrite Hstore. cbn [fst snd settle db submissions].
  split; [reflexivity|].
  split; [apply lookup_insert_eq|].
  repeat (split; [reflexivity|]).
  intros rq' ch t Hp Hrep.
  unfold dispatch, handler, get_report, respond, findById.
  cbn [guards run_chain req fst snd submissions]. rewrite Hp, lookup_insert_eq.
  change (report written) with (r_report result). rewrite Hrep. reflexivity.
Qed.

Lemma pipeline_success_written_back_witness :
  (fun s => (status s, grade s, report s)) <$>
    (submissions (snd (dispatch Samples.routes_env
                         (Pipeline.gradeSubmission Samples.routes_env Samples.good_run)
                         POST_grade Samples.sample_db
                         (Samples.request Samples.as_student [] Samples.empty_body)))
       !! Samples.first_id)
  = Some (completed, pass, Some (lit "# Report")).
Proof.
  pose (s0 := new_submission Samples.routes_env Samples.sample_db
                Samples.empty_body Samples.student_id).
  pose (db1 := snd (save_new Samples.routes_env s0 Samples.sample_db)).
  pose (out := Pipeline.gradeSubmission Samples.routes_env Samples.good_run
                 s0 None (mkTask s0 db1)).
  pose proof (pipeline_success_written_back Samples.routes_env
                (Pipeline.gradeSubmission Samples.routes_env Samples.good_run)
                Samples.sample_db db1
                (Samples.request Samples.as_student [] Samples.empty_body)
                (lit "student-token") Samples.student_id Samples.student
                (mkResult pass ((mkScores 90 100 80 [])) (Some (lit "# Report")))
                (snd (fst out)) (snd out)
                eq_refl eq_refl eq_refl) as H.
  cbv zeta in H.
  destruct H as (_ & Hdb & _); [discriminate | reflexivity | reflexivity | reflexivity |].
  exact (f_equal (fmap (fun s => (status s, grade s, report s))) Hdb).
Defined.

(** X17.  When the store refuses the first save of a new submission the
    error goes to the error middleware, the grading service is never
    called, and no submission is added or changed. *)
Theorem refused_intake_starts_nothing
    (E : Routes.Env) (G : GradingService) (db0 db1 : Db) (rq : Request)
    (token uid : jsstring) (u : User) (m : jsstring) :
  authorization rq = Some (BEARER ++ token) ->
  jwt_verify E token = Some uid ->
  users db0 !! uid = Some u ->
  user_id u <> [] ->
  save_new E (new_submission E db0 (body rq) (user_id u)) db0 = (Some m, db1) ->
  dispatch E G POST_grade db0 rq
    = ([ SaveRefused (new_submission E db0 (body rq) (user_id u)) m;
         Responded (NextError m) ], db1)
  /\ submissions db1 = submissions db0
  /\ users db1 = users db0.
Proof.
  intros Hauth Hjwt Huser Hid Hsave. split.
  - unfold dispatch. cbn [guards run_chain].
    rewrite (getUserFromToken_accepts E db0 rq None token uid u Hauth Hjwt Huser).
    unfold handler, grade_submission. cbn [user req].
    destruct u as [[|ch t] em ro]; cbn in *; [congruence|].
    rewrite Hsave. reflexivity.
  - revert Hsave. unfold save_new, save.
    destruct (submissions db0 !! _); [intros [= _ <-]; split; reflexivity|].
    destruct (store E _ _); [intros [= _ <-]; split; reflexivity | discriminate].
Qed.

Lemma refused_intake_starts_nothing_witness :
  fst (dispatch (Samples.refusing_env 0)
         (Pipeline.gradeSubmission (Samples.refusing_env 0) Samples.good_run)
         POST_grade Samples.sample_db
         (Samples.request Samples.as_student [] Samples.empty_body))
  = [ SaveRefused (new_submission (Samples.refusing_env 0) Samples.sample_db
                     Samples.empty_body Samples.student_id) (lit "write failed");
      Responded (NextError (lit "write failed")) ].
Proof.
  pose proof (refused_intake_starts_nothing (Samples.refusing_env 0)
                (Pipeline.gradeSubmission (Samples.refusing_env 0) Samples.good_run)
                Samples.sample_db
                (snd (save_new (Samples.refusing_env 0)
                        (new_submission (Samples.refusing_env 0) Samples.sample_db
                           Samples.empty_body Samples.student_id)
                        Samples.sample_db))
                (Samples.request Samples.as_student [] Samples.empty_body)
                (lit "student-token") Samples.student_id Samples.student (lit "write failed")
                eq_refl eq_refl eq_refl) as H.
  destruct H as [-> _]; [discriminate | reflexivity |]. reflexivity.
Defined.



End RouteFurther.

(* ================================================================== *)
(** * Properties of the markdown sanitizer                             *)
(* ================================================================== *)

Section MarkdownFacts.
Import Text Markdown.

Lemma has_escape_cons (x c : N) (l : jsstring) :
  has_escape x (c :: l)
  = ((c =? BACKSLASH) && match l with b :: _ => b =? x | [] => false end)
    || has_escape x l.
Proof.
  destruct l as [|b t]; simpl; [|reflexivity].
  rewrite andb_false_r. reflexivity.
Qed.

Lemma replace_escape_step (y r a b : N) (t : jsstring) :
  replace_escape y r (a :: b :: t)
  = if (a =? BACKSLASH) && (b =? y)
    then r :: replace_escape y r t
    else a :: replace_escape y r (b :: t).
Proof. reflexivity. Qed.

(** The first character of a replaced text. *)
Lemma replace_escape_head (y r b : N) (t : jsstring) :
  exists l,
    replace_escape y r (b :: t)
    = (if (b =? BACKSLASH) && match t with c :: _ => c =? y | [] => false end
       then r else b) :: l.
Proof.
  destruct t as [|c t]; simpl.
  - rewrite andb_false_r. eauto.
  - destruct ((b =? BACKSLASH) && (c =? y)); eauto.
Qed.

(** A replacement that is neither a backslash nor [x] leaves no
    backslash followed by [x] behind... *)
Lemma replace_escape_clears (x r : N) (n : nat) :
  r <> BACKSLASH -> r <> x ->
  forall s, (length s <= n)%nat -> has_escape x (replace_escape x r s) = false.
Proof.
  intros Hb Hx. induction n as [|n IH]; intros s Hlen.
  - destruct s; [reflexivity | simpl in Hlen; lia].
  - destruct s as [|a [|b t]]; [reflexivity | reflexivity |].
    simpl in Hlen. rewrite replace_escape_step.
    destruct ((a =? BACKSLASH) && (b =? x)) eqn:Hm.
    + rewrite has_escape_cons, (IH t) by lia.
      apply N.eqb_neq in Hb. rewrite Hb. reflexivity.
    + rewrite has_escape_cons, (IH (b :: t)) by (simpl; lia). rewrite orb_false_r.
      destruct (replace_escape_head x r b t) as [l ->].
      destruct (a =? BACKSLASH); [|reflexivity]. simpl in Hm |- *.
      destruct ((b =? BACKSLASH) && match t with c :: _ => c =? x | [] => false end).
      * apply N.eqb_neq. exact Hx.
      * exact Hm.
Qed.

(** ... and makes none where there was none. *)
Lemma replace_escape_keeps_clear (x y r : N) (n : nat) :
  r <> BACKSLASH -> r <> x ->
  forall s, (length s <= n)%nat ->
    has_escape x s = false -> has_escape x (replace_escape y r s) = false.
Proof.
  intros Hb Hx. induction n as [|n IH]; intros s Hlen Hs.
  - destruct s; [reflexivity | simpl in Hlen; lia].
  - destruct s as [|a [|b t]]; [reflexivity | reflexivity |].
    simpl in Hlen. rewrite has_escape_cons in Hs.
    apply orb_false_iff in Hs as [Hab Hrest].
    rewrite replace_escape_step.
    destruct ((a =? BACKSLASH) && (b =? y)) eqn:Hm.
    + rewrite has_escape_cons in Hrest. apply orb_false_iff in Hrest as [_ Ht].
      rewrite has_escape_cons, (IH t) by (lia || assumption).
      apply N.eqb_neq in Hb. rewrite Hb. reflexivity.
    + rewrite has_escape_cons, (IH (b :: t)) by (simpl; lia || assumption).
      rewrite orb_false_r.
      destruct (replace_escape_head y r b t) as [l ->].
      destruct (a =? BACKSLASH); [|reflexivity]. simpl in Hab |- *.
      destruct ((b =? BACKSLASH) && match t with c :: _ => c =? y | [] => false end).
      * apply N.eqb_neq. exact Hx.
      * exact Hab.
Qed.

(** X19.  In a sanitized text no backslash is followed by the letter
    [n]: every such escape has become a line feed and the second
    replacement makes no new one. *)
Theorem sanitizeMarkdown_leaves_no_newline_escape (input : jsstring) :
  has_escape 110 (sanitizeMarkdown input) = false.
Proof.
  unfold sanitizeMarkdown.
  apply (replace_escape_keeps_clear 110 34 34
           (length (replace_escape 110 LF input))); [discriminate | discriminate | lia |].
  apply (replace_escape_clears 110 LF (length input)); [discriminate | discriminate | lia].
Qed.

Lemma replace_escape_length (y r : N) (n : nat) :
  forall s, (length s <= n)%nat -> (length (replace_escape y r s) <= length s)%nat.
Proof.
  induction n as [|n IH]; intros s Hlen.
  - destruct s; [simpl; lia | simpl in Hlen; lia].
  - destruct s as [|a [|b t]]; [simpl; lia | simpl; lia |].
    simpl in Hlen. rewrite replace_escape_step.
    destruct ((a =? BACKSLASH) && (b =? y)).
    + specialize (IH t ltac:(lia)). simpl. lia.
    + specialize (IH (b :: t) ltac:(simpl; lia)). simpl in *. lia.
Qed.

Lemma replace_escape_plain (y r : N) (s : jsstring) :
  BACKSLASH ∉ s -> replace_escape y r s = s.
Proof.
  induction s as [|a l IH]; intros Hs; [reflexivity|].
  apply not_elem_of_cons in Hs as [Ha Hl].
  destruct l as [|b t]; [reflexivity|].
  rewrite replace_escape_step. apply N.eqb_neq in Ha. rewrite N.eqb_sym in Ha.
  rewrite Ha. cbn [andb]. f_equal. apply IH, Hl.
Qed.

(** Sanitizing never lengthens a text, and a text without any
    backslash comes out as it went in. *)
Theorem sanitizeMarkdown_shrinks (input : jsstring) :
  (length (sanitizeMarkdown input) <= length input)%nat
  /\ (BACKSLASH ∉ input -> sanitizeMarkdown input = input).
Proof.
  unfold sanitizeMarkdown. split.
  - pose proof (replace_escape_length 110 LF (length input) input ltac:(lia)).
    pose proof (replace_escape_length 34 34 (length (replace_escape 110 LF input))
                  (replace_escape 110 LF input) ltac:(lia)).
    lia.
  - intros H. rewrite (replace_escape_plain 110 LF input H).
    apply replace_escape_plain, H.
Qed.

End MarkdownFacts.

(* ================================================================== *)
(** * Properties of the error middleware                               *)
(* ================================================================== *)

Section ErrorFacts.
Import Text Errors.

(** X20.  An [AppError] is answered with its own status, message and
    code in every environment, so the errors the factories make are
    answered 400, 401, 403, 404, 409, 429, 500 and 404 in that order. *)
Theorem app_error_rendered_as_made (development : bool)
    (timestamp path method : jsstring) (e : JsError) (st : nat) (c : option jsstring) :
  app e = Some (st, c) ->
  fst (errorHandler development timestamp e path method) = st
  /\ eb_status (snd (errorHandler development timestamp e path method)) = st
  /\ eb_error (snd (errorHandler development timestamp e path method)) = message e
  /\ eb_code (snd (errorHandler development timestamp e path method))
     = match c with Some (ch :: t) => Some (ch :: t) | _ => None end
  /\ forall msg url trace,
       map (fun err => fst (errorHandler development timestamp err path method))
         [ validationError msg trace; authorizationError (Some msg) trace;
           forbiddenError (Some msg) trace; notFoundError (Some msg) trace;
           conflictError msg trace; rateLimitError (Some msg) trace;
           serverError (Some msg) trace; notFound url trace ]
       = [400; 401; 403; 404; 409; 429; 500; 404]%nat.
Proof.
  intros Happ. unfold errorHandler, classify. rewrite Happ. cbn [fst snd eb_status eb_error eb_code].
  repeat split.
Qed.

Lemma app_error_rendered_as_made_witness :
  fst (errorHandler false (lit "now")
         (authorizationError None (lit "at guard")) (lit "/api/x") (lit "GET"))
  = 401%nat
  /\ eb_error (snd (errorHandler false (lit "now")
                      (authorizationError None (lit "at guard")) (lit "/api/x") (lit "GET")))
     = lit "Unauthorized".
Proof.
  pose proof (app_error_rendered_as_made false (lit "now") (lit "/api/x") (lit "GET")
                (authorizationError None (lit "at guard")) 401%nat
                (Some (lit "UNAUTHORIZED")) eq_refl) as (H1 & _ & H3 & _).
  split; [exact H1 | exact H3].
Defined.

(** X21.  The detail message of a Joi error never reaches a response:
    the answer to an error is the same whatever its Joi marks, because a
    [ValidationError] is answered by the earlier, general test. *)
Theorem joi_detail_never_sent (development : bool)
    (timestamp path method : jsstring) (e : JsError) (j : bool) (d : option jsstring) :
  errorHandler development timestamp (with_joi j d e) path method
  = errorHandler development timestamp e path method
  /\ (app e = None -> name e = lit "ValidationError" ->
      errorHandler development timestamp e path method
      = (400%nat,
         mkErrorBody (lit "Validation Error") 400 timestamp
           (if development then Some (stack e) else None)
           (if development then Some path else None)
           (if development then Some method else None)
           (Some (lit "VALIDATION_ERROR")))).
Proof.
  split.
  - unfold errorHandler, classify, with_joi, named. cbn [app name message code isJoi detail stack].
    destruct (app e) as [[st c]|]; [reflexivity|].
    destruct (bool_decide (name e = lit "ValidationError")); reflexivity.
  - intros Happ Hname. unfold errorHandler, classify, named. rewrite Happ, Hname.
    rewrite bool_decide_eq_true_2 by reflexivity. reflexivity.
Qed.

Lemma joi_detail_never_sent_witness :
  eb_error (snd (errorHandler false (lit "now") MoreSamples.joi_error
                   (lit "/api/auth/signup") (lit "POST")))
  = lit "Validation Error".
Proof.
  destruct (joi_detail_never_sent false (lit "now") (lit "/api/auth/signup") (lit "POST")
              MoreSamples.joi_error false None) as [_ H].
  rewrite H; reflexivity.
Defined.

(** X22.  Outside development the answer to an error that is no
    [AppError] tells nothing of the error's own message or stack: it is
    the same for every message and stack, it carries no stack, path or
    method, and its status is 400, 401, 409 or 500. *)
Theorem production_hides_error_text (timestamp path method : jsstring)
    (e : JsError) (msg trace : jsstring) :
  app e = None ->
  errorHandler false timestamp (with_text msg trace e) path method
  = errorHandler false timestamp e path method
  /\ eb_stack (snd (errorHandler false timestamp e path method)) = None
  /\ eb_path (snd (errorHandler false timestamp e path method)) = None
  /\ eb_method (snd (errorHandler false timestamp e path method)) = None
  /\ fst (errorHandler false timestamp e path method) ∈ [400; 401; 409; 500]%nat.
Proof.
  intros Happ.
  unfold errorHandler, classify, with_text, named.
  cbn [app name message code isJoi detail stack]. rewrite Happ.
  destruct (bool_decide (name e = lit "ValidationError"));
    [cbn; repeat split; set_solver|].
  destruct (bool_decide (name e = lit "CastError"));
    [cbn; repeat split; set_solver|].
  destruct (bool_decide (name e = lit "MongoServerError") && bool_decide (code e = Some 11000%Z));
    [cbn; repeat split; set_solver|].
  destruct (bool_decide (name e = lit "JsonWebTokenError"));
    [cbn; repeat split; set_solver|].
  destruct (bool_decide (name e = lit "TokenExpiredError"));
    [cbn; repeat split; set_solver|].
  cbn. repeat split; set_solver.
Qed.

Lemma production_hides_error_text_witness :
  errorHandler false (lit "now") MoreSamples.driver_error (lit "/api/x") (lit "GET")
  = (500%nat,
     mkErrorBody (lit "Internal Server Error") 500 (lit "now") None None None None).
Proof.
  destruct (production_hides_error_text (lit "now") (lit "/api/x") (lit "GET")
              MoreSamples.driver_error [] [] eq_refl) as (<- & _).
  reflexivity.
Defined.

End ErrorFacts.

(* ================================================================== *)
(** * Properties of the authentication middleware                      *)
(* ================================================================== *)

Section AuthMwFacts.
Import Text Model Errors AuthMw.

(** X23.  The optional middleware attaches a user to exactly the
    requests the mandatory one lets through, and the same user; on every
    other request it goes on without one. *)
Theorem optional_attaches_what_required_accepts (E : AuthMw.Env)
    (accounts : gmap jsstring User) (authHeader : option jsstring) :
  optionalAuthMiddleware E accounts authHeader
  = match authMiddleware E accounts authHeader with
    | inr u => Some u
    | inl _ => None
    end.
Proof.
  unfold optionalAuthMiddleware, authMiddleware, authenticate.
  destruct authHeader as [auth|]; [|reflexivity].
  destruct (startsWith (lit "Bearer ") auth); [|reflexivity].
  destruct (JWT_SECRET E) as [[|c t]|]; try reflexivity.
  destruct (verify E (slice_from 7 auth) (c :: t)) as [e|decoded].
  - destruct (named e "JsonWebTokenError"); [reflexivity|].
    destruct (named e "TokenExpiredError"); reflexivity.
  - destruct (accounts !! p_userId decoded); reflexivity.
Qed.

(** X24.  With a secret configured, the mandatory middleware and the
    guard of the routes let the same requests through and attach the
    same user, when the guard's verifier is this one under that
    secret. *)
Theorem middleware_agrees_with_route_guard (E : AuthMw.Env) (ER : Routes.Env)
    (db0 : Db) (rq : Routes.Request) (c : N) (t : jsstring) :
  JWT_SECRET E = Some (c :: t) ->
  (forall token, Routes.jwt_verify ER token = verifier_of E (c :: t) token) ->
  (exists u,
     authMiddleware E (users db0) (Routes.authorization rq) = inr (attach u)
     /\ Routes.getUserFromToken ER db0 (Routes.mkCtx rq None)
        = Routes.Next (Routes.mkCtx rq (Some u)))
  \/ (exists e m,
        authMiddleware E (users db0) (Routes.authorization rq) = inl e
        /\ Routes.getUserFromToken ER db0 (Routes.mkCtx rq None)
           = Routes.End (Routes.Json 401 (Routes.PError m))).
Proof.
  intros Hsecret Hver.
  unfold authMiddleware, authenticate, Routes.getUserFromToken, Routes.BEARER.
  cbn [Routes.req]. rewrite Hsecret.
  destruct (Routes.authorization rq) as [auth|]; [|right; eauto].
  destruct (startsWith (lit "Bearer ") auth); cbn [negb]; [|right; eauto].
  rewrite Hver. unfold verifier_of.
  destruct (verify E (slice_from 7 auth) (c :: t)) as [e|decoded].
  - right.
    destruct (named e "JsonWebTokenError"); [eauto|].
    destruct (named e "TokenExpiredError"); eauto.
  - unfold Routes.findUserById.
    destruct (users db0 !! p_userId decoded) as [u|]; [left; eauto | right].
    destruct (Routes.cast_failure ER (p_userId decoded)); eauto.
Qed.

Lemma middleware_agrees_with_route_guard_witness :
  authMiddleware MoreSamples.auth_env (users Samples.sample_db) Samples.as_admin
  = inr (attach Samples.admin).
Proof.
  destruct (middleware_agrees_with_route_guard MoreSamples.auth_env
              (Routes.mkEnv (verifier_of MoreSamples.auth_env (lit "s3cret"))
                 (Routes.new_id Samples.routes_env) (Routes.now Samples.routes_env)
                 (Routes.store Samples.routes_env)
                 (Routes.cast_failure Samples.routes_env)
                 (Routes.operator Samples.routes_env)
                 (Routes.paging Samples.routes_env)
                 (Routes.refusal Samples.routes_env))
              Samples.sample_db
              (Samples.request Samples.as_admin [] Samples.empty_body)
              115 (lit "3cret") eq_refl (fun _ => eq_refl))
    as [(u & Hmw & Hguard)|(e & m & _ & Hguard)].
  - vm_compute in Hguard. injection Hguard as <-. exact Hmw.
  - vm_compute in Hguard. discriminate Hguard.
Defined.



(** X26.  The role check lets a request through exactly when it has a
    user whose role is in the list; what it hands on otherwise, for a
    missing user and for a wrong role alike, is answered 401. *)
Theorem requireRole_passes_listed_roles (E : AuthMw.Env)
    (allowedRoles : list jsstring) (u : option ReqUser)
    (development : bool) (timestamp path method : jsstring) :
  (requireRole E allowedRoles u = None <->
   exists ru, u = Some ru /\ ru_role ru ∈ allowedRoles)
  /\ (forall e, requireRole E allowedRoles u = Some e ->
        fst (errorHandler development timestamp e path method) = 401%nat
        /\ eb_error (snd (errorHandler development timestamp e path method))
           = match u with
             | Some _ => lit "Insufficient permissions"
             | None => lit "Authentication required"
             end).
Proof.
  unfold requireRole. destruct u as [ru|].
  - destruct (bool_decide (ru_role ru ∈ allowedRoles)) eqn:Hin.
    + apply bool_decide_eq_true in Hin. split; [|discriminate].
      split; [eauto | reflexivity].
    + apply bool_decide_eq_false in Hin. split.
      * split; [discriminate|]. intros (ru' & [= <-] & H). contradiction.
      * intros e [= <-]. split; reflexivity.
  - split.
    + split; [discriminate|]. intros (ru & [=] & _).
    + intros e [= <-]. split; reflexivity.
Qed.

Lemma requireRole_passes_listed_roles_witness :
  fst (errorHandler false (lit "now")
         (authorizationError (Some (lit "Insufficient permissions")) (lit "at authMiddleware"))
         (lit "/api/x") (lit "GET"))
  = 401%nat.
Proof.
  destruct (requireRole_passes_listed_roles MoreSamples.auth_env
              [lit "instructor"; lit "admin"]
              (Some (attach Samples.student)) false (lit "now") (lit "/api/x") (lit "GET"))
    as [_ H].
  apply (H _ eq_refl).
Defined.

End AuthMwFacts.

(* ================================================================== *)
(** * Properties of the user and sign-in routes                        *)
(* ================================================================== *)

Section AccountFacts.
Import Text Js Accounts.

Lemma lower_me_nonempty (x : jsstring) :
  map lower x = map lower (lit "me") -> exists c t, x = c :: t.
Proof. destruct x as [|c t]; [discriminate | eauto]. Qed.

(** X27.  The route that lets a user update the own profile is never
    reached: it is registered after the update of a user by id, whose
    pattern takes the segment [me] as an id.  So such a request is
    handled as an administrative update of the user [me], and a caller
    who is not an administrator is answered 403 with nothing changed. *)
Theorem own_profile_route_is_shadowed :
  (forall m path params, route_of m path <> Some (R_patch_me, params))
  /\ (forall x, map lower x = map lower (lit "me") ->
        route_of PATCH [x] = Some (R_patch, [x]))
  /\ (forall E db auth b u x,
        map lower x = map lower (lit "me") ->
        getUserFromToken E db auth = inr u ->
        acc_role u <> lit "admin" ->
        serve E db PATCH [x] auth b
        = (Json 403 (PError (lit "Admin access required")), db)).
Proof.
  assert (Hme : forall x, map lower x = map lower (lit "me") ->
                  route_of PATCH [x] = Some (R_patch, [x])).
  { intros x Hx. destruct (lower_me_nonempty x Hx) as (c & t & ->). reflexivity. }
  split; [|split; [exact Hme|]].
  - intros m path params H. unfold route_of, table in H.
    destruct m; cbn [first_route] in H;
      repeat (case_bool_decide; try congruence);
      destruct path as [|[|c t] [|y l]]; cbn in H;
      repeat (case_bool_decide; try congruence; try discriminate);
      try discriminate.
    destruct l; discriminate.
  - intros E db auth b u x Hx Hu Hrole. unfold serve.
    rewrite (Hme x Hx), Hu. cbn [needs_admin]. unfold requireAdmin.
    rewrite bool_decide_eq_false_2 by exact Hrole. reflexivity.
Qed.

Lemma own_profile_route_is_shadowed_witness :
  serve MoreSamples.accounts_env MoreSamples.accounts_db PATCH [lit "me"]
    (Some (lit "Bearer student-token")) (MoreSamples.name_body "Samuel")
  = (Json 403 (PError (lit "Admin access required")), MoreSamples.accounts_db).
Proof.
  destruct own_profile_route_is_shadowed as (_ & _ & H).
  apply (H MoreSamples.accounts_env MoreSamples.accounts_db
           (Some (lit "Bearer student-token")) (MoreSamples.name_body "Samuel")
           MoreSamples.student_account (lit "me")).
  - reflexivity.
  - vm_compute. reflexivity.
  - discriminate.
Defined.

(** X28.  No user route does anything for a caller without a valid
    token: the store stays as it is and the answer is 401 (or 404 when no
    route matches at all); and on the five administrative routes a
    caller who is not an administrator is answered 403, again with the
    store unchanged. *)
Theorem user_routes_are_guarded (E : Env) (db : gmap jsstring Account)
    (m : Method) (path : list jsstring) (auth : option jsstring) (b : Body) :
  ((forall u, getUserFromToken E db auth <> inr u) ->
   snd (serve E db m path auth b) = db
   /\ exists msg,
        fst (serve E db m path auth b) = Json 401 (PError msg)
        \/ (route_of m path = None
            /\ fst (serve E db m path auth b) = Json 404 (PError msg)))
  /\ (forall u r params,
        route_of m path = Some (r, params) ->
        needs_admin r = true ->
        getUserFromToken E db auth = inr u ->
        acc_role u <> lit "admin" ->
        serve E db m path auth b
        = (Json 403 (PError (lit "Admin access required")), db)).
Proof.
  split.
  - intros Hno. unfold serve.
    destruct (route_of m path) as [[r params]|]; [|split; eauto].
    assert (Hg : exists msg, getUserFromToken E db auth = inl (Json 401 (PError msg))).
    { revert Hno. unfold getUserFromToken.
      destruct auth as [a|]; [|eauto].
      destruct (negb (startsWith (lit "Bearer ") a)); [eauto|].
      destruct (jwt_verify E (slice_from 7 a)) as [uid|]; [|eauto].
      destruct (findById E db uid) as [[]|[u|]]; [eauto | | eauto].
      intros Hno. exfalso. apply (Hno u). reflexivity. }
    destruct Hg as [msg ->]. split; eauto.
  - intros u r params Hr Hadmin Hu Hrole. unfold serve.
    rewrite Hr, Hu, Hadmin. unfold requireAdmin.
    rewrite bool_decide_eq_false_2 by exact Hrole. reflexivity.
Qed.

Lemma user_routes_are_guarded_witness :
  serve MoreSamples.accounts_env MoreSamples.accounts_db DELETE [MoreSamples.admin_id]
    (Some (lit "Bearer forged")) (MoreSamples.name_body "x")
  = (Json 401 (PError (lit "Invalid token")), MoreSamples.accounts_db).
Proof.
  destruct (user_routes_are_guarded MoreSamples.accounts_env MoreSamples.accounts_db
              DELETE [MoreSamples.admin_id] (Some (lit "Bearer forged"))
              (MoreSamples.name_body "x")) as [H _].
  destruct H as [Hdb _]; [intros u; vm_compute; discriminate|].
  rewrite <- Hdb at 2. vm_compute. reflexivity.
Defined.

Lemma findOne_member (db : gmap jsstring Account) (e : jsstring) (a : Account) :
  findOne db e = Some a -> acc_email a = e /\ exists id, db !! id = Some a.
Proof.
  unfold findOne. intros H. apply find_some in H as [Hin He].
  apply bool_decide_eq_true in He. split; [exact He|].
  apply list_elem_of_In, list_elem_of_fmap in Hin as ([id a'] & -> & Hin).
  exists id. apply elem_of_map_to_list in Hin. exact Hin.
Qed.

Lemma findOne_found (db : gmap jsstring Account) (id : jsstring) (a : Account) :
  db !! id = Some a -> exists a', findOne db (acc_email a) = Some a'.
Proof.
  intros Hdb. unfold findOne.
  destruct (find _ _) as [a'|] eqn:Hf; [eauto|].
  exfalso. pose proof (find_none _ _ Hf a) as Hn. simpl in Hn.
  rewrite bool_decide_eq_true_2 in Hn by reflexivity.
  assert (Hin : In a (map snd (map_to_list db))).
  { apply list_elem_of_In, list_elem_of_fmap. exists (id, a). split; [reflexivity|].
    apply elem_of_map_to_list. exact Hdb. }
  specialize (Hn Hin). discriminate.
Qed.

(** X29.  An email that some account already has cannot be registered
    again: for a request with that email both the sign-up and the
    creation of a user by an administrator leave the store unchanged,
    and answer 409 when the other required fields are there. *)
Theorem email_in_use_is_refused (E : Env) (db : gmap jsstring Account)
    (b : Body) (id : jsstring) (a : Account) :
  db !! id = Some a ->
  given (b_email b) = Some (acc_email a) ->
  snd (signup E db b) = db
  /\ snd (create_user E db b) = db
  /\ (given (b_password b) <> None ->
      fst (signup E db b) = Json 409 (PError (lit "Email already in use")))
  /\ (given (b_password b) <> None -> given (b_role b) <> None ->
      given (b_name b) <> None ->
      fst (create_user E db b) = Json 409 (PError (lit "Email already in use"))).
Proof.
  intros Hdb Hemail. destruct (findOne_found db id a Hdb) as [a' Hfound].
  unfold signup, create_user. rewrite Hemail, Hfound.
  destruct (given (b_password b)), (given (b_role b)), (given (b_name b));
    repeat split; intros; congruence.
Qed.

Lemma email_in_use_is_refused_witness :
  signup MoreSamples.accounts_env MoreSamples.accounts_db
    (mkBody (Some (lit "student@example.com")) (Some (lit "pw")) None None None None)
  = (Json 409 (PError (lit "Email already in use")), MoreSamples.accounts_db).
Proof.
  pose proof (email_in_use_is_refused MoreSamples.accounts_env MoreSamples.accounts_db
                (mkBody (Some (lit "student@example.com")) (Some (lit "pw"))
                   None None None None)
                MoreSamples.student_id MoreSamples.student_account
                ltac:(vm_compute; reflexivity) eq_refl) as (Hdb & _ & Hr & _).
  specialize (Hr ltac:(discriminate)).
  destruct (signup _ _ _) as [r d]. cbn in Hdb, Hr. subst. reflexivity.
Defined.

Lemma find_member (db : gmap jsstring Account) (f : Account -> bool) (a : Account) :
  List.find f (map snd (map_to_list db)) = Some a ->
  f a = true /\ exists id, db !! id = Some a.
Proof.
  intros H. apply find_some in H as [Hin Hf]. split; [exact Hf|].
  apply list_elem_of_In, list_elem_of_fmap in Hin as ([id a'] & -> & Hin).
  exists id. apply elem_of_map_to_list in Hin. exact Hin.
Qed.

(** X30.  Signing in gives a token only when the query selects an
    account of the store and the password is a string that compares
    equal to that account's; for an email given as a string the account
    is one with exactly that email, and for any other value it is one
    the store's reading of that value matches, the route handing the
    value on unchecked.  A wrong password is answered exactly as an
    unknown email is, 401 with [Invalid credentials], and a password
    that is not a string is answered with no token. *)
Theorem login_needs_matching_password (E : Env) (db : gmap jsstring Account)
    (email password : JsValue) :
  (forall token v,
     login E db email password = Json 200 (PSession token v) ->
     exists id u pw hash,
       db !! id = Some u
       /\ findOne_by E db email = inr (Some u)
       /\ password = JString pw /\ acc_password u = Some hash
       /\ compare E pw hash = true
       /\ token = sign E u /\ v = view u
       /\ (forall e, email = JString e -> acc_email u = e)
       /\ (forall cond, (forall e, email <> JString e) ->
             email_query E email = inr cond -> cond (acc_email u) = true))
  /\ (findOne_by E db email = inr None ->
      login E db email password = Json 401 (PError (lit "Invalid credentials")))
  /\ (forall u pw hash,
        findOne_by E db email = inr (Some u) ->
        password = JString pw -> acc_password u = Some hash ->
        compare E pw hash = false ->
        login E db email password = Json 401 (PError (lit "Invalid credentials")))
  /\ ((forall pw, password <> JString pw) ->
      forall token v, login E db email password <> Json 200 (PSession token v)).
Proof.
  split; [|split; [|split]].
  - intros token v. unfold login.
    destruct (findOne_by E db email) as [m|[u|]] eqn:Hf; try discriminate.
    assert (Hu : (exists id, db !! id = Some u)
                 /\ (forall e, email = JString e -> acc_email u = e)
                 /\ (forall cond, (forall e, email <> JString e) ->
                       email_query E email = inr cond -> cond (acc_email u) = true)).
    { revert Hf. unfold findOne_by.
      destruct email as [| |b|n|e|items|fields];
        try (destruct (email_query E _) as [m|cond] eqn:Hq; [discriminate|];
             intros [= Hfind]; apply find_member in Hfind as [Hc Hid];
             split; [exact Hid|]; split; [intros e [=]|];
             intros cond' _ [= <-]; exact Hc).
      intros [= Hfind]. destruct (findOne_member db e u Hfind) as [He Hid].
      split; [exact Hid|]. split; [intros e' [= <-]; exact He|].
      intros cond Hno. exfalso. exact (Hno e eq_refl). }
    destruct Hu as ([id Hid] & Hstr & Hop).
    destruct password as [| |b|n|pw|items|fields]; try discriminate.
    destruct (acc_password u) as [hash|] eqn:Hp; [|discriminate].
    destruct (compare E pw hash) eqn:Hc; [|discriminate].
    intros [= <- <-]. exists id, u, pw, hash. repeat split; assumption.
  - unfold login. intros ->. reflexivity.
  - unfold login. intros u pw hash -> -> -> ->. reflexivity.
  - intros Hno token v. unfold login.
    destruct (findOne_by E db email) as [m|[u|]]; try discriminate.
    destruct password as [| |b|n|pw|items|fields]; try discriminate.
    exfalso. exact (Hno pw eq_refl).
Qed.

(** A wrong guess at the student's password is answered as an unknown
    email is. *)
Lemma login_needs_matching_password_witness :
  login MoreSamples.accounts_env MoreSamples.accounts_db
    (JString (lit "student@example.com")) (JString (lit "guess"))
  = login MoreSamples.accounts_env MoreSamples.accounts_db
      (JString (lit "nobody@example.com")) (JString (lit "guess")).
Proof.
  destruct (login_needs_matching_password MoreSamples.accounts_env
              MoreSamples.accounts_db (JString (lit "student@example.com"))
              (JString (lit "guess")))
    as (_ & _ & Hwrong & _).
  destruct (login_needs_matching_password MoreSamples.accounts_env
              MoreSamples.accounts_db (JString (lit "nobody@example.com"))
              (JString (lit "guess")))
    as (_ & Hnone & _).
  rewrite (Hwrong MoreSamples.student_account (lit "guess") (lit "stud-pw"));
    [|vm_compute; reflexivity | reflexivity | reflexivity | vm_compute; reflexivity].
  rewrite Hnone; [reflexivity | vm_compute; reflexivity].
Defined.

(** An email that is an operator object selects an account without
    naming its email: with the password of that account the caller is
    signed in. *)
Example operator_email_signs_in :
  exists u,
    login MoreSamples.accounts_env MoreSamples.accounts_db
      (JObject [(lit "$ne", JString [])]) (JString (default [] (acc_password u)))
    = Json 200 (PSession (sign MoreSamples.accounts_env u) (view u)).
Proof.
  destruct (findOne_by MoreSamples.accounts_env MoreSamples.accounts_db
              (JObject [(lit "$ne", JString [])])) as [m|[u|]] eqn:Hf;
    [vm_compute in Hf; discriminate Hf| |vm_compute in Hf; discriminate Hf].
  exists u. unfold login. rewrite Hf.
  vm_compute in Hf. injection Hf as <-. vm_compute. reflexivity.
Qed.

End AccountFacts.
